(** * Hotel Lead Builder: website discovery and e-mail crawler

    A shallow embedding of the enrichment pipeline of the backend
    ([app/services/cache.py], [circuit_breaker.py], [crawler.py],
    [discovery.py], [dns_check.py], and the two tasks of [app/main.py]
    that call them) and the properties that the specification states
    about it, followed by further properties that the code shows.

    Conventions of the embedding.
    - A Python [str] is a Rocq [string], the UTF-8 bytes of the text.
      Case mapping ([lower], [upper]) and the character classes of [re]
      ([\s], [\d]) are those of ASCII, and lengths and slices count
      bytes: on ASCII text every operation is the one of Python.  The
      Turkish letters that the source names are the byte pairs of the
      literals, and [replace] and the character filter treat them as
      Python does.
    - Wall-clock time ([time.time()]) and the scores of [find_website],
      which are divided, are rationals ([Q]); the scores of the validator
      and of the crawler only ever receive whole numbers and are integers.
    - Everything that the code obtains from outside the process (HTTP
      responses, DNS answers, parsed HTML, [urllib], [tldextract]) is an
      oracle of an environment record; an oracle answers [None] (or a
      dedicated constructor) where the call raises.
    - The SQLite tables are finite maps from the primary key to the row. *)

From stdpp Require Import gmap strings list fin_maps.
From Stdlib Require Import ZArith QArith Qminmax Lqa Lia Ascii String List.
From Stdlib Require Import DecimalString Sorted.
From Equations Require Import Equations.
Import ListNotations.
Close Scope Q_scope.
Open Scope string_scope.
Open Scope list_scope.

(* ===================================================================== *)
(** * Part I. Definitions                                                 *)
(* ===================================================================== *)

(** ** Python strings *)

Definition code (c : ascii) : N := N_of_ascii c.

Definition in_range (lo hi : N) (c : ascii) : bool :=
  (lo <=? code c)%N && (code c <=? hi)%N.

(** [str.isspace] on ASCII: TAB..CR, FS..US and the space. *)
Definition is_space (c : ascii) : bool := in_range 9 13 c || in_range 28 32 c.
Definition is_upper (c : ascii) : bool := in_range 65 90 c.
Definition is_lower (c : ascii) : bool := in_range 97 122 c.
Definition is_digit (c : ascii) : bool := in_range 48 57 c.
Definition is_alpha (c : ascii) : bool := is_upper c || is_lower c.
Definition is_alnum (c : ascii) : bool := is_alpha c || is_digit c.

Definition lower_char (c : ascii) : ascii :=
  if is_upper c then ascii_of_N (code c + 32) else c.
Definition upper_char (c : ascii) : ascii :=
  if is_lower c then ascii_of_N (code c - 32) else c.

Fixpoint smap (f : ascii -> ascii) (s : string) : string :=
  match s with
  | EmptyString => EmptyString
  | String c s' => String (f c) (smap f s')
  end.

Fixpoint sfilter (p : ascii -> bool) (s : string) : string :=
  match s with
  | EmptyString => EmptyString
  | String c s' => if p c then String c (sfilter p s') else sfilter p s'
  end.

Fixpoint sforall (p : ascii -> bool) (s : string) : bool :=
  match s with
  | EmptyString => true
  | String c s' => p c && sforall p s'
  end.

(** [s.lower()], [s.upper()], [s.capitalize()] *)
Definition lower (s : string) : string := smap lower_char s.
Definition upper (s : string) : string := smap upper_char s.
Definition capitalize (s : string) : string :=
  match s with
  | EmptyString => EmptyString
  | String c s' => String (upper_char c) (lower s')
  end.

Definition is_empty (s : string) : bool :=
  match s with EmptyString => true | _ => false end.

(** [s.lstrip()], [s.rstrip()], [s.strip()] *)
Fixpoint lstrip (s : string) : string :=
  match s with
  | EmptyString => EmptyString
  | String c s' => if is_space c then lstrip s' else s
  end.

Fixpoint rstrip (s : string) : string :=
  match s with
  | EmptyString => EmptyString
  | String c s' =>
      let r := rstrip s' in
      if is_space c && is_empty r then EmptyString else String c r
  end.

Definition strip (s : string) : string := lstrip (rstrip s).

(** [s.startswith(p)], [s.endswith(p)], [sub in s] *)
Fixpoint startswith (p s : string) : bool :=
  match p, s with
  | EmptyString, _ => true
  | String a p', String b s' => Ascii.eqb a b && startswith p' s'
  | String _ _, EmptyString => false
  end.

Fixpoint endswith (p s : string) : bool :=
  String.eqb s p ||
  match s with
  | EmptyString => false
  | String _ s' => endswith p s'
  end.

Fixpoint contains (sub s : string) : bool :=
  startswith sub s ||
  match s with
  | EmptyString => false
  | String _ s' => contains sub s'
  end.

(** Slices [s[:n]] and [s[n:]]. *)
Fixpoint stake (n : nat) (s : string) : string :=
  match n, s with
  | S k, String c s' => String c (stake k s')
  | _, _ => EmptyString
  end.

Fixpoint sdrop (n : nat) (s : string) : string :=
  match n, s with
  | S k, String _ s' => sdrop k s'
  | _, _ => s
  end.

(** [s[:-n]] for [n > 0]. *)
Definition drop_last (n : nat) (s : string) : string :=
  stake (String.length s - n) s.

(** [s.count(c)] for a one-character [c]. *)
Fixpoint count_char (c : ascii) (s : string) : nat :=
  match s with
  | EmptyString => 0
  | String d s' => (if Ascii.eqb c d then 1 else 0) + count_char c s'
  end.

Definition cons_head (c : ascii) (l : list string) : list string :=
  match l with
  | [] => [String c EmptyString]
  | h :: t => String c h :: t
  end.

(** [s.split(sep)] for a one-character separator: never empty. *)
Fixpoint split_char (sep : ascii) (s : string) : list string :=
  match s with
  | EmptyString => [EmptyString]
  | String c s' =>
      if Ascii.eqb c sep then EmptyString :: split_char sep s'
      else cons_head c (split_char sep s')
  end.

(** [re.split(r"\s+", s)]: a run of white space is one separator; a
    leading or trailing run leaves an empty field. *)
Fixpoint re_split_ws_from (in_ws : bool) (s : string) : list string :=
  match s with
  | EmptyString => [EmptyString]
  | String c s' =>
      if is_space c then
        if in_ws then re_split_ws_from true s'
        else EmptyString :: re_split_ws_from true s'
      else cons_head c (re_split_ws_from false s')
  end.

Definition re_split_ws (s : string) : list string := re_split_ws_from false s.

Definition nonempty (s : string) : bool := negb (is_empty s).

(** [s.split()] *)
Definition split_ws (s : string) : list string := filter nonempty (re_split_ws s).

(** [s.replace(old, new)] for a non-empty [old]: the occurrences are
    taken from the left and do not overlap; [skip] counts the characters
    of the current occurrence that are still to be dropped. *)
Fixpoint replace_from (old new : string) (skip : nat) (s : string) : string :=
  match s with
  | EmptyString => EmptyString
  | String c s' =>
      match skip with
      | S k => replace_from old new k s'
      | O =>
          if startswith old s
          then new ++ replace_from old new (String.length old - 1) s'
          else String c (replace_from old new 0 s')
      end
  end.

Definition replace (old new s : string) : string :=
  if is_empty old then s else replace_from old new 0 s.

(** [x in l] for a list, a set or the keys of a dict of strings. *)
Definition mem (x : string) (l : list string) : bool :=
  existsb (String.eqb x) l.

(** [any(k in s for k in ks)] *)
Definition contains_any (ks : list string) (s : string) : bool :=
  existsb (fun k => contains k s) ks.

(** [t.isdigit()] *)
Definition isdigit (s : string) : bool := nonempty s && sforall is_digit s.

(** Order-preserving removal of duplicates:
    [[v for v in l if not (v in seen or seen.add(v))]]. *)
Fixpoint dedup_from (seen l : list string) : list string :=
  match l with
  | [] => []
  | x :: l' => if mem x seen then dedup_from seen l'
               else x :: dedup_from (x :: seen) l'
  end.

Definition dedup (l : list string) : list string := dedup_from [] l.

(** [str(n)] for an [int] and for an integer-valued [float]. *)
Definition str_of_nat (n : nat) : string := NilZero.string_of_uint (Nat.to_uint n).
Definition str_of_int (z : Z) : string := NilZero.string_of_int (Z.to_int z).
Definition str_of_float (z : Z) : string := str_of_int z ++ ".0".

(** String concatenation where the list notation is in force. *)
Infix "+++" := String.append (at level 60, right associativity).

(** ** Regular expressions

    The patterns of the source that are only asked whether they match are
    kept as terms and matched by derivatives.  [re.match] asks for a
    match starting at the first character, [re.search] for a match
    starting anywhere; [$] holds at the end of the string and before a
    final newline. *)

Inductive regex : Type :=
| RNever
| REps
| RChr (p : ascii -> bool)
| RSeq (r1 r2 : regex)
| RAlt (r1 r2 : regex)
| RStar (r : regex).

Fixpoint nullable (r : regex) : bool :=
  match r with
  | RNever => false
  | REps => true
  | RChr _ => false
  | RSeq r1 r2 => nullable r1 && nullable r2
  | RAlt r1 r2 => nullable r1 || nullable r2
  | RStar _ => true
  end.

Fixpoint deriv (c : ascii) (r : regex) : regex :=
  match r with
  | RNever => RNever
  | REps => RNever
  | RChr p => if p c then REps else RNever
  | RSeq r1 r2 =>
      if nullable r1 then RAlt (RSeq (deriv c r1) r2) (deriv c r2)
      else RSeq (deriv c r1) r2
  | RAlt r1 r2 => RAlt (deriv c r1) (deriv c r2)
  | RStar r1 => RSeq (deriv c r1) (RStar r1)
  end.

(** Some prefix of [s] matches [r]. *)
Fixpoint re_prefix (r : regex) (s : string) : bool :=
  nullable r ||
  match s with
  | EmptyString => false
  | String c s' => re_prefix (deriv c r) s'
  end.

Definition newline : ascii := ascii_of_N 10.

Definition at_dollar (s : string) : bool :=
  match s with
  | EmptyString => true
  | String c EmptyString => Ascii.eqb c newline
  | _ => false
  end.

(** Some prefix of [s] matches [r] and ends where [$] holds. *)
Fixpoint re_prefix_dollar (r : regex) (s : string) : bool :=
  (nullable r && at_dollar s) ||
  match s with
  | EmptyString => false
  | String c s' => re_prefix_dollar (deriv c r) s'
  end.

Record pattern : Type := Pattern { pat_body : regex; pat_dollar : bool }.

(** [re.match(p, s, re.IGNORECASE)]: the literals of a pattern are built
    with [ci], which ignores case. *)
Definition re_match (p : pattern) (s : string) : bool :=
  if pat_dollar p then re_prefix_dollar (pat_body p) s
  else re_prefix (pat_body p) s.

(** [re.search(p, s)] *)
Fixpoint re_search (r : regex) (s : string) : bool :=
  re_prefix r s ||
  match s with
  | EmptyString => false
  | String _ s' => re_search r s'
  end.

Definition cs (c : ascii) : ascii -> bool := Ascii.eqb c.
Definition ci (c : ascii) : ascii -> bool :=
  fun x => Ascii.eqb (lower_char x) (lower_char c).
Definition dot : ascii -> bool := fun x => negb (Ascii.eqb x newline).

Fixpoint rlit (mk : ascii -> ascii -> bool) (s : string) : regex :=
  match s with
  | EmptyString => REps
  | String c s' => RSeq (RChr (mk c)) (rlit mk s')
  end.

Definition ropt (r : regex) : regex := RAlt r REps.
Definition rplus (r : regex) : regex := RSeq r (RStar r).
Fixpoint rtimes (n : nat) (r : regex) : regex :=
  match n with
  | O => REps
  | S k => RSeq r (rtimes k r)
  end.

(** ** Numbers *)

Definition Qltb (a b : Q) : bool := negb (Qle_bool b a).
Definition Qgeb (a b : Q) : bool := Qle_bool b a.

(** ** Circuit breaker ([circuit_breaker.py]) *)

Inductive CircuitState : Type := CLOSED | OPEN | HALF_OPEN.

Record CircuitBreakerConfig : Type := {
  failure_threshold : Z;
  recovery_timeout : Q;
  success_threshold : Z;
  timeout : Q
}.

Record CircuitBreaker : Type := {
  name : string;
  config : CircuitBreakerConfig;
  state : CircuitState;
  failure_count : Z;
  success_count : Z;
  last_failure_time : Q
}.

(** [CircuitBreaker.__init__] *)
Definition CircuitBreaker_init (n : string) (c : CircuitBreakerConfig) : CircuitBreaker :=
  {| name := n; config := c; state := CLOSED;
     failure_count := 0; success_count := 0; last_failure_time := 0%Q |}.

(** [_should_allow_request]; [now] is the value of [time.time()]. *)
Definition _should_allow_request (now : Q) (cb : CircuitBreaker) : bool * CircuitBreaker :=
  match state cb with
  | CLOSED => (true, cb)
  | OPEN =>
      if Qgeb (now - last_failure_time cb)%Q (recovery_timeout (config cb))
      then (true, {| name := name cb; config := config cb; state := HALF_OPEN;
                     failure_count := failure_count cb; success_count := 0;
                     last_failure_time := last_failure_time cb |})
      else (false, cb)
  | HALF_OPEN => (true, cb)
  end.

Definition record_success (cb : CircuitBreaker) : CircuitBreaker :=
  match state cb with
  | HALF_OPEN =>
      let sc := (success_count cb + 1)%Z in
      {| name := name cb; config := config cb;
         state := if (success_threshold (config cb) <=? sc)%Z then CLOSED else HALF_OPEN;
         failure_count := 0; success_count := sc;
         last_failure_time := last_failure_time cb |}
  | st =>
      {| name := name cb; config := config cb; state := st;
         failure_count := 0; success_count := success_count cb;
         last_failure_time := last_failure_time cb |}
  end.

Definition record_failure (now : Q) (cb : CircuitBreaker) : CircuitBreaker :=
  let fc := (failure_count cb + 1)%Z in
  {| name := name cb; config := config cb;
     state := match state cb with
              | HALF_OPEN => OPEN
              | CLOSED => if (failure_threshold (config cb) <=? fc)%Z then OPEN else CLOSED
              | OPEN => OPEN
              end;
     failure_count := fc; success_count := success_count cb;
     last_failure_time := now |}.

Definition reset (cb : CircuitBreaker) : CircuitBreaker :=
  {| name := name cb; config := config cb; state := CLOSED;
     failure_count := 0; success_count := 0;
     last_failure_time := last_failure_time cb |}.

(** What a guarded function does when it is run: it returns a value or
    raises the exception of the given class name. *)
Inductive outcome (A : Type) : Type :=
| Returned (a : A)
| Raised (exn : string).
Arguments Returned {A} a.
Arguments Raised {A} exn.

Inductive call_result (A : Type) : Type :=
| CallOk (a : A)
| CallFailed (exn : string)
| CircuitOpenError.
Arguments CallOk {A} a.
Arguments CallFailed {A} exn.
Arguments CircuitOpenError {A}.

(** [CircuitBreaker.call]: [t_allow] and [t_fail] are the clock readings of
    the admission test and of [record_failure]. *)
Definition call {A : Type} (t_allow t_fail : Q) (func : outcome A)
    (cb : CircuitBreaker) : call_result A * CircuitBreaker :=
  let '(ok, cb1) := _should_allow_request t_allow cb in
  if ok then
    match func with
    | Returned a => (CallOk a, record_success cb1)
    | Raised e => (CallFailed e, record_failure t_fail cb1)
    end
  else (CircuitOpenError, cb1).

(** The pre-configured breakers. *)
Definition ddg_circuit : CircuitBreaker :=
  CircuitBreaker_init "duckduckgo"
    {| failure_threshold := 5; recovery_timeout := 60%Q;
       success_threshold := 2; timeout := 10%Q |}.

Definition http_circuit : CircuitBreaker :=
  CircuitBreaker_init "http_requests"
    {| failure_threshold := 10; recovery_timeout := 30%Q;
       success_threshold := 3; timeout := 10%Q |}.

(** The operations that the rest of the program performs on a breaker. *)
Inductive cb_event : Type :=
| EvAllow (now : Q)
| EvSuccess
| EvFailure (now : Q)
| EvReset.

Definition cb_apply (cb : CircuitBreaker) (e : cb_event) : CircuitBreaker :=
  match e with
  | EvAllow now => snd (_should_allow_request now cb)
  | EvSuccess => record_success cb
  | EvFailure now => record_failure now cb
  | EvReset => reset cb
  end.

(** The states that a breaker created by [CircuitBreaker_init] can be in. *)
Inductive cb_reachable (n : string) (c : CircuitBreakerConfig) : CircuitBreaker -> Prop :=
| reach_init : cb_reachable n c (CircuitBreaker_init n c)
| reach_step cb e : cb_reachable n c cb -> cb_reachable n c (cb_apply cb e).

(** ** Cache store ([cache.py])

    One finite map per table, keyed by the primary key.  [INSERT OR
    REPLACE] is the insertion into the map; operational errors of SQLite,
    which the code logs and swallows, are not modelled. *)

Definition CACHE_TTL_SECONDS : Q := (7 * 24 * 60 * 60)%Q.
Definition SEARCH_TTL_SECONDS : Q := (24 * 60 * 60)%Q.

(** [is_cache_valid(checked_at, ttl)], with [now] for [time.time()]. *)
Definition is_cache_valid (now checked_at ttl : Q) : bool :=
  Qltb (now - checked_at)%Q ttl.

Record dns_row : Type := {
  domain_exists : Z;
  dns_checked_at : Q
}.

Record domain_row : Type := {
  status_code : Z;
  final_url : option string;
  domain_checked_at : Q
}.

(** The [indicators] column holds the JSON text of a list of strings;
    [json.loads (json.dumps l)] is [l] for such a list, and the column is
    kept as the list. *)
Record validation_row : Type := {
  row_is_hotel : Z;
  row_confidence : Z;
  row_indicators : list string;
  row_checked_at : Q
}.

Record search_row : Type := {
  results : list string;
  searched_at : Q
}.

Record cache_db : Type := {
  dns_cache : gmap string dns_row;
  domain_cache : gmap string domain_row;
  validation_cache : gmap string validation_row;
  search_cache : gmap string search_row
}.

Definition empty_db : cache_db :=
  {| dns_cache := ∅; domain_cache := ∅; validation_cache := ∅; search_cache := ∅ |}.

(** [int(b)] and [bool(n)] *)
Definition int_of_bool (b : bool) : Z := if b then 1%Z else 0%Z.
Definition bool_of_int (n : Z) : bool := negb (n =? 0)%Z.

(** The verdict of the content validator, the dict
    [{'is_hotel': .., 'confidence': .., 'indicators': ..}].  The running
    score is a float that only ever receives whole numbers. *)
Record verdict : Type := {
  is_hotel : bool;
  confidence : Z;
  indicators : list string
}.

Definition get_dns_cache (now : Q) (db : cache_db) (domain : string) : option bool :=
  match dns_cache db !! lower domain with
  | Some row =>
      if is_cache_valid now (dns_checked_at row) CACHE_TTL_SECONDS
      then Some (bool_of_int (domain_exists row))
      else None
  | None => None
  end.

Definition set_dns_cache (now : Q) (db : cache_db) (domain : string) (exists_ : bool) : cache_db :=
  {| dns_cache := <[lower domain := {| domain_exists := int_of_bool exists_;
                                       dns_checked_at := now |}]> (dns_cache db);
     domain_cache := domain_cache db;
     validation_cache := validation_cache db;
     search_cache := search_cache db |}.

Definition get_domain_cache (now : Q) (db : cache_db) (domain : string)
    : option (Z * option string) :=
  match domain_cache db !! lower domain with
  | Some row =>
      if is_cache_valid now (domain_checked_at row) CACHE_TTL_SECONDS
      then Some (status_code row, final_url row)
      else None
  | None => None
  end.

Definition set_domain_cache (now : Q) (db : cache_db) (domain : string)
    (status : Z) (final : option string) : cache_db :=
  {| dns_cache := dns_cache db;
     domain_cache := <[lower domain := {| status_code := status; final_url := final;
                                          domain_checked_at := now |}]> (domain_cache db);
     validation_cache := validation_cache db;
     search_cache := search_cache db |}.

Definition get_validation_cache (now : Q) (db : cache_db) (url : string) : option verdict :=
  match validation_cache db !! lower url with
  | Some row =>
      if is_cache_valid now (row_checked_at row) CACHE_TTL_SECONDS
      then Some {| is_hotel := bool_of_int (row_is_hotel row);
                   confidence := row_confidence row;
                   indicators := row_indicators row |}
      else None
  | None => None
  end.

Definition set_validation_cache (now : Q) (db : cache_db) (url : string)
    (hotel : bool) (conf : Z) (inds : list string) : cache_db :=
  {| dns_cache := dns_cache db;
     domain_cache := domain_cache db;
     validation_cache :=
       <[lower url := {| row_is_hotel := int_of_bool hotel; row_confidence := conf;
                         row_indicators := inds; row_checked_at := now |}]>
         (validation_cache db);
     search_cache := search_cache db |}.

(** The search table is keyed by [hashlib.md5(query.lower().encode()).hexdigest()];
    the digest is a parameter. *)
Definition get_search_cache (md5 : string -> string) (now : Q) (db : cache_db)
    (query : string) : option (list string) :=
  match search_cache db !! md5 (lower query) with
  | Some row =>
      if is_cache_valid now (searched_at row) SEARCH_TTL_SECONDS
      then Some (results row)
      else None
  | None => None
  end.

Definition set_search_cache (md5 : string -> string) (now : Q) (db : cache_db)
    (query : string) (res : list string) : cache_db :=
  {| dns_cache := dns_cache db;
     domain_cache := domain_cache db;
     validation_cache := validation_cache db;
     search_cache := <[md5 (lower query) := {| results := res; searched_at := now |}]>
                       (search_cache db) |}.

(** The four namespaces behind one interface: [put] upserts the payload
    with the current time, [get] answers the payload of a fresh entry. *)
Inductive namespace : Type := NsDns | NsDomain | NsValidation | NsSearch.

Inductive payload : Type :=
| PDns (exists_ : bool)
| PDomain (status : Z) (final : option string)
| PValidation (v : verdict)
| PSearch (res : list string).

Definition ns_of (p : payload) : namespace :=
  match p with
  | PDns _ => NsDns
  | PDomain _ _ => NsDomain
  | PValidation _ => NsValidation
  | PSearch _ => NsSearch
  end.

Definition ttl (ns : namespace) : Q :=
  match ns with
  | NsSearch => SEARCH_TTL_SECONDS
  | _ => CACHE_TTL_SECONDS
  end.

Definition cache_put (md5 : string -> string) (now : Q) (db : cache_db)
    (k : string) (p : payload) : cache_db :=
  match p with
  | PDns b => set_dns_cache now db k b
  | PDomain st fu => set_domain_cache now db k st fu
  | PValidation v => set_validation_cache now db k (is_hotel v) (confidence v) (indicators v)
  | PSearch res => set_search_cache md5 now db k res
  end.

Definition cache_get (md5 : string -> string) (now : Q) (db : cache_db)
    (ns : namespace) (k : string) : option payload :=
  match ns with
  | NsDns => PDns <$> get_dns_cache now db k
  | NsDomain => (fun r => PDomain (fst r) (snd r)) <$> get_domain_cache now db k
  | NsValidation => PValidation <$> get_validation_cache now db k
  | NsSearch => PSearch <$> get_search_cache md5 now db k
  end.

(** ** The outside world *)

(** What [BeautifulSoup] and the extraction functions of [crawler.py] read
    off a page: the text of [<title>], the addresses collected by
    [extract_emails_from_html] and [extract_emails_from_text] (in the
    iteration order of the set), and the [href]s of the anchors. *)
Record document : Type := {
  doc_title : option string;
  doc_emails : list string;
  doc_hrefs : list string
}.

(** An HTTP response; [soup] is [Raised] when parsing or extraction raises. *)
Record response : Type := {
  resp_status : Z;
  resp_content_type : string;
  resp_text : string;
  soup : outcome document
}.

(** What [socket.gethostbyname] does: it resolves the name or raises
    [gaierror], [timeout] or something else. *)
Inductive dns_answer : Type := Resolved | NoSuchHost | TimedOut | DnsError.

(** The oracles.  The first argument of a network oracle counts the
    requests made so far, so that the same URL may be answered
    differently each time. *)
Record env : Type := {
  clock : nat -> Q;
  requests_get : nat -> string -> outcome response;
  requests_head : nat -> string -> option (Z * option string);
  requests_post : nat -> string -> outcome string;
  gethostbyname : string -> dns_answer;
  urlparse_netloc : string -> option string;
  urljoin : string -> string -> option string;
  tldextract : string -> option (string * string);
  query_param : string -> string -> option (option string);
  search_links : string -> option (list (string * string))
}.

(** ** E-mail crawler ([crawler.py]) *)

Definition PRIORITY_KEYWORDS : list string :=
  ["contact"; "iletisim"; "about"; "hakkimizda"; "info"; "ulasim";
   "bize-ulasin"; "bizeulasin"; "communication"].

(** [r'.*<literal>$'] and [r'^<literal>'] *)
Definition ends_with_pat (lit : string) : pattern :=
  Pattern (RSeq (RStar (RChr dot)) (rlit ci lit)) true.
Definition starts_with_pat (lit : string) : pattern :=
  Pattern (rlit ci lit) false.

Definition INVALID_EMAIL_PATTERNS : list pattern :=
  [ ends_with_pat ".png"; ends_with_pat ".jpg"; ends_with_pat ".gif"; ends_with_pat ".jpeg";
    ends_with_pat ".js"; ends_with_pat ".css";
    ends_with_pat "@example.com"; ends_with_pat "@test.com";
    starts_with_pat "noreply@"; starts_with_pat "no-reply@";
    ends_with_pat "@sentry.io"; ends_with_pat "@google.com";
    Pattern (RSeq (rplus (RChr is_digit)) (rlit ci "@")) false ].

Definition at_sign : ascii := "@"%char.

Definition is_valid_email (email : string) : bool :=
  let email := strip (lower email) in
  if existsb (fun p => re_match p email) INVALID_EMAIL_PATTERNS then false
  else if (String.length email <? 5)%nat || (254 <? String.length email)%nat then false
  else if negb (count_char at_sign email =? 1)%nat then false
  else
    let domain := nth 1 (split_char at_sign email) "" in
    if negb (contains "." domain) then false
    else true.

Definition preferred_prefixes : list string :=
  ["info"; "contact"; "rezervasyon"; "reservation"; "booking"; "sales";
   "satis"; "reception"; "resepsiyon"].

Definition generic_domains : list string :=
  ["gmail.com"; "yahoo.com"; "hotmail.com"; "outlook.com"; "yandex.com"].

Definition score_email (email domain : string) : Z :=
  let score := 0%Z in
  let email_lower := lower email in
  let email_domain :=
    if contains "@" email then nth 1 (split_char at_sign email) "" else "" in
  let website_domain := replace "www." "" domain in
  let score :=
    if String.eqb email_domain website_domain then (score + 50)%Z
    else if contains website_domain email_domain || contains email_domain website_domain
         then (score + 30)%Z
         else score in
  let email_prefix := nth 0 (split_char at_sign email_lower) "" in
  let score :=
    if mem email_prefix preferred_prefixes then (score + 40)%Z
    else if existsb (fun pref => contains pref email_prefix) preferred_prefixes
         then (score + 20)%Z
         else score in
  let score :=
    if mem email_domain generic_domains then (score - 20)%Z else score in
  score.

(** *** The scoring rule in the words of the specification *)

(** The part of an address between its first and its second [@], and the
    part before the first. *)
Definition domain_part (e : string) : string := nth 1 (split_char at_sign e) "".
Definition local_part (e : string) : string := nth 0 (split_char at_sign e) "".

(** [d] with a leading [www.] removed. *)
Definition remove_www_prefix (d : string) : string :=
  if startswith "www." d then sdrop 4 d else d.

(** The sum that the specification gives for [score_email(e, d)]. *)
Definition score_email_as_stated (e d : string) : Z :=
  ((if String.eqb (domain_part e) (remove_www_prefix d) then 50
    else if contains (remove_www_prefix d) (domain_part e)
            || contains (domain_part e) (remove_www_prefix d) then 30
         else 0)
   + (if mem (local_part e) preferred_prefixes then 40
      else if existsb (fun pref => contains pref (local_part e)) preferred_prefixes then 20
           else 0)
   - (if mem (domain_part e) generic_domains then 20 else 0))%Z.

(** [a] occurs in [b]. *)
Definition substring (a b : string) : Prop := exists p q, b = (p ++ a ++ q)%string.

(** The three terms of the sum as relations. *)
Inductive domain_points (ed wd : string) : Z -> Prop :=
| points_same : ed = wd -> domain_points ed wd 50
| points_related :
    ed <> wd -> substring wd ed \/ substring ed wd -> domain_points ed wd 30
| points_unrelated :
    ed <> wd -> ~ substring wd ed -> ~ substring ed wd -> domain_points ed wd 0.

Inductive local_points (lp : string) : Z -> Prop :=
| points_exact : In lp preferred_prefixes -> local_points lp 40
| points_contains :
    ~ In lp preferred_prefixes ->
    (exists pref, In pref preferred_prefixes /\ substring pref lp) ->
    local_points lp 20
| points_none :
    ~ In lp preferred_prefixes ->
    (forall pref, In pref preferred_prefixes -> ~ substring pref lp) ->
    local_points lp 0.

Inductive provider_penalty (ed : string) : Z -> Prop :=
| penalty_generic : In ed generic_domains -> provider_penalty ed 20
| penalty_none : ~ In ed generic_domains -> provider_penalty ed 0.

(** The dict [found_emails]: the keys keep the order of insertion, and an
    assignment to a known key keeps its place. *)
Fixpoint dict_get (k : string) (d : list (string * Z)) : option Z :=
  match d with
  | [] => None
  | (k', v) :: d' => if String.eqb k k' then Some v else dict_get k d'
  end.

Fixpoint dict_set (k : string) (v : Z) (d : list (string * Z)) : list (string * Z) :=
  match d with
  | [] => [(k, v)]
  | (k', v') :: d' =>
      if String.eqb k k' then (k, v) :: d' else (k', v') :: dict_set k v d'
  end.

(** [max(found_emails.keys(), key=lambda e: found_emails[e])]: the first
    key of maximal score. *)
Fixpoint best_of (d : list (string * Z)) : option (string * Z) :=
  match d with
  | [] => None
  | (k, v) :: d' =>
      match best_of d' with
      | Some (k', v') => if (v <? v')%Z then Some (k', v') else Some (k, v)
      | None => Some (k, v)
      end
  end.

Record crawl_state : Type := {
  visited : gset string;
  queue : list string;
  found_emails : list (string * Z);
  pages_crawled : Z;
  requests_made : nat
}.

Definition skip_extensions : list string :=
  [".pdf"; ".jpg"; ".png"; ".gif"; ".css"; ".js"; ".zip"; ".doc"].

Definition sharp : ascii := "#"%char.

(** [full_url.split('#')[0]] *)
Definition strip_fragment (u : string) : string := nth 0 (split_char sharp u) "".

(** The body of [for email in page_emails]. *)
Definition store_email (domain url : string) (found : list (string * Z)) (email : string)
    : list (string * Z) :=
  let email := strip (lower email) in
  if is_valid_email email then
    let email_score := score_email email domain in
    let email_score :=
      if contains_any PRIORITY_KEYWORDS (lower url) then (email_score + 15)%Z
      else email_score in
    match dict_get email found with
    | Some old => if (old <? email_score)%Z then dict_set email email_score found else found
    | None => dict_set email email_score found
    end
  else found.

(** The loop over the anchors.  The second component is [false] when
    [urljoin] or [urlparse] raised: the links queued before stay queued. *)
Fixpoint queue_links (E : env) (domain url : string) (vis : gset string)
    (hrefs : list string) (q : list string) : list string * bool :=
  match hrefs with
  | [] => (q, true)
  | href :: rest =>
      if startswith "mailto:" href || startswith "javascript:" href
      then queue_links E domain url vis rest q
      else
        match urljoin E url href with
        | None => (q, false)
        | Some full_url =>
            match urlparse_netloc E full_url with
            | None => (q, false)
            | Some netloc =>
                if String.eqb netloc domain && negb (bool_decide (full_url ∈ vis)) then
                  let full_url := strip_fragment full_url in
                  if bool_decide (full_url ∈ vis)
                  then queue_links E domain url vis rest q
                  else if contains_any PRIORITY_KEYWORDS (lower full_url)
                       then queue_links E domain url vis rest (full_url :: q)
                       else queue_links E domain url vis rest (q ++ [full_url])
                else queue_links E domain url vis rest q
            end
        end
  end.

Definition is_html (content_type : string) : bool :=
  contains "text/html" (lower content_type)
  || contains "application/xhtml" (lower content_type).

(** One turn of the [while] loop, entered with a non-empty queue
    [url :: rest].  The second component is the e-mail of the early
    [return]. *)
Definition crawl_step (E : env) (domain url : string) (rest : list string)
    (st : crawl_state) : crawl_state * option string :=
  let popped := {| visited := visited st; queue := rest;
                   found_emails := found_emails st;
                   pages_crawled := pages_crawled st;
                   requests_made := requests_made st |} in
  if bool_decide (url ∈ visited st) then (popped, None)
  else if existsb (fun ext => endswith ext (lower url)) skip_extensions then (popped, None)
  else
    let asked := {| visited := visited st; queue := rest;
                    found_emails := found_emails st;
                    pages_crawled := pages_crawled st;
                    requests_made := S (requests_made st) |} in
    match requests_get E (requests_made st) url with
    | Raised _ => (asked, None)
    | Returned resp =>
        if negb (is_html (resp_content_type resp)) then (asked, None)
        else
          let vis := {[url]} ∪ visited st in
          let pages := (pages_crawled st + 1)%Z in
          match soup resp with
          | Raised _ =>
              ({| visited := vis; queue := rest; found_emails := found_emails st;
                  pages_crawled := pages; requests_made := S (requests_made st) |}, None)
          | Returned doc =>
              let found := fold_left (store_email domain url) (doc_emails doc)
                             (found_emails st) in
              let '(q, ok) := queue_links E domain url vis (doc_hrefs doc) rest in
              let st' := {| visited := vis; queue := q; found_emails := found;
                            pages_crawled := pages;
                            requests_made := S (requests_made st) |} in
              if ok then
                match best_of found with
                | Some (best_email, best_score) =>
                    if (70 <=? best_score)%Z then (st', Some best_email) else (st', None)
                | None => (st', None)
                end
              else (st', None)
          end
    end.

Definition crawl_measure (max_pages : Z) (st : crawl_state) : nat * nat :=
  (Z.to_nat (max_pages - pages_crawled st), List.length (queue st)).

Lemma crawl_step_decreases E domain max_pages url rest st st' :
  queue st = url :: rest ->
  (pages_crawled st <? max_pages)%Z = true ->
  fst (crawl_step E domain url rest st) = st' ->
  Subterm.lexprod nat nat lt lt (crawl_measure max_pages st') (crawl_measure max_pages st).
Proof.
  intros Hq Hlt <-. apply Z.ltb_lt in Hlt.
  assert (Hpop : forall v f r,
    Subterm.lexprod nat nat lt lt
      (crawl_measure max_pages {| visited := v; queue := rest; found_emails := f;
         pages_crawled := pages_crawled st; requests_made := r |})
      (crawl_measure max_pages st)).
  { intros. unfold crawl_measure; cbn. rewrite Hq. apply Subterm.right_lex. cbn. lia. }
  assert (Hpage : forall v q f r,
    Subterm.lexprod nat nat lt lt
      (crawl_measure max_pages {| visited := v; queue := q; found_emails := f;
         pages_crawled := pages_crawled st + 1; requests_made := r |})
      (crawl_measure max_pages st)).
  { intros. unfold crawl_measure; cbn. apply Subterm.left_lex. lia. }
  unfold crawl_step.
  destruct (bool_decide _); [apply Hpop|].
  destruct (existsb _ _); [apply Hpop|].
  destruct (requests_get _ _ _) as [resp|]; [|apply Hpop].
  destruct (negb _); [apply Hpop|].
  destruct (soup resp) as [doc|]; [|apply Hpage].
  destruct (queue_links _ _ _ _ _ _) as [q ok].
  destruct ok; [|apply Hpage].
  destruct (best_of _) as [[be bs]|]; [|apply Hpage].
  destruct (70 <=? bs)%Z; apply Hpage.
Qed.

Definition inspect {A : Type} (a : A) : {b : A | a = b} := exist _ a eq_refl.

(** The [while queue and pages_crawled < max_pages] loop. *)
Equations? crawl_loop (E : env) (domain : string) (max_pages : Z) (st : crawl_state)
    : crawl_state * option string
    by wf (crawl_measure max_pages st) (Subterm.lexprod nat nat lt lt) :=
  crawl_loop E domain max_pages st with inspect (queue st) := {
    | exist _ [] _ := (st, None);
    | exist _ (url :: rest) Hq with inspect (pages_crawled st <? max_pages)%Z := {
        | exist _ false _ := (st, None);
        | exist _ true Hlt with inspect (crawl_step E domain url rest st) := {
            | exist _ (st', Some email) _ := (st', Some email);
            | exist _ (st', None) Hstep := crawl_loop E domain max_pages st' } } }.
Proof.
  eapply crawl_step_decreases; eauto. now rewrite Hstep.
Qed.

(** What [crawl_for_email] hands to its caller. *)
Inductive crawl_result : Type :=
| CrawlReturn (email : option string)
| CrawlRaise (exn : string).

Definition initial_state (start_url : string) : crawl_state :=
  {| visited := ∅; queue := [start_url]; found_emails := [];
     pages_crawled := 0; requests_made := 0 |}.

(** The state in which the function stops; [urlparse(start_url)] is
    outside every [try]. *)
Definition crawl_run (E : env) (start_url : string) (max_pages : Z)
    : option (crawl_state * option string) :=
  match urlparse_netloc E start_url with
  | None => None
  | Some domain => Some (crawl_loop E domain max_pages (initial_state start_url))
  end.

Definition crawl_for_email (E : env) (start_url : string) (max_pages : Z) : crawl_result :=
  match crawl_run E start_url max_pages with
  | None => CrawlRaise "ValueError"
  | Some (_, Some best_email) => CrawlReturn (Some best_email)
  | Some (st, None) =>
      match best_of (found_emails st) with
      | Some (best_email, _) => CrawlReturn (Some best_email)
      | None => CrawlReturn None
      end
  end.

(** An address in the form in which the crawler keeps it. *)
Definition kept_email (e : string) : Prop :=
  strip (lower e) = e /\ is_valid_email e = true.

Definition is_sharp (c : ascii) : bool := Ascii.eqb c sharp.

(** What the crawler needs of [urlparse]: the network location of a URL
    is that of the URL without its fragment. *)
Definition netloc_defrag (E : env) : Prop :=
  forall u d, urlparse_netloc E u = Some d ->
              urlparse_netloc E (strip_fragment u) = Some d.

(** The invariant of the loop: the counter is the number of visited
    pages, it stays within [max_pages], and every URL that is visited or
    waits in the queue is on the host [domain]. *)
Definition crawl_inv (E : env) (domain : string) (max_pages : Z) (st : crawl_state) : Prop :=
  pages_crawled st = Z.of_nat (size (visited st))
  /\ (pages_crawled st <= max_pages)%Z
  /\ (forall u, u ∈ visited st \/ In u (queue st) -> urlparse_netloc E u = Some domain).

(** The loop with a bound on the number of turns, for evaluation: it
    agrees with [crawl_loop] whenever it answers. *)
Fixpoint crawl_loop_fuel (fuel : nat) (E : env) (domain : string) (max_pages : Z)
    (st : crawl_state) : option (crawl_state * option string) :=
  match fuel with
  | O => None
  | S k =>
      match queue st with
      | [] => Some (st, None)
      | url :: rest =>
          if (pages_crawled st <? max_pages)%Z then
            match crawl_step E domain url rest st with
            | (st', Some email) => Some (st', Some email)
            | (st', None) => crawl_loop_fuel k E domain max_pages st'
            end
          else Some (st, None)
      end
  end.

(** The states that the loop passes through. *)
Inductive crawl_reach (E : env) (domain : string) (max_pages : Z) (start_url : string)
    : crawl_state -> Prop :=
| reach_start : crawl_reach E domain max_pages start_url (initial_state start_url)
| reach_turn st url rest :
    crawl_reach E domain max_pages start_url st ->
    queue st = url :: rest ->
    (pages_crawled st < max_pages)%Z ->
    crawl_reach E domain max_pages start_url (fst (crawl_step E domain url rest st)).

(** ** Content validator ([discovery.py]) *)

Definition HOTEL_KEYWORDS_english : list string :=
  ["hotel"; "resort"; "motel"; "guest house"; "lodge"; "inn"; "villa"; "room";
   "accommodation"; "booking"; "reserve"; "check-in"; "check-out"].

Definition HOTEL_KEYWORDS_turkish : list string :=
  ["otel"; "resort"; "pansiyon"; "konuk evi"; "konak"; "yatakhane"; "apart"; "kamp";
   "oda"; "konaklama"; "rezervasyon"; "giriş"; "çıkış"; "tur"; "turizm"].

Definition domain_keywords : list string :=
  ["hotel"; "otel"; "resort"; "apart"; "pansiyon"; "villa"; "lodge"; "inn"; "motel"].

Definition brand_keywords : list string :=
  ["hyatt"; "hilton"; "marriott"; "radisson"; "sheraton";
   "accor"; "ibis"; "novotel"; "mercure"; "sofitel";
   "ramada"; "wyndham"; "holiday inn"; "crowne plaza";
   "intercontinental"; "doubletree"; "hampton"; "embassy"].

Definition rseq (l : list regex) : regex := fold_right RSeq REps l.
Definition rdigit : regex := RChr is_digit.
(** [[\s\-]?] *)
Definition rsep : regex :=
  ropt (RChr (fun c => is_space c || Ascii.eqb c "-"%char)).

Definition phone_patterns : list regex :=
  [ (* \+90[\s\-]?\(?\d{3}\)?[\s\-]?\d{3}[\s\-]?\d{2}[\s\-]?\d{2} *)
    rseq [rlit cs "+90"; rsep; ropt (rlit cs "("); rtimes 3 rdigit; ropt (rlit cs ")");
          rsep; rtimes 3 rdigit; rsep; rtimes 2 rdigit; rsep; rtimes 2 rdigit];
    (* 0[2-5]\d{2}[\s\-]?\d{3}[\s\-]?\d{2}[\s\-]?\d{2} *)
    rseq [rlit cs "0"; RChr (in_range 50 53); rtimes 2 rdigit; rsep; rtimes 3 rdigit;
          rsep; rtimes 2 rdigit; rsep; rtimes 2 rdigit];
    (* 444[\s\-]?\d{1}[\s\-]?\d{3} *)
    rseq [rlit cs "444"; rsep; rtimes 1 rdigit; rsep; rtimes 3 rdigit] ].

(** [sum(1 for kw in kws if kw in content)] *)
Definition count_keywords (kws : list string) (content : string) : nat :=
  List.length (filter (fun kw => contains kw content) kws).

(** [if city:] *)
Definition truthy (s : option string) : bool :=
  match s with
  | Some s => nonempty s
  | None => false
  end.

Definition or_empty (s : option string) : string :=
  match s with
  | Some s => s
  | None => ""
  end.

(** The first [try] block: the score and the indicators after the
    analysis of the host name. *)
Definition domain_analysis (E : env) (url : string) : Z * list string :=
  match urlparse_netloc E url with
  | None => (0%Z, [])
  | Some netloc =>
      let domain := lower netloc in
      if contains_any domain_keywords domain
      then (40%Z, ["✓ Hotel keyword in domain: " +++ domain])
      else if contains_any brand_keywords domain
           then (35%Z, ["✓ Hotel brand in domain: " +++ domain])
           else (0%Z, [])
  end.

(** The [except Exception as e] branch of the second [try] block, entered
    with the score and the indicators reached so far. *)
Definition content_error (t_write : Q) (db : cache_db) (url : string)
    (score : Z) (inds : list string) (exn : string) : verdict * cache_db :=
  if (40 <=? score)%Z then
    let result := {| is_hotel := true; confidence := Z.min (score + 10) 100;
                     indicators := inds ++ ["⚠ Content error but domain is hotel"] |} in
    (result, set_validation_cache t_write db url (is_hotel result) (confidence result)
               (indicators result))
  else
    ({| is_hotel := false; confidence := 0; indicators := ["✗ Error: " +++ exn] |}, db).

(** Caches the verdict and returns it. *)
Definition cached_return (t_write : Q) (db : cache_db) (url : string) (result : verdict)
    : verdict * cache_db :=
  (result, set_validation_cache t_write db url (is_hotel result) (confidence result)
             (indicators result)).

(** The part of [validate_hotel_content] that follows a miss of the cache. *)
Definition validate_uncached (E : env) (t_write : Q) (fetch : outcome response)
    (db : cache_db) (url : string) (city : option string) : verdict * cache_db :=
  let '(score, inds) := domain_analysis E url in
  match fetch with
  | Raised exn => content_error t_write db url score inds exn
  | Returned resp =>
      if negb (resp_status resp =? 200)%Z then
        if (40 <=? score)%Z then
          cached_return t_write db url
            {| is_hotel := true; confidence := 80;
               indicators := inds ++ ["⚠ HTTP non-200 but domain is hotel"] |}
        else
          cached_return t_write db url
            {| is_hotel := false; confidence := 0; indicators := ["✗ HTTP not 200"] |}
      else
        let content := lower (resp_text resp) in
        let city_matched :=
          if truthy city then
            let c := or_empty city in
            existsb (fun variant => contains variant content)
                    [lower c; capitalize c; upper c]
          else false in
        let '(score, inds) :=
          if city_matched
          then ((score + 40)%Z, inds ++ ["✓ City matched: " +++ or_empty city])
          else (score, inds) in
        if (70 <=? score)%Z then
          let inds := inds ++ ["✓ FAST PASS: Domain + City = " +++ str_of_float score
                               +++ " pts"] in
          cached_return t_write db url
            {| is_hotel := true; confidence := Z.min (score + 20) 100;
               indicators := inds |}
        else
          match soup resp with
          | Raised exn => content_error t_write db url score inds exn
          | Returned doc =>
              let title_text := lower (or_empty (doc_title doc)) in
              let '(score, inds) :=
                if nonempty title_text
                   && (contains "hotel" title_text || contains "otel" title_text
                       || contains "resort" title_text)
                then ((score + 20)%Z, inds ++ ["✓ Hotel keyword in title"])
                else (score, inds) in
              let english_kw := count_keywords HOTEL_KEYWORDS_english content in
              let turkish_kw := count_keywords HOTEL_KEYWORDS_turkish content in
              let '(score, inds) :=
                if (2 <=? english_kw)%nat
                then ((score + 20)%Z,
                      inds ++ ["✓ English keywords: " +++ str_of_nat english_kw])
                else if (2 <=? turkish_kw)%nat
                     then ((score + 20)%Z,
                           inds ++ ["✓ Turkish keywords: " +++ str_of_nat turkish_kw])
                     else (score, inds) in
              let has_phone := existsb (fun p => re_search p content) phone_patterns in
              let '(score, inds) :=
                if has_phone then ((score + 15)%Z, inds ++ ["✓ Phone number found"])
                else (score, inds) in
              if (50 <=? score)%Z then
                cached_return t_write db url
                  {| is_hotel := true; confidence := Z.min score 100;
                     indicators := inds |}
              else
                cached_return t_write db url
                  {| is_hotel := false; confidence := score;
                     indicators := inds ++ ["✗ Score too low"] |}
          end
  end.

(** [validate_hotel_content(url, hotel_name, city)].  [t_read] and
    [t_write] are the clock readings of the cache lookup and of the cache
    write, [fetch] is what [requests.get(url, ...)] does. *)
Definition validate_hotel_content (E : env) (t_read t_write : Q)
    (fetch : outcome response) (db : cache_db)
    (url : string) (hotel_name city : option string) : verdict * cache_db :=
  match get_validation_cache t_read db url with
  | Some cached => (cached, db)
  | None => validate_uncached E t_write fetch db url city
  end.

(** The host of the URL contains one of the hotel words. *)
Definition host_has_hotel_keyword (E : env) (url : string) : bool :=
  match urlparse_netloc E url with
  | Some netloc => contains_any domain_keywords (lower netloc)
  | None => false
  end.

(** No entry of the URL changes its freshness between two readings of
    the clock. *)
Definition no_expiry (t1 t2 : Q) (db : cache_db) (url : string) : Prop :=
  forall row, validation_cache db !! lower url = Some row ->
    is_cache_valid t1 (row_checked_at row) CACHE_TTL_SECONDS
    = is_cache_valid t2 (row_checked_at row) CACHE_TTL_SECONDS.

(** ** Name normalizer ([discovery.py]) *)

Fixpoint drop_while (p : ascii -> bool) (s : string) : string :=
  match s with
  | EmptyString => EmptyString
  | String c s' => if p c then drop_while p s' else s
  end.

(** The number of characters up to and including the first [close], when
    it comes before any newline: what [.*?] followed by [close] consumes. *)
Fixpoint find_close (close : ascii) (s : string) : option nat :=
  match s with
  | EmptyString => None
  | String c s' =>
      if Ascii.eqb c close then Some 1%nat
      else if Ascii.eqb c newline then None
      else option_map S (find_close close s')
  end.

(** [re.sub(r"\(.*?\)|\[.*?\]", "", s)] *)
Fixpoint remove_bracketed_from (skip : nat) (s : string) : string :=
  match s with
  | EmptyString => EmptyString
  | String c s' =>
      match skip with
      | S k => remove_bracketed_from k s'
      | O =>
          let close :=
            if Ascii.eqb c "("%char then find_close ")"%char s'
            else if Ascii.eqb c "["%char then find_close "]"%char s'
            else None in
          match close with
          | Some n => remove_bracketed_from n s'
          | None => String c (remove_bracketed_from 0 s')
          end
      end
  end.

Definition remove_bracketed (s : string) : string := remove_bracketed_from 0 s.

(** [re.sub(r"\s+", " ", s)] *)
Fixpoint collapse_ws_from (in_ws : bool) (s : string) : string :=
  match s with
  | EmptyString => EmptyString
  | String c s' =>
      if is_space c then
        if in_ws then collapse_ws_from true s'
        else String " "%char (collapse_ws_from true s')
      else String c (collapse_ws_from false s')
  end.

Definition collapse_ws (s : string) : string := collapse_ws_from false s.

Definition _normalize_name_for_search (name : string) : string :=
  let base :=
    if contains "-" name then strip (nth 0 (split_char "-"%char name) "") else name in
  let base := remove_bracketed base in
  strip (collapse_ws base).

(** [re.sub(r'^\d+\s+', '', s)] *)
Definition strip_numeric_prefix (s : string) : string :=
  let rest := drop_while is_digit s in
  if (String.length rest <? String.length s)%nat
     && (String.length (drop_while is_space rest) <? String.length rest)%nat
  then drop_while is_space rest
  else s.

Definition turkish_letters : list string :=
  ["ş"; "ğ"; "ı"; "ü"; "ç"; "ö"; "Ş"; "Ğ"; "İ"; "Ü"; "Ç"; "Ö"].

(** [re.sub(r'[^a-zA-Z0-9\sşğıüçöŞĞİÜÇÖ-]', '', s)]: a Turkish letter is
    a pair of bytes. *)
Fixpoint keep_name_chars (s : string) : string :=
  match s with
  | EmptyString => EmptyString
  | String c s' =>
      if is_alnum c || is_space c || Ascii.eqb c "-"%char
      then String c (keep_name_chars s')
      else
        match s' with
        | String d s'' =>
            if mem (String c (String d EmptyString)) turkish_letters
            then String c (String d (keep_name_chars s''))
            else keep_name_chars s'
        | EmptyString => EmptyString
        end
  end.

(** A chain of [.replace(a, b)] calls. *)
Definition replace_chain (pairs : list (string * string)) (s : string) : string :=
  fold_left (fun acc ab => replace (fst ab) (snd ab) acc) pairs s.

Definition fold_upper_to_lower : list (string * string) :=
  [("İ", "i"); ("Ş", "s"); ("Ğ", "g"); ("Ü", "u"); ("Ç", "c"); ("Ö", "o")].
Definition fold_upper_to_upper : list (string * string) :=
  [("İ", "I"); ("Ş", "S"); ("Ğ", "G"); ("Ü", "U"); ("Ç", "C"); ("Ö", "O")].
Definition fold_lower : list (string * string) :=
  [("ş", "s"); ("ı", "i"); ("ğ", "g"); ("ü", "u"); ("ç", "c"); ("ö", "o")].
Definition drop_brackets : list (string * string) :=
  [("(", ""); (")", ""); ("[", ""); ("]", "")].
Definition drop_punctuation : list (string * string) :=
  [(".", ""); (",", ""); ("/", "")].

(** The letter i followed by the combining dot above (U+0307). *)
Definition dotted_i : string :=
  String "i"%char (String (ascii_of_N 204) (String (ascii_of_N 135) EmptyString)).

Definition clean_turkish (token : string) : string :=
  replace dotted_i "i" (replace_chain fold_lower token).

Definition type_suffixes : list string :=
  ["pansiyon"; "pansiyonu";
   "otel"; "oteli"; "oteller";
   "apart"; "apart-otel"; "apart otel";
   "spa"; "tesisi"; "hotel"; "hotels";
   "motel"; "pension"; "guest house"; "hostel"].

Definition guess_stopwords : list string :=
  ["special"; "class"; "boutique"; "luxury"; "deluxe"].

Definition guess_type_words : list string :=
  ["hotel"; "otel"; "resort"; "spa"; "apart"; "pansiyon"; "motel";
   "house"; "guest"; "inn"; "lodge";
   "oteli"; "oteller"; "pansiyonu"; "resorts"; "kabin"; "kabins";
   "vila"; "villalar"; "konaklama"].

Fixpoint tokens_eqb (a b : list string) : bool :=
  match a, b with
  | [], [] => true
  | x :: a', y :: b' => String.eqb x y && tokens_eqb a' b'
  | _, _ => false
  end.

Definition tokens_mem (x : list string) (l : list (list string)) : bool :=
  existsb (tokens_eqb x) l.

(** [[l[:i] for i in range(a, len(l) + 1)]] *)
Definition prefixes_from (a : nat) (l : list string) : list (list string) :=
  map (fun i => firstn i l) (seq a (List.length l + 1 - a)).

(** What the cleaning of the name yields for the later stages. *)
Record name_parts : Type := {
  clean_name : string;
  raw_tokens_original : list string;
  progressive_tokens : list (list string)
}.

(** The first part of Strategy 1 of [find_website], up to the test of the
    length of [clean_name]; [hotel_name] is already stripped. *)
Definition clean_hotel_name (hotel_name : string) : name_parts :=
  let base_name := _normalize_name_for_search hotel_name in
  let clean_name := lower base_name in
  let raw_name := clean_name in
  let clean_name := strip_numeric_prefix clean_name in
  let clean_name := replace "&" "" clean_name in
  let clean_name := keep_name_chars clean_name in
  let temp_check_name := lower clean_name in
  let temp_check_name := replace_chain fold_upper_to_lower temp_check_name in
  let temp_check_name := replace_chain fold_lower temp_check_name in
  let removed_suffix :=
    find (fun suffix => endswith (" " +++ suffix) temp_check_name) type_suffixes in
  let clean_name :=
    match removed_suffix with
    | Some suffix => strip (drop_last (String.length (" " +++ suffix)) clean_name)
    | None => clean_name
    end in
  let raw_tokens_original := filter nonempty (re_split_ws raw_name) in
  let raw_tokens := filter nonempty (re_split_ws clean_name) in
  let raw_tokens := map lower raw_tokens in
  let core_tokens :=
    filter (fun t => negb (mem t guess_stopwords)
                     && negb (mem (clean_turkish t) guess_type_words)) raw_tokens in
  let core_tokens :=
    match core_tokens with
    | [] => filter (fun t => negb (mem t guess_stopwords)) raw_tokens
    | _ => core_tokens
    end in
  let progressive :=
    match core_tokens with
    | [] => prefixes_from 1 raw_tokens
    | _ => prefixes_from 1 core_tokens
    end in
  let progressive :=
    if (List.length core_tokens <? List.length raw_tokens)%nat
       && (1 <? List.length raw_tokens)%nat
    then fold_left (fun acc combo => if tokens_mem combo acc then acc else acc ++ [combo])
                   (prefixes_from (List.length core_tokens + 1) raw_tokens) progressive
    else progressive in
  let progressive :=
    match removed_suffix, core_tokens with
    | Some suffix, _ :: _ =>
        let core_with_suffix := core_tokens ++ [suffix] in
        if tokens_mem core_with_suffix progressive then progressive
        else core_with_suffix :: progressive
    | _, _ => progressive
    end in
  let clean_name := replace_chain fold_upper_to_upper clean_name in
  let clean_name := replace_chain fold_lower clean_name in
  let clean_name := replace_chain drop_brackets clean_name in
  let clean_name := replace_chain ((" ", "") :: drop_punctuation) clean_name in
  {| clean_name := clean_name;
     raw_tokens_original := raw_tokens_original;
     progressive_tokens := progressive |}.

(** The cleaning of one candidate string. *)
Definition clean_variant (v : string) : string :=
  replace_chain drop_punctuation (replace_chain drop_brackets (replace_chain fold_lower v)).

(** The orderings tried for one list of tokens. *)
Definition variants_to_try (token_list : list string) : list (list string) :=
  if existsb (fun t => mem (clean_turkish t) guess_type_words) token_list
  then [token_list]
  else
    [["hotel"] ++ token_list; token_list ++ ["hotel"]]
    ++ (if (2 <=? List.length token_list)%nat
        then [firstn 1 token_list ++ ["hotel"] ++ skipn 1 token_list]
        else []).

(** The body of [for variant_tokens in variants_to_try]. *)
Definition add_variant (acc : list string) (variant_tokens : list string) : list string :=
  let variant := clean_variant (String.concat "" variant_tokens) in
  let acc := if (3 <=? String.length variant)%nat then acc ++ [variant] else acc in
  let variant_hyphen := clean_variant (String.concat "-" variant_tokens) in
  if (3 <=? String.length variant_hyphen)%nat && negb (mem variant_hyphen acc)
  then acc ++ [variant_hyphen]
  else acc.

(** The list [domain_variants] after the removal of duplicates and before
    the priority sort. *)
Definition domain_variants_before_priority (parts : name_parts) : list string :=
  let acc :=
    fold_left (fun acc token_list =>
                 match token_list with
                 | [] => acc
                 | _ => fold_left add_variant (variants_to_try token_list) acc
                 end)
              (progressive_tokens parts) [] in
  let numeric_tokens := filter isdigit (raw_tokens_original parts) in
  let acc := fold_left (fun acc num => acc ++ ["hotel" +++ num; num +++ "hotel"])
                       numeric_tokens acc in
  let acc := acc ++ [clean_name parts] in
  dedup acc.

(** [l.sort(key=len, reverse=True)]: stable, longest first. *)
Fixpoint insert_by_len (x : string) (l : list string) : list string :=
  match l with
  | [] => [x]
  | y :: l' =>
      if (String.length x <? String.length y)%nat then y :: insert_by_len x l'
      else x :: y :: l'
  end.

Definition sort_by_len_desc (l : list string) : list string :=
  fold_right insert_by_len [] l.

Definition ends_otel (v : string) : bool := endswith "otel" v || endswith "oteli" v.

Definition has_oteli (l : list string) : list string :=
  filter (endswith "oteli") l.
Definition has_otel_not_oteli (l : list string) : list string :=
  filter (fun v => endswith "otel" v && negb (endswith "oteli" v)) l.
Definition no_hotel_keyword (l : list string) : list string :=
  filter (fun v => negb (contains "hotel" v) && negb (ends_otel v)) l.
Definition has_hotel_keyword (l : list string) : list string :=
  filter (fun v => contains "hotel" v && negb (ends_otel v)) l.

(** The priority sort. *)
Definition prioritize (l : list string) : list string :=
  sort_by_len_desc (has_oteli l) ++ sort_by_len_desc (has_otel_not_oteli l)
  ++ sort_by_len_desc (no_hotel_keyword l) ++ sort_by_len_desc (has_hotel_keyword l).

(** The list [domain_variants] that Strategy 1 expands to URLs. *)
Definition domain_variants (hotel_name : string) : list string :=
  prioritize (domain_variants_before_priority (clean_hotel_name (strip hotel_name))).

Definition tlds : list string :=
  [".com.tr"; ".org.tr"; ".net.tr"; ".biz.tr";
   ".com"; ".net"; ".org"; ".biz"; ".info"; ".co"].

Definition url_variants (variants : list string) : list string :=
  dedup (flat_map (fun variant =>
           flat_map (fun tld => ["http://www." +++ variant +++ tld;
                                 "http://" +++ variant +++ tld]) tlds) variants).

(** ** Scoring and relevance ([discovery.py]) *)

Definition BLACKLIST_DOMAINS : list string :=
  ["booking.com"; "tripadvisor"; "trivago"; "etstur.com"; "hotels.com";
   "expedia"; "tatilbudur.com"; "agoda.com"; "facebook.com"; "instagram.com";
   "twitter.com"; "linkedin.com"; "youtube.com"; "google.com"; "wikipedia";
   "enuygun.com"; "obilet.com"; "skyscanner.com"; "skyscanner.com.tr";
   "hotel-istanbul.net"; "hotel-of-istanbul.com"; "hotel-tr.com";
   "otelz.com"; "otelz.com.tr"; "jollytur.com"; "tatilsepeti.com";
   "setur.com.tr"; "neredekal.com"; "gezimanya.com"; "trip.com"].

(** [re.sub(r'\d+', '', s)] *)
Definition remove_digits (s : string) : string := sfilter (fun c => negb (is_digit c)) s.

Definition relevance_stopwords : list string :=
  ["the"; "a"; "an"; "and"; "or"; "in"; "at"; "by"; "for"; "of"; "to";
   "special"; "class"; "boutique"; "luxury"; "deluxe"].

Definition relevance_hotel_keywords : list string :=
  ["hotel"; "hotels"; "otel"; "oteller"; "resort"; "spa"; "apart";
   "pansiyon"; "motel"; "pension"; "guest"; "house"; "hostel"; "lodge"; "inn"].

Definition _is_relevant_domain (E : env) (hotel_name url : string) : bool :=
  match tldextract E url with
  | None => false
  | Some (d, _) =>
      let domain := lower d in
      if mem domain relevance_hotel_keywords && (String.length domain <? 6)%nat then false
      else if contains_any relevance_hotel_keywords domain then true
      else
        let tokens := re_split_ws (lower hotel_name) in
        let tokens :=
          filter (fun t => (2 <? String.length t)%nat
                           && negb (mem t relevance_stopwords)
                           && negb (mem t relevance_hotel_keywords)) tokens in
        if existsb (fun token =>
                      let token_clean := remove_digits token in
                      (3 <=? String.length token_clean)%nat && contains token_clean domain)
                   tokens
        then true
        else if (6 <=? String.length domain)%nat then true
        else false
  end.

Definition score_stopwords : list string :=
  ["the"; "a"; "an"; "and"; "or"; "in"; "at"; "by"; "for"; "of"; "to"; "is"].

Definition score_hotel_keywords : list string :=
  ["hotel"; "otel"; "resort"; "apart"; "pansiyon"; "villa"; "lodge"; "inn";
   "motel"; "pension"].

(** What one token of the name adds to [matches]. *)
Definition token_match (domain_name domain_name_clean token : string) : Q :=
  let token_clean := remove_digits token in
  if contains token domain_name || contains token_clean domain_name then 1%Q
  else if contains token_clean domain_name_clean then 1%Q
  else if (4 <=? String.length token_clean)%nat then
    if startswith (stake 4 token_clean) domain_name_clean
       || startswith (stake 4 domain_name_clean) token_clean
    then (1 # 2)%Q
    else 0%Q
  else 0%Q.

Definition Qsum (l : list Q) : Q := fold_right Qplus 0%Q l.

Definition Q_of_nat (n : nat) : Q := inject_Z (Z.of_nat n).

(** [calculate_score(hotel_name, found_url, title)]; [None] when
    [tldextract.extract] raises. *)
Definition calculate_score (E : env) (hotel_name found_url title : string) : option Q :=
  let all_tokens := dedup (split_ws (lower hotel_name)) in
  let name_tokens :=
    filter (fun t => (2 <? String.length t)%nat && negb (mem t score_stopwords))
           all_tokens in
  let name_tokens :=
    match name_tokens with
    | [] => all_tokens
    | _ => name_tokens
    end in
  match tldextract E found_url with
  | None => None
  | Some (d, _) =>
      let domain_name := lower d in
      let domain_name_clean := remove_digits domain_name in
      let matches := Qsum (map (token_match domain_name domain_name_clean) name_tokens) in
      let score :=
        match name_tokens with
        | [] => 0%Q
        | _ => (matches / Q_of_nat (List.length name_tokens) * 45)%Q
        end in
      let score :=
        if contains_any score_hotel_keywords domain_name then (score + 20)%Q else score in
      let score :=
        if nonempty title then
          let title_lower := lower title in
          if contains (lower hotel_name) title_lower then (score + 30)%Q
          else
            let matches_in_title :=
              List.length (filter (fun token => (3 <? String.length token)%nat
                                                && contains token title_lower)
                                  name_tokens) in
            if (0 <? matches_in_title)%nat
            then (score + Qmin (Q_of_nat matches_in_title * 10) 25)%Q
            else score
        else score in
      let score :=
        if (8 <? String.length domain_name)%nat then (score + 10)%Q
        else if (5 <? String.length domain_name)%nat then (score + 5)%Q
        else score in
      Some (Qmin score 100)
  end.

(** ** Search queries ([discovery.py]) *)

Definition query_stopwords : list string :=
  ["the"; "a"; "an"; "and"; "or"; "in"; "at"; "by"; "for"; "of"; "to";
   "special"; "class"; "boutique"; "luxury"; "deluxe"].

Definition query_type_words : list string :=
  ["hotel"; "otel"; "resort"; "spa"; "apart"; "pansiyon"; "motel";
   "pension"; "guest"; "house"; "hostel"; "lodge"; "inn"].

(** The double quote of the quoted queries. *)
Definition dquote : string := String (ascii_of_N 34) EmptyString.

(** The queries that one list of tokens contributes. *)
Definition queries_of (city location_hint : string) (suffix_tokens token_list : list string)
    : list string :=
  match token_list with
  | [] => []
  | _ =>
      let token_list :=
        if existsb (fun t => mem t query_type_words) token_list then token_list
        else token_list ++ ["hotel"] in
      let phrase := String.concat " " token_list in
      if (String.length phrase <? 3)%nat then []
      else
        [dquote +++ phrase +++ dquote +++ " " +++ city +++ " otel";
         phrase +++ " " +++ city +++ " otel"]
        ++ (if nonempty location_hint
            then [dquote +++ phrase +++ dquote +++ " " +++ location_hint +++ " otel";
                  phrase +++ " " +++ location_hint +++ " otel"]
            else [])
        ++ (match suffix_tokens with
            | [] => []
            | _ =>
                let phrase_with_suffix := String.concat " " (token_list ++ suffix_tokens) in
                if (3 <=? String.length phrase_with_suffix)%nat
                then [dquote +++ phrase_with_suffix +++ dquote +++ " " +++ city +++ " otel";
                      phrase_with_suffix +++ " " +++ city +++ " otel"]
                else []
            end)
  end.

Definition _build_progressive_queries (hotel_name city : string) : list string :=
  let parts := map strip (split_char "-"%char hotel_name) in
  let base := lower (nth 0 parts "") in
  let suffix := if (1 <? List.length parts)%nat then lower (nth 1 parts "") else "" in
  let tokens := filter nonempty (re_split_ws base) in
  let suffix_tokens :=
    if nonempty suffix then filter nonempty (re_split_ws suffix) else [] in
  let core_tokens :=
    filter (fun t => negb (mem t query_stopwords) && negb (mem t query_type_words))
           tokens in
  let core_tokens :=
    match core_tokens with
    | [] => filter (fun t => negb (mem t query_stopwords)) tokens
    | _ => core_tokens
    end in
  let start_len (l : list string) : nat := if (2 <=? List.length l)%nat then 2%nat else 1%nat in
  let progressive := prefixes_from (start_len core_tokens) core_tokens in
  let core_no_numbers := filter (fun t => negb (isdigit t)) core_tokens in
  let progressive :=
    if (0 <? List.length core_no_numbers)%nat
       && negb (tokens_eqb core_no_numbers core_tokens)
    then progressive ++ prefixes_from (start_len core_no_numbers) core_no_numbers
    else progressive in
  let progressive :=
    match tokens with
    | [] => progressive
    | _ => progressive ++ [tokens]
    end in
  let location_hint := String.concat " " suffix_tokens in
  dedup (flat_map (queries_of city location_hint suffix_tokens) progressive).

(** ** DNS pre-check ([dns_check.py]) *)

(** The host that the DNS check takes from a URL. *)
Definition bare_domain (url : string) : string :=
  let domain := replace "https://" "" (replace "http://" "" url) in
  nth 0 (split_char "/"%char (replace "www." "" domain)) "".

Definition check_domain_exists (E : env) (now : Q) (db : cache_db) (domain : string)
    : bool * cache_db :=
  match get_dns_cache now db domain with
  | Some cached => (cached, db)
  | None =>
      let domain := bare_domain domain in
      match gethostbyname E domain with
      | Resolved => (true, set_dns_cache now db domain true)
      | NoSuchHost => (false, set_dns_cache now db domain false)
      | TimedOut => (false, db)
      | DnsError => (false, db)
      end
  end.

(** ** The state that [find_website] works on *)

(** The number of external events so far, the cache database and the
    breaker of the search service. *)
Record world : Type := {
  tick : nat;
  db : cache_db;
  ddg : CircuitBreaker
}.

(** [batch_check_domains]: every domain is checked once; the checks of the
    worker threads are taken in the order of the list. *)
Fixpoint check_domains (E : env) (domains : list string) (w : world)
    : list string * world :=
  match domains with
  | [] => ([], w)
  | d :: ds =>
      let '(ok, db') := check_domain_exists E (clock E (tick w)) (db w) d in
      let w' := {| tick := S (tick w); db := db'; ddg := ddg w |} in
      let '(existing, w'') := check_domains E ds w' in
      (if ok then d :: existing else existing, w'')
  end.

Definition filter_existing_domains (E : env) (url_list : list string) (w : world)
    : list string * world :=
  let domains := dedup (map bare_domain url_list) in
  let '(existing_domains, w') := check_domains E domains w in
  (flat_map (fun d => if mem d existing_domains
                      then filter (fun u => String.eqb (bare_domain u) d) url_list
                      else []) domains,
   w').

(** A call of [validate_hotel_content] in the current world. *)
Definition validate_in (E : env) (w : world) (url : string) (hotel_name city : option string)
    : verdict * world :=
  let '(v, db') :=
    validate_hotel_content E (clock E (tick w)) (clock E (S (tick w)))
      (requests_get E (tick w) url) (db w) url hotel_name city in
  (v, {| tick := S (S (tick w)); db := db'; ddg := ddg w |}).

(** [search_ddg_html] under [@retry(stop=stop_after_attempt(3))]: an open
    circuit answers the empty page, a failed attempt is tried again, and
    the third failure is raised. *)
Fixpoint search_attempts (n : nat) (E : env) (query : string) (w : world)
    : outcome string * world :=
  match n with
  | O => (Raised "RetryError", w)
  | S k =>
      let '(res, cb) :=
        call (clock E (tick w)) (clock E (S (tick w)))
             (requests_post E (tick w) query) (ddg w) in
      let w' := {| tick := S (S (tick w)); db := db w; ddg := cb |} in
      match res with
      | CallOk html => (Returned html, w')
      | CircuitOpenError => (Returned "", w')
      | CallFailed _ => search_attempts k E query w'
      end
  end.

Definition search_ddg_html (E : env) (query : string) (w : world) : outcome string * world :=
  search_attempts 3 E query w.

(** ** Discovery engine ([discovery.py]) *)

(** The values of the dict that [find_website] returns. *)
Inductive pyval : Type :=
| PyNone
| PyStr (s : string)
| PyFloat (q : Q).

Definition pydict : Type := list (string * pyval).

(** A [for] loop whose body may [return]. *)
Inductive flow (S R : Type) : Type :=
| Go (s : S)
| Stop (r : R).
Arguments Go {S R} s.
Arguments Stop {S R} r.

Fixpoint for_each {A S R : Type} (body : A -> S -> flow S R) (l : list A) (s : S)
    : flow S R :=
  match l with
  | [] => Go s
  | x :: l' =>
      match body x s with
      | Go s' => for_each body l' s'
      | Stop r => Stop r
      end
  end.

Definition Zmem (x : Z) (l : list Z) : bool := existsb (Z.eqb x) l.

Definition half (conf : Z) : Q := (inject_Z conf / 2)%Q.

(** *** Strategy 1: domain guessing *)

Record guess_state : Type := {
  domain_any_checked : bool;
  domain_any_relevant : bool;
  domain_any_valid : bool;
  best_result : option pydict;
  best_score : Q;
  guess_world : world
}.

Definition domain_quality (domain hotel_name : string) : Q :=
  let q := 0%Q in
  let q := if contains "resort" (lower domain) && contains "resort" (lower hotel_name)
           then (q + 10)%Q else q in
  let q := if contains "otel" (lower domain)
              && contains "otel" (replace "İ" "i" (replace "ı" "i" (lower hotel_name)))
           then (q + 15)%Q else q in
  let q := if existsb (fun kw => contains kw (lower domain))
                      (filter (fun kw => contains kw (lower hotel_name))
                              ["spa"; "beach"; "villa"])
           then (q + 8)%Q else q in
  q.

(** The body of [for domain in url_variants]. *)
Definition guess_body (E : env) (hotel_name city : string) (domain : string)
    (s : guess_state) : flow guess_state (option pydict * world) :=
  let w := guess_world s in
  let w1 := {| tick := S (tick w); db := db w; ddg := ddg w |} in
  let checked (relevant : bool) (w' : world) : guess_state :=
    {| domain_any_checked := true;
       domain_any_relevant := relevant || domain_any_relevant s;
       domain_any_valid := domain_any_valid s;
       best_result := best_result s; best_score := best_score s;
       guess_world := w' |} in
  match requests_head E (tick w) domain with
  | None => Go (checked false w1)
  | Some (status, location) =>
      if Zmem status [200; 301; 302; 303; 307; 308]%Z then
        let final_url :=
          if Zmem status [301; 302; 303; 307; 308]%Z
          then match location with Some l => l | None => domain end
          else domain in
        if negb (_is_relevant_domain E hotel_name final_url) then Go (checked false w1)
        else
          let '(validation, w2) := validate_in E w1 final_url (Some hotel_name) (Some city) in
          if is_hotel validation then
            match calculate_score E hotel_name final_url hotel_name with
            | None => Go (checked true w2)
            | Some score =>
                let score := Qmin (score + half (confidence validation)) 100 in
                let score := Qmin (score + domain_quality domain hotel_name) 100 in
                let better := Qltb (best_score s) score in
                let s' :=
                  {| domain_any_checked := true;
                     domain_any_relevant := true;
                     domain_any_valid := true;
                     best_result :=
                       if better
                       then Some [("url", PyStr final_url); ("score", PyFloat score);
                                  ("source", PyStr "domain_guess")]
                       else best_result s;
                     best_score := if better then score else best_score s;
                     guess_world := w2 |} in
                if Qgeb score 85 then Stop (best_result s', w2) else Go s'
            end
          else Go (checked true w2)
      else Go (checked false w1)
  end.

(** Strategy 1 as a whole: it returns, or it leaves a reason and the world. *)
Definition guess_strategy (E : env) (hotel_name city : string) (parts : name_parts)
    (w : world) : flow (option string * world) (option pydict * world) :=
  if (String.length (clean_name parts) <? 3)%nat then Go (None, w)
  else
    let variants := prioritize (domain_variants_before_priority parts) in
    let '(urls, w1) := filter_existing_domains E (url_variants variants) w in
    let s0 := {| domain_any_checked := false; domain_any_relevant := false;
                 domain_any_valid := false; best_result := None; best_score := 0%Q;
                 guess_world := w1 |} in
    match for_each (guess_body E hotel_name city) urls s0 with
    | Stop r => Stop r
    | Go s =>
        let reason :=
          if domain_any_checked s && negb (domain_any_valid s) then
            if domain_any_relevant s then Some "domain_not_hotel"
            else Some "domain_not_relevant"
          else None in
        match best_result s with
        | Some d => Stop (Some d, guess_world s)
        | None => Go (reason, guess_world s)
        end
    end.

(** *** Strategy 2: search *)

(** The loop over the first fifty anchors of a result page; [None] when
    [calculate_score] raises. *)
Fixpoint build_candidates (E : env) (hotel_name : string) (links : list (string * string))
    : option (list (string * Q)) :=
  match links with
  | [] => Some []
  | (href, text) :: rest =>
      let title := stake 100 text in
      let skip := build_candidates E hotel_name rest in
      if is_empty href || startswith "/" href || contains "duckduckgo" href then skip
      else if negb (startswith "http" href) then skip
      else
        let decoded :=
          if contains "uddg=" href then
            match query_param E "uddg" href with
            | None => None
            | Some None => Some href
            | Some (Some v) => Some v
            end
          else if contains "r=" href then
            match query_param E "r" href with
            | None => None
            | Some None => Some href
            | Some (Some v) => Some v
            end
          else Some href in
        match decoded with
        | None => skip
        | Some href =>
            if negb (startswith "http" href) then skip
            else
              match tldextract E href with
              | None => skip
              | Some (d, suffix) =>
                  if mem d BLACKLIST_DOMAINS || mem (d +++ "." +++ suffix) BLACKLIST_DOMAINS
                  then skip
                  else
                    match calculate_score E hotel_name href title with
                    | None => None
                    | Some score =>
                        match skip with
                        | None => None
                        | Some cands =>
                            if Qltb 10 score then Some ((href, score) :: cands)
                            else Some cands
                        end
                    end
              end
        end
  end.

(** [candidates.sort(key=lambda x: x['score'], reverse=True)] *)
Fixpoint insert_by_score (x : string * Q) (l : list (string * Q)) : list (string * Q) :=
  match l with
  | [] => [x]
  | y :: l' =>
      if Qltb (snd x) (snd y) then y :: insert_by_score x l'
      else x :: y :: l'
  end.

Definition sort_by_score_desc (l : list (string * Q)) : list (string * Q) :=
  fold_right insert_by_score [] l.

Record search_state : Type := {
  ddg_any_candidates : bool;
  ddg_any_relevant : bool;
  search_world : world
}.

(** How Strategy 2 ends: with a result, or (at the end of the queries or
    at an exception) with its flags. *)
Inductive search_exit : Type :=
| SearchFound (d : pydict) (w : world)
| SearchRaised (s : search_state).

(** The body of [for candidate in candidates]. *)
Definition candidate_body (E : env) (hotel_name city : string) (candidate : string * Q)
    (s : search_state) : flow search_state search_exit :=
  let '(url, score) := candidate in
  if negb (_is_relevant_domain E hotel_name url) then Go s
  else
    let '(validation, w') :=
      validate_in E (search_world s) url (Some hotel_name) (Some city) in
    if is_hotel validation then
      let final_score := Qmin (score + half (confidence validation)) 100 in
      Stop (SearchFound [("url", PyStr url); ("score", PyFloat final_score);
                         ("source", PyStr "ddg_search")] w')
    else Go {| ddg_any_candidates := ddg_any_candidates s;
               ddg_any_relevant := true; search_world := w' |}.

(** The body of [for search_query in search_queries]. *)
Definition query_body (E : env) (hotel_name city : string) (search_query : string)
    (s : search_state) : flow search_state search_exit :=
  let '(res, w1) := search_ddg_html E search_query (search_world s) in
  let s1 := {| ddg_any_candidates := ddg_any_candidates s;
               ddg_any_relevant := ddg_any_relevant s; search_world := w1 |} in
  match res with
  | Raised _ => Stop (SearchRaised s1)
  | Returned html =>
      match search_links E html with
      | None => Stop (SearchRaised s1)
      | Some links =>
          match build_candidates E hotel_name (firstn 50 links) with
          | None => Stop (SearchRaised s1)
          | Some [] => Go s1
          | Some candidates =>
              let s2 := {| ddg_any_candidates := true;
                           ddg_any_relevant := ddg_any_relevant s; search_world := w1 |} in
              for_each (candidate_body E hotel_name city)
                       (sort_by_score_desc candidates) s2
          end
      end
  end.

Definition search_strategy (E : env) (hotel_name city : string) (w : world) : search_exit :=
  let search_queries :=
    match state (ddg w) with
    | OPEN => []
    | _ => _build_progressive_queries hotel_name city
    end in
  let s0 := {| ddg_any_candidates := false; ddg_any_relevant := false; search_world := w |} in
  match for_each (query_body E hotel_name city) search_queries s0 with
  | Go s => SearchRaised s
  | Stop r => r
  end.

(** *** Strategy 3: alternative top-level domains *)

Record alt_state : Type := {
  alt_any_checked : bool;
  alt_any_relevant : bool;
  alt_world : world
}.

(** The body of [for tld in alternative_tlds]. *)
Definition alt_body (E : env) (hotel_name city alt_name : string) (tld : string)
    (s : alt_state) : flow alt_state (option pydict * world) :=
  let domain := "http://" +++ alt_name +++ tld in
  let w := alt_world s in
  let w1 := {| tick := S (tick w); db := db w; ddg := ddg w |} in
  let checked (relevant : bool) (w' : world) : alt_state :=
    {| alt_any_checked := true; alt_any_relevant := relevant || alt_any_relevant s;
       alt_world := w' |} in
  match requests_head E (tick w) domain with
  | None => Go (checked false w1)
  | Some (status, location) =>
      if Zmem status [200; 301; 302; 307; 308]%Z then
        let final_url :=
          if negb (status =? 200)%Z
          then match location with Some l => l | None => domain end
          else domain in
        if negb (_is_relevant_domain E hotel_name final_url) then Go (checked false w1)
        else
          let '(validation, w2) := validate_in E w1 final_url (Some hotel_name) (Some city) in
          if is_hotel validation then
            match calculate_score E hotel_name final_url hotel_name with
            | None => Go (checked true w2)
            | Some score =>
                let score := Qmin (score + half (confidence validation)) 100 in
                Stop (Some [("url", PyStr final_url); ("score", PyFloat score);
                            ("source", PyStr "alternative_tld")], w2)
            end
          else Go (checked true w2)
      else Go (checked false w1)
  end.

Definition alternative_tlds : list string := [".biz"; ".info"; ".mobi"].

Definition alt_strategy (E : env) (hotel_name city clean_name : string) (w : world)
    : flow alt_state (option pydict * world) :=
  let s0 := {| alt_any_checked := false; alt_any_relevant := false; alt_world := w |} in
  let alt_name := strip clean_name in
  if (String.length alt_name <? 2)%nat then Go s0
  else for_each (alt_body E hotel_name city alt_name) alternative_tlds s0.

(** *** [find_website(hotel_name, city)] *)

Definition find_website (E : env) (w : world) (hotel_name city : option string)
    : option pydict * world :=
  let hotel_name := strip (or_empty hotel_name) in
  let city := lower (strip (or_empty city)) in
  if is_empty hotel_name then (None, w)
  else
    let parts := clean_hotel_name hotel_name in
    match guess_strategy E hotel_name city parts w with
    | Stop r => r
    | Go (reason, w1) =>
        match search_strategy E hotel_name city w1 with
        | SearchFound d w2 => (Some d, w2)
        | SearchRaised s =>
            let ddg_any_valid := false in
            let reason :=
              match reason with
              | Some r => Some r
              | None =>
                  if ddg_any_candidates s && negb ddg_any_valid then
                    if ddg_any_relevant s then Some "ddg_no_valid"
                    else Some "ddg_not_relevant"
                  else if negb (ddg_any_candidates s) then Some "ddg_no_candidates"
                  else None
              end in
            match alt_strategy E hotel_name city (clean_name parts) (search_world s) with
            | Stop r => r
            | Go a =>
                let alt_any_valid := false in
                let reason :=
                  match reason with
                  | Some r => Some r
                  | None =>
                      if alt_any_checked a && negb alt_any_valid then
                        if alt_any_relevant a then Some "alternative_not_hotel"
                        else Some "alternative_not_relevant"
                      else None
                  end in
                (Some [("url", PyNone);
                       ("reason", PyStr match reason with Some r => r | None => "no_match" end)],
                 alt_world a)
            end
        end
    end.

(** ** The shapes of a discovery result *)

Definition ReasonCode : list string :=
  ["domain_not_relevant"; "domain_not_hotel"; "ddg_not_relevant"; "ddg_no_candidates";
   "ddg_no_valid"; "alternative_not_relevant"; "alternative_not_hotel"; "no_match"].

Definition Sources : list string := ["domain_guess"; "ddg_search"; "alternative_tld"].

(** [d.get(key)] *)
Fixpoint py_get (key : string) (d : pydict) : option pyval :=
  match d with
  | [] => None
  | (k, v) :: d' => if String.eqb key k then Some v else py_get key d'
  end.

(** [{url, score, source}] with a URL, a score in [0, 100] and a known source. *)
Definition is_found (d : pydict) : Prop :=
  exists url score source,
    d = [("url", PyStr url); ("score", PyFloat score); ("source", PyStr source)]
    /\ (0 <= score)%Q /\ (score <= 100)%Q /\ In source Sources.

(** [{url: None, reason}] with a reason of the closed set. *)
Definition is_not_found (d : pydict) : Prop :=
  exists reason,
    d = [("url", PyNone); ("reason", PyStr reason)] /\ In reason ReasonCode.

(** The verdicts that the cache may hold: a confidence in [0, 100]. *)
Definition cache_sound (db : cache_db) : Prop :=
  forall k row, validation_cache db !! k = Some row ->
    (0 <= row_confidence row <= 100)%Z.

(** A strategy returns a found result and leaves a sound cache. *)
Definition found_in (r : option pydict * world) : Prop :=
  exists d, fst r = Some d /\ is_found d /\ cache_sound (db (snd r)).

(** The invariant of the loop of Strategy 1. *)
Definition guess_inv (s : guess_state) : Prop :=
  cache_sound (db (guess_world s))
  /\ (0 <= best_score s)%Q
  /\ match best_result s with
     | Some d => is_found d
     | None => best_score s = 0%Q
     end.

(** A reason, when there is one, is of the closed set. *)
Definition reason_ok (reason : option string) : Prop :=
  match reason with
  | Some r => In r ReasonCode
  | None => True
  end.

(** How Strategy 2 may end. *)
Definition search_exit_ok (x : search_exit) : Prop :=
  match x with
  | SearchFound d w => is_found d /\ cache_sound (db w)
  | SearchRaised s => cache_sound (db (search_world s))
  end.

(** ** A model of [urllib.parse]

    [urlsplit(url).netloc] as CPython computes it, without the removal of
    control characters and the checks of bracketed hosts: the scheme is
    the run of scheme characters before the first colon, the network
    location follows [//] and ends at the first of [/], [?] and [#], and
    a lone square bracket in it raises [ValueError]. *)

Definition scheme_char (c : ascii) : bool :=
  is_alnum c || Ascii.eqb c "+"%char || Ascii.eqb c "-"%char || Ascii.eqb c "."%char.

Fixpoint after_colon (s : string) : option string :=
  match s with
  | EmptyString => None
  | String c s' =>
      if Ascii.eqb c ":"%char then Some s'
      else if scheme_char c then after_colon s'
      else None
  end.

Definition after_scheme (u : string) : string :=
  match u with
  | EmptyString => u
  | String c _ =>
      if is_alpha c then
        match after_colon u with
        | Some rest => rest
        | None => u
        end
      else u
  end.

Fixpoint take_until (p : ascii -> bool) (s : string) : string :=
  match s with
  | EmptyString => EmptyString
  | String c s' => if p c then EmptyString else String c (take_until p s')
  end.

Definition netloc_end (c : ascii) : bool :=
  Ascii.eqb c "/"%char || Ascii.eqb c "?"%char || Ascii.eqb c "#"%char.

Definition py_netloc (u : string) : option string :=
  let rest := after_scheme u in
  if startswith "//" rest then
    let netloc := take_until netloc_end (sdrop 2 rest) in
    if xorb (contains "[" netloc) (contains "]" netloc) then None else Some netloc
  else Some "".

(** [urljoin(base, href)] for the two forms of the examples: a path from
    the root is put after the origin of [base], anything else is taken as
    an absolute URL. *)
Definition py_urljoin (base href : string) : option string :=
  if startswith "/" href then
    match py_netloc base with
    | Some netloc => Some ("http://" +++ netloc +++ href)
    | None => None
    end
  else Some href.

(** ** Example environments *)

Definition html_response (doc : document) : outcome response :=
  Returned {| resp_status := 200; resp_content_type := "text/html; charset=utf-8";
              resp_text := ""; soup := Returned doc |}.

(** A small site: the front page links to a contact page, to a page of
    another host and to a document; the contact page shows an address. *)
Definition example_site (n : nat) (url : string) : outcome response :=
  if String.eqb url "http://hotel.com/" then
    html_response {| doc_title := Some "Hotel";
                     doc_emails := ["Owner@Gmail.com"];
                     doc_hrefs := ["/rooms#top"; "mailto:a@b.com"; "http://other.com/";
                                   "/contact"; "/brochure.pdf"] |}
  else if String.eqb url "http://hotel.com/contact" then
    html_response {| doc_title := Some "Contact";
                     doc_emails := [" Info@Hotel.com"; "logo@2x.png"];
                     doc_hrefs := ["/"] |}
  else Raised "ConnectionError".

Definition example_env : env :=
  {| clock := fun n => inject_Z (Z.of_nat n);
     requests_get := example_site;
     requests_head := fun _ _ => None;
     requests_post := fun _ _ => Raised "ConnectionError";
     gethostbyname := fun _ => NoSuchHost;
     urlparse_netloc := py_netloc;
     urljoin := py_urljoin;
     tldextract := fun _ => None;
     query_param := fun _ _ => None;
     search_links := fun _ => None |}.

Definition example_world : world := {| tick := 0; db := empty_db; ddg := ddg_circuit |}.

(* ===================================================================== *)

(** [tldextract.extract(url)] for hosts with a one-label suffix: the
    registered name is the label before the last one. *)
Definition py_tldextract (url : string) : option (string * string) :=
  match rev (split_char "."%char (bare_domain url)) with
  | suffix :: d :: _ => Some (d, suffix)
  | d :: _ => Some (d, "")
  | [] => None
  end.

(** A world in which only [alexiaresort.com] resolves; its front page
    names the city. *)
Definition resort_env : env :=
  {| clock := fun n => inject_Z (Z.of_nat n);
     requests_get := fun _ _ =>
       Returned {| resp_status := 200; resp_content_type := "text/html";
                   resp_text := "Alexia Resort & Spa - Antalya";
                   soup := Returned {| doc_title := Some "Alexia Resort";
                                       doc_emails := []; doc_hrefs := [] |} |};
     requests_head := fun _ _ => Some (200%Z, None);
     requests_post := fun _ _ => Raised "ConnectionError";
     gethostbyname := fun d => if String.eqb d "alexiaresort.com" then Resolved
                               else NoSuchHost;
     urlparse_netloc := py_netloc;
     urljoin := py_urljoin;
     tldextract := py_tldextract;
     query_param := fun _ _ => None;
     search_links := fun _ => None |}.

(** ** Cache maintenance ([cache.py]) *)

(** The primary key under which a namespace files a key. *)
Definition cache_key (md5 : string -> string) (ns : namespace) (k : string) : string :=
  match ns with
  | NsSearch => md5 (lower k)
  | _ => lower k
  end.

(** [DELETE FROM t WHERE checked_at < cutoff] *)
Definition delete_before {A : Type} (at_ : A -> Q) (cutoff : Q) (t : gmap string A)
    : gmap string A :=
  base.filter (fun kv => Qltb (at_ (snd kv)) cutoff = false) t.

(** [clear_expired_cache()]; [t1] and [t2] are the two readings of the
    clock. *)
Definition clear_expired_cache (t1 t2 : Q) (db : cache_db) : cache_db :=
  let cutoff := (t1 - CACHE_TTL_SECONDS)%Q in
  let search_cutoff := (t2 - 24 * 60 * 60)%Q in
  {| dns_cache := delete_before dns_checked_at cutoff (dns_cache db);
     domain_cache := delete_before domain_checked_at cutoff (domain_cache db);
     validation_cache := delete_before row_checked_at cutoff (validation_cache db);
     search_cache := delete_before searched_at search_cutoff (search_cache db) |}.

(** The number of rows of the table of a namespace. *)
Definition rows (db : cache_db) (ns : namespace) : nat :=
  match ns with
  | NsDns => size (dns_cache db)
  | NsDomain => size (domain_cache db)
  | NsValidation => size (validation_cache db)
  | NsSearch => size (search_cache db)
  end.

(** [get_cache_stats()]: the number of rows of each table, in the order of
    the keys of the dict. *)
Definition get_cache_stats (db : cache_db) : list (string * nat) :=
  [("dns_cache", rows db NsDns);
   ("domain_cache", rows db NsDomain);
   ("validation_cache", rows db NsValidation);
   ("search_cache", rows db NsSearch)].

(** A row of the namespace is filed under the primary key. *)
Definition has_row (db : cache_db) (ns : namespace) (key : string) : bool :=
  match ns with
  | NsDns => bool_decide (is_Some (dns_cache db !! key))
  | NsDomain => bool_decide (is_Some (domain_cache db !! key))
  | NsValidation => bool_decide (is_Some (validation_cache db !! key))
  | NsSearch => bool_decide (is_Some (search_cache db !! key))
  end.

(** ** DNS statistics ([dns_check.py]) *)

(** The dict that [get_dns_stats] returns. *)
Record dns_stats : Type := {
  total : Z;
  existing : Z;
  not_found : Z;
  success_rate : Q
}.

(** [get_dns_stats(domains)] *)
Definition get_dns_stats (E : env) (domains : list string) (w : world) : dns_stats * world :=
  let '(found, w') := check_domains E domains w in
  let existing := Z.of_nat (List.length found) in
  let total := Z.of_nat (List.length domains) in
  ({| total := total;
      existing := existing;
      not_found := (total - existing)%Z;
      success_rate :=
        match domains with
        | [] => 0%Q
        | _ => (inject_Z existing / inject_Z total * 100)%Q
        end |},
   w').

(** ** Invariants of the crawler, the validator and the normalizer *)

(** The scores kept in [found_emails]: the score of the address on the
    host, with or without the bonus of a priority page. *)
Definition scored (domain : string) (found : list (string * Z)) : Prop :=
  Forall (fun p => (score_email (fst p) domain <= snd p
                    <= score_email (fst p) domain + 15)%Z) found.

(** The flag and the confidence of every cached verdict agree. *)
Definition cache_consistent (db : cache_db) : Prop :=
  forall k row, validation_cache db !! k = Some row ->
    bool_of_int (row_is_hotel row) = (50 <=? row_confidence row)%Z.

(** White space is normalised: the only white space is the blank, and no
    blank follows a blank ([after_blank] tells that one came just
    before). *)
Fixpoint single_spaced_from (after_blank : bool) (s : string) : bool :=
  match s with
  | EmptyString => true
  | String c s' =>
      if is_space c
      then Ascii.eqb c " "%char && negb after_blank && single_spaced_from true s'
      else single_spaced_from false s'
  end.

Definition single_spaced (s : string) : bool := single_spaced_from false s.

(** ** What a result of [find_website] has gone through *)

(** The reasons that [find_website] can in fact give: after the search
    the reason is always set. *)
Definition GivenReasons : list string :=
  ["domain_not_relevant"; "domain_not_hotel"; "ddg_not_relevant"; "ddg_no_candidates";
   "ddg_no_valid"].

(** The link is of a domain outside [BLACKLIST_DOMAINS]. *)
Definition off_blacklist (E : env) (url : string) : Prop :=
  exists d suffix,
    tldextract E url = Some (d, suffix)
    /\ mem d BLACKLIST_DOMAINS = false
    /\ mem (d +++ "." +++ suffix) BLACKLIST_DOMAINS = false.

(** A found result whose URL has passed the relevance filter and the
    content validator, and the blacklist when it comes from the search. *)
Definition vetted (E : env) (hotel_name city : string) (d : pydict) : Prop :=
  exists url score source,
    d = [("url", PyStr url); ("score", PyFloat score); ("source", PyStr source)]
    /\ In source Sources
    /\ _is_relevant_domain E hotel_name url = true
    /\ (exists w, is_hotel (fst (validate_in E w url (Some hotel_name) (Some city))) = true)
    /\ (source = "ddg_search" -> off_blacklist E url).

(** The invariant of the loop of Strategy 1 for [vetted]. *)
Definition guess_vetted (E : env) (hotel_name city : string) (s : guess_state) : Prop :=
  match best_result s with
  | Some d => vetted E hotel_name city d
  | None => best_score s = 0%Q
  end.

Definition search_vetted (E : env) (hotel_name city : string) (x : search_exit) : Prop :=
  match x with
  | SearchFound d _ => vetted E hotel_name city d
  | SearchRaised _ => True
  end.

Definition returns_vetted (E : env) (hotel_name city : string) (r : option pydict * world)
    : Prop :=
  exists d, fst r = Some d /\ vetted E hotel_name city d.

(** ** The tasks ([main.py])

    The parts of [run_discovery_task] and [run_email_task] that call the
    services and write the result to the row of the facility.  The
    sessions, the log rows, the pauses and the thread pool are left out. *)

Module Main.

(** The columns of [Facility] that the tasks read and write. *)
Record Facility : Type := {
  name : option string;
  sehir : option string;
  website : pyval;
  website_source : pyval;
  website_score : pyval;
  website_status : string;
  email : option string;
  email_source : option string;
  email_status : string
}.

(** The counters of [Job]. *)
Record Job : Type := {
  processed_items : Z;
  error_count : Z
}.

(** The level of the log row that closes the processing of a facility. *)
Inductive level : Type := SUCCESS | WARNING.

(** What [process_facility] does to the row: it writes it and logs at a
    level, or an exception takes it to the handler. *)
Inductive processed : Type :=
| Done (f : Facility) (l : level)
| Failed (exn : string).

(** The truth value of a value of a result dict. *)
Definition py_truthy (v : pyval) : bool :=
  match v with
  | PyNone => false
  | PyStr s => nonempty s
  | PyFloat q => negb (Qeq_bool q 0)
  end.

(** The part of [process_facility] after the call of [find_website]:
    [result['score']] raises [KeyError] when the key is missing, and the
    format [:.0f] of the log message raises when the score is no number. *)
Definition record_website (result : option pydict) (f : Facility) : processed :=
  let not_found :=
    Done {| name := name f; sehir := sehir f;
            website := website f; website_source := website_source f;
            website_score := website_score f;
            website_status := "not_found";
            email := email f; email_source := email_source f;
            email_status := email_status f |}
         WARNING in
  match result with
  | None => not_found
  | Some d =>
      match py_get "url" d with
      | None => not_found
      | Some url =>
          if py_truthy url then
            match py_get "score" d with
            | None => Failed "KeyError"
            | Some (PyFloat score) =>
                Done {| name := name f; sehir := sehir f;
                        website := url;
                        website_source :=
                          match py_get "source" d with
                          | Some source => source
                          | None => PyStr "unknown"
                          end;
                        website_score := PyFloat score;
                        website_status := "found";
                        email := email f; email_source := email_source f;
                        email_status := email_status f |}
                     SUCCESS
            | Some (PyStr _) => Failed "ValueError"
            | Some PyNone => Failed "TypeError"
            end
          else not_found
      end
  end.

(** [process_facility] for the row [f]. *)
Definition process_facility (E : env) (w : world) (f : Facility) : processed * world :=
  let '(result, w') := find_website E w (name f) (sehir f) in
  (record_website result f, w').

(** One turn of the loop of [run_email_task] for the row [f], after the
    test of cancellation. *)
Definition email_step (E : env) (max_pages : Z) (f : Facility) (job : Job)
    : Facility * Job :=
  let counted := {| processed_items := processed_items job + 1;
                    error_count := error_count job |} in
  let failed := {| processed_items := processed_items job;
                   error_count := error_count job + 1 |} in
  let not_found := {| name := name f; sehir := sehir f;
                      website := website f; website_source := website_source f;
                      website_score := website_score f;
                      website_status := website_status f;
                      email := email f; email_source := email_source f;
                      email_status := "not_found" |} in
  if negb (py_truthy (website f)) then (f, counted)
  else
    match website f with
    | PyStr url =>
        match crawl_for_email E url max_pages with
        | CrawlReturn (Some address) =>
            if nonempty address then
              ({| name := name f; sehir := sehir f;
                  website := website f; website_source := website_source f;
                  website_score := website_score f;
                  website_status := website_status f;
                  email := Some address; email_source := Some "scrape";
                  email_status := "found" |}, counted)
            else (not_found, counted)
        | CrawlReturn None => (not_found, counted)
        | CrawlRaise _ => (f, failed)
        end
    | _ => (f, failed)
    end.

End Main.

(** ** An example of the search *)

(** A world without DNS in which the search answers two links: one of a
    booking site and one of the hotel. *)
Definition search_env : env :=
  {| clock := fun n => inject_Z (Z.of_nat n);
     requests_get := requests_get resort_env;
     requests_head := fun _ _ => None;
     requests_post := fun _ _ => Returned "<html>";
     gethostbyname := fun _ => NoSuchHost;
     urlparse_netloc := py_netloc;
     urljoin := py_urljoin;
     tldextract := py_tldextract;
     query_param := fun _ _ => Some None;
     search_links := fun _ =>
       Some [("https://www.booking.com/hotel/alexia", "Alexia Resort - Booking.com");
             ("http://www.alexiaresort.com/", "Alexia Resort & Spa Hotel")] |}.

(** * Part II. Properties                                                 *)
(* ===================================================================== *)

(** ** Rationals *)

Lemma Qltb_lt (a b : Q) : Qltb a b = true <-> (a < b)%Q.
Proof.
  unfold Qltb. rewrite negb_true_iff.
  split; intros H.
  - apply Qnot_le_lt. intros Hle. apply Qle_bool_iff in Hle. congruence.
  - destruct (Qle_bool b a) eqn:Hb; [|reflexivity].
    apply Qle_bool_iff in Hb. exfalso. apply (Qlt_not_le _ _ H). exact Hb.
Qed.

Lemma Qltb_ge (a b : Q) : Qltb a b = false <-> (b <= a)%Q.
Proof.
  unfold Qltb. rewrite negb_false_iff. apply Qle_bool_iff.
Qed.

Lemma Qgeb_ge (a b : Q) : Qgeb a b = true <-> (b <= a)%Q.
Proof. unfold Qgeb. apply Qle_bool_iff. Qed.

(** ** Circuit breaker *)

(** A refused request finds the breaker open and inside the recovery
    window. *)
Lemma refused_in_window now cb :
  fst (_should_allow_request now cb) = false ->
  state cb = OPEN /\ (now - last_failure_time cb < recovery_timeout (config cb))%Q.
Proof.
  unfold _should_allow_request.
  destruct (state cb); cbn; try discriminate.
  destruct (Qgeb _ _) eqn:Hge; cbn; [discriminate|].
  intros _. split; [reflexivity|].
  apply Qnot_le_lt. intros Hle. apply Qgeb_ge in Hle. congruence.
Qed.

(** The configuration of a breaker never changes. *)
Lemma cb_reachable_config n c cb : cb_reachable n c cb -> config cb = c /\ name cb = n.
Proof.
  induction 1 as [|cb e _ [IHc IHn]]; [split; reflexivity|].
  destruct e as [now| |now|]; cbn; try (split; assumption).
  - unfold _should_allow_request.
    destruct (state cb); cbn; try (split; assumption).
    destruct (Qgeb _ _); cbn; split; assumption.
  - unfold record_success. destruct (state cb); cbn; split; assumption.
Qed.

(** C4. In every reachable state of a breaker: when it is OPEN, a request
    made at a time [now] with [now - last_failure_time >= recovery_timeout]
    is allowed and moves the breaker to HALF_OPEN with the success count
    reset, so that a request is refused only inside the recovery window;
    when it is HALF_OPEN, one [record_failure] moves it back to OPEN and
    sets [last_failure_time] to the time of that failure. *)
Theorem breaker_probe_and_reopen n c cb :
  cb_reachable n c cb ->
  (state cb = OPEN ->
     forall now, (recovery_timeout c <= now - last_failure_time cb)%Q ->
       fst (_should_allow_request now cb) = true
       /\ state (snd (_should_allow_request now cb)) = HALF_OPEN
       /\ success_count (snd (_should_allow_request now cb)) = 0%Z)
  /\ (forall now, fst (_should_allow_request now cb) = false ->
        (now - last_failure_time cb < recovery_timeout c)%Q)
  /\ (state cb = HALF_OPEN ->
        forall now, state (record_failure now cb) = OPEN
                    /\ last_failure_time (record_failure now cb) = now).
Proof.
  intros Hreach. destruct (cb_reachable_config _ _ _ Hreach) as [Hc _].
  repeat split.
  - unfold _should_allow_request. rewrite H, Hc.
    apply Qgeb_ge in H0. now rewrite H0.
  - unfold _should_allow_request. rewrite H, Hc.
    apply Qgeb_ge in H0. now rewrite H0.
  - unfold _should_allow_request. rewrite H, Hc.
    apply Qgeb_ge in H0. now rewrite H0.
  - intros now Href. rewrite <- Hc. now apply refused_in_window.
  - unfold record_failure. cbn. now rewrite H.
Qed.

(** The search breaker after five failures in a row, the last one at
    time 100. *)
Lemma ddg_open_reachable :
  cb_reachable "duckduckgo" (config ddg_circuit)
    (fold_left cb_apply
       [EvFailure 96; EvFailure 97; EvFailure 98; EvFailure 99; EvFailure 100]%Q
       ddg_circuit).
Proof.
  cbn [fold_left]. repeat apply reach_step. apply reach_init.
Defined.

Lemma breaker_probe_and_reopen_witness :
  let cb := fold_left cb_apply
              [EvFailure 96; EvFailure 97; EvFailure 98; EvFailure 99; EvFailure 100]%Q
              ddg_circuit in
  state cb = OPEN
  /\ fst (_should_allow_request 160%Q cb) = true
  /\ state (snd (_should_allow_request 160%Q cb)) = HALF_OPEN
  /\ state (record_failure 161%Q (snd (_should_allow_request 160%Q cb))) = OPEN.
Proof.
  intros cb.
  destruct (breaker_probe_and_reopen _ _ cb ddg_open_reachable) as (Hopen & _ & _).
  assert (Hto : (recovery_timeout (config ddg_circuit) <= 160 - last_failure_time cb)%Q)
    by (vm_compute; discriminate).
  destruct (Hopen eq_refl 160%Q Hto) as (Ha & Hb & _).
  destruct (breaker_probe_and_reopen _ _ _
              (reach_step _ _ cb (EvAllow 160%Q) ddg_open_reachable)) as (_ & _ & Hhalf).
  exact (conj eq_refl (conj Ha (conj Hb (proj1 (Hhalf Hb 161%Q))))).
Defined.

(** ** Cache store *)

Lemma bool_of_int_of_bool (b : bool) : bool_of_int (int_of_bool b) = b.
Proof. now destruct b. Qed.

Lemma is_cache_valid_lt now checked_at ttl0 :
  is_cache_valid now checked_at ttl0 = true <-> (now - checked_at < ttl0)%Q.
Proof. unfold is_cache_valid. apply Qltb_lt. Qed.

Lemma is_cache_valid_ge now checked_at ttl0 :
  is_cache_valid now checked_at ttl0 = false <-> (ttl0 <= now - checked_at)%Q.
Proof. unfold is_cache_valid. apply Qltb_ge. Qed.

(** What a read finds right after a write of the same key, in terms of
    the freshness test alone. *)
Lemma cache_get_put md5 db k p t t' :
  cache_get md5 t' (cache_put md5 t db k p) (ns_of p) k
  = if is_cache_valid t' t (ttl (ns_of p)) then Some p else None.
Proof.
  destruct p as [b|st fu|v|res]; cbn.
  - unfold get_dns_cache, set_dns_cache; cbn. rewrite lookup_insert_eq; cbn.
    destruct (is_cache_valid _ _ _); cbn; [|reflexivity].
    now rewrite bool_of_int_of_bool.
  - unfold get_domain_cache, set_domain_cache; cbn. rewrite lookup_insert_eq; cbn.
    now destruct (is_cache_valid _ _ _).
  - unfold get_validation_cache, set_validation_cache; cbn.
    rewrite lookup_insert_eq; cbn.
    destruct (is_cache_valid _ _ _); cbn; [|reflexivity].
    rewrite bool_of_int_of_bool. now destruct v.
  - unfold get_search_cache, set_search_cache; cbn. rewrite lookup_insert_eq; cbn.
    now destruct (is_cache_valid _ _ _).
Qed.

(** C5 (amended). For every namespace, key [k] and payload [p]: after
    [put(ns, k, p)] at time [t], a [get(ns, k)] at a time [t'] with
    [t' - t < ttl(ns)] returns [p]; a [get(ns, k)] at a time [t'] with
    [t' - t >= ttl(ns)] returns [None]: the entry counts as absent and no
    payload is returned. *)
Theorem cache_put_get md5 db k p t t' :
  ((t' - t < ttl (ns_of p))%Q ->
     cache_get md5 t' (cache_put md5 t db k p) (ns_of p) k = Some p)
  /\ ((ttl (ns_of p) <= t' - t)%Q ->
        cache_get md5 t' (cache_put md5 t db k p) (ns_of p) k = None).
Proof.
  rewrite cache_get_put. split; intros H.
  - apply is_cache_valid_lt in H. now rewrite H.
  - apply is_cache_valid_ge in H. now rewrite H.
Qed.

Lemma cache_put_get_witness :
  let v := {| is_hotel := true; confidence := 80; indicators := ["✓ City matched: izmir"] |} in
  let db := cache_put (fun q => q) 10%Q empty_db "http://Hotel.com/" (PValidation v) in
  cache_get (fun q => q) 500%Q db NsValidation "http://hotel.COM/" = Some (PValidation v)
  /\ cache_get (fun q => q) 604810%Q db NsValidation "http://hotel.COM/" = None.
Proof.
  intros v db.
  assert (Hfresh : (500 - 10 < ttl NsValidation)%Q) by reflexivity.
  assert (Hstale : (ttl NsValidation <= 604810 - 10)%Q) by (vm_compute; discriminate).
  split.
  - exact (proj1 (cache_put_get (fun q => q) empty_db "http://hotel.COM/" (PValidation v)
                    10%Q 500%Q) Hfresh).
  - exact (proj2 (cache_put_get (fun q => q) empty_db "http://hotel.COM/" (PValidation v)
                    10%Q 604810%Q) Hstale).
Defined.

(** C5 as stated fails: seven days after the write the read of the DNS
    namespace returns [None], not the payload. *)
Lemma cache_stale_read_counterexample :
  let db := cache_put (fun q => q) 0%Q empty_db "hotel.com" (PDns true) in
  (ttl NsDns <= 604800 - 0)%Q
  /\ cache_get (fun q => q) 604800%Q db NsDns "hotel.com" = None
  /\ cache_get (fun q => q) 604800%Q db NsDns "hotel.com" <> Some (PDns true).
Proof.
  intros db. split; [vm_compute; discriminate|].
  assert (H : cache_get (fun q => q) 604800%Q db NsDns "hotel.com" = None)
    by (vm_compute; reflexivity).
  split; [exact H|]. rewrite H. discriminate.
Qed.

(** ** Python strings *)

Lemma lower_char_idem (c : ascii) : lower_char (lower_char c) = lower_char c.
Proof. destruct c as [[] [] [] [] [] [] [] []]; reflexivity. Qed.

Lemma is_space_lower_char (c : ascii) : is_space (lower_char c) = is_space c.
Proof. destruct c as [[] [] [] [] [] [] [] []]; reflexivity. Qed.

Lemma lower_idem (s : string) : lower (lower s) = lower s.
Proof.
  induction s as [|c s IH]; cbn; [reflexivity|].
  unfold lower in IH. now rewrite lower_char_idem, IH.
Qed.

Lemma is_empty_lower (s : string) : is_empty (lower s) = is_empty s.
Proof. now destruct s. Qed.

Lemma lstrip_lower (s : string) : lstrip (lower s) = lower (lstrip s).
Proof.
  induction s as [|c s IH]; cbn; [reflexivity|].
  rewrite is_space_lower_char. destruct (is_space c); [exact IH|reflexivity].
Qed.

Lemma rstrip_lower (s : string) : rstrip (lower s) = lower (rstrip s).
Proof.
  induction s as [|c s IH]; cbn; [reflexivity|].
  fold (lower s). rewrite IH, is_empty_lower, is_space_lower_char.
  now destruct (is_space c && is_empty (rstrip s)).
Qed.

Lemma strip_lower (s : string) : strip (lower s) = lower (strip s).
Proof. unfold strip. now rewrite rstrip_lower, lstrip_lower. Qed.

Lemma lstrip_idem (s : string) : lstrip (lstrip s) = lstrip s.
Proof.
  induction s as [|c s IH]; cbn; [reflexivity|].
  destruct (is_space c) eqn:Hc; [exact IH|]. cbn. now rewrite Hc.
Qed.

Lemma rstrip_idem (s : string) : rstrip (rstrip s) = rstrip s.
Proof.
  induction s as [|c s IH]; cbn; [reflexivity|].
  destruct (is_space c && is_empty (rstrip s)) eqn:Hc; cbn; [reflexivity|].
  now rewrite IH, Hc.
Qed.

Lemma rstrip_lstrip (s : string) : rstrip (lstrip s) = lstrip (rstrip s).
Proof.
  induction s as [|c s IH]; cbn; [reflexivity|].
  destruct (is_space c) eqn:Hc; cbn.
  - rewrite IH. destruct (is_empty (rstrip s)) eqn:He; cbn.
    + destruct (rstrip s); [reflexivity|discriminate].
    + now rewrite Hc.
  - now rewrite Hc.
Qed.

Lemma strip_idem (s : string) : strip (strip s) = strip s.
Proof.
  unfold strip. now rewrite rstrip_lstrip, rstrip_idem, lstrip_idem.
Qed.

(** The form in which the crawler keeps an address is a fixed point of
    the normalisation. *)
Lemma strip_lower_fixed (s : string) : strip (lower (strip (lower s))) = strip (lower s).
Proof. now rewrite <- strip_lower, lower_idem, strip_idem. Qed.

Lemma lower_strip_lower (s : string) : lower (strip (lower s)) = strip (lower s).
Proof. now rewrite <- strip_lower, lower_idem. Qed.

Lemma mem_In (x : string) (l : list string) : mem x l = true <-> In x l.
Proof.
  unfold mem. rewrite existsb_exists. split.
  - intros (y & Hy & Heq). apply String.eqb_eq in Heq. now subst.
  - intros H. exists x. split; [exact H|apply String.eqb_refl].
Qed.

(** ** E-mail crawler: the loop *)

Lemma crawl_loop_eq E d m st :
  crawl_loop E d m st =
  match queue st with
  | [] => (st, None)
  | url :: rest =>
      if (pages_crawled st <? m)%Z then
        match crawl_step E d url rest st with
        | (st', Some email) => (st', Some email)
        | (st', None) => crawl_loop E d m st'
        end
      else (st, None)
  end.
Proof.
  funelim (crawl_loop E d m st).
  - now rewrite e.
  - now rewrite Hq, e.
  - now rewrite Hq, Hlt, e.
  - now rewrite Hq, Hlt, Hstep.
Qed.

Lemma crawl_loop_fuel_sound n E d m st r :
  crawl_loop_fuel n E d m st = Some r -> crawl_loop E d m st = r.
Proof.
  revert st. induction n as [|n IH]; intros st; cbn; [discriminate|].
  rewrite crawl_loop_eq.
  destruct (queue st) as [|url rest]; [congruence|].
  destruct (pages_crawled st <? m)%Z; [|congruence].
  destruct (crawl_step E d url rest st) as [st' [e|]]; [congruence|].
  apply IH.
Qed.

(** The state in which the loop stops is one of the states that it
    passes through. *)
Lemma crawl_loop_reach E d m start st :
  crawl_reach E d m start st ->
  crawl_reach E d m start (fst (crawl_loop E d m st)).
Proof.
  funelim (crawl_loop E d m st); intros Hr; cbn; try exact Hr.
  - replace st' with (fst (crawl_step E domain url rest st)) by now rewrite e.
    apply reach_turn; [exact Hr|exact Hq|now apply Z.ltb_lt].
  - apply H.
    replace st' with (fst (crawl_step E domain url rest st)) by now rewrite Hstep.
    apply reach_turn; [exact Hr|exact Hq|now apply Z.ltb_lt].
Qed.

Lemma crawl_step_early E d url rest st st' e :
  crawl_step E d url rest st = (st', Some e) ->
  exists k, best_of (found_emails st') = Some (e, k) /\ (70 <= k)%Z.
Proof.
  unfold crawl_step.
  destruct (bool_decide _); [discriminate|].
  destruct (existsb _ _); [discriminate|].
  destruct (requests_get _ _ _) as [resp|]; [|discriminate].
  destruct (negb _); [discriminate|].
  destruct (soup resp) as [doc|]; [|discriminate].
  destruct (queue_links _ _ _ _ _ _) as [q ok].
  destruct ok; [|discriminate].
  destruct (best_of _) as [[be bs]|] eqn:Hbest; [|discriminate].
  destruct (70 <=? bs)%Z eqn:Hbs; [|discriminate].
  intros [= <- <-]. cbn. exists bs. split; [exact Hbest|now apply Z.leb_le].
Qed.

(** An early [return] hands out the best address found so far. *)
Lemma crawl_loop_early E d m st e :
  snd (crawl_loop E d m st) = Some e ->
  exists k, best_of (found_emails (fst (crawl_loop E d m st))) = Some (e, k).
Proof.
  funelim (crawl_loop E d m st); cbn; try discriminate.
  - intros [= ->]. destruct (crawl_step_early _ _ _ _ _ _ _ e) as (k & Hk & _).
    now exists k.
  - apply H.
Qed.

Lemma crawl_run_reach E start max st r :
  crawl_run E start max = Some (st, r) ->
  exists domain, urlparse_netloc E start = Some domain
                 /\ crawl_reach E domain max start st.
Proof.
  unfold crawl_run. destruct (urlparse_netloc E start) as [domain|]; [|discriminate].
  intros [= Heq]. exists domain. split; [reflexivity|].
  replace st with (fst (crawl_loop E domain max (initial_state start)))
    by now rewrite Heq.
  apply crawl_loop_reach, reach_start.
Qed.

(** What [crawl_for_email] returns is a key of [found_emails]. *)
Lemma crawl_for_email_found E start max e :
  crawl_for_email E start max = CrawlReturn (Some e) ->
  exists domain st,
    crawl_reach E domain max start st /\ In e (map fst (found_emails st)).
Proof.
  unfold crawl_for_email.
  destruct (crawl_run E start max) as [[st r]|] eqn:Hrun; [|discriminate].
  destruct (crawl_run_reach _ _ _ _ _ Hrun) as (domain & Hd & Hreach).
  assert (Hbest : forall d k x, best_of d = Some (x, k) -> In x (map fst d)).
  { induction d as [|[k0 v0] d IH]; cbn; [discriminate|]. intros k x.
    destruct (best_of d) as [[k' v']|].
    - destruct (v0 <? v')%Z; intros [= <- <-]; [right; eapply IH; reflexivity|now left].
    - intros [= <- <-]. now left. }
  intros Hret. exists domain, st. split; [exact Hreach|].
  destruct r as [e'|].
  - injection Hret as ->.
    unfold crawl_run in Hrun. rewrite Hd in Hrun. injection Hrun as Hrun.
    pose proof (crawl_loop_early E domain max (initial_state start) e) as He.
    rewrite Hrun in He. destruct (He eq_refl) as (k & Hk). eapply Hbest, Hk.
  - destruct (best_of (found_emails st)) as [[be bs]|] eqn:Hb; [|discriminate].
    injection Hret as ->. eapply Hbest, Hb.
Qed.

(** ** E-mail crawler: the addresses *)

Lemma dict_set_keys (P : string -> Prop) k v d :
  P k -> Forall P (map fst d) -> Forall P (map fst (dict_set k v d)).
Proof.
  intros Hk. induction d as [|[k' v'] d IH]; cbn; intros Hd.
  - now constructor.
  - inversion Hd; subst. destruct (String.eqb k k'); cbn; constructor; auto.
Qed.

Lemma store_email_kept domain url found email :
  Forall kept_email (map fst found) ->
  Forall kept_email (map fst (store_email domain url found email)).
Proof.
  intros Hf. unfold store_email.
  destruct (is_valid_email (strip (lower email))) eqn:Hv; [|exact Hf].
  assert (Hk : kept_email (strip (lower email))).
  { split; [apply strip_lower_fixed|exact Hv]. }
  destruct (dict_get _ found) as [old|].
  - destruct (old <? _)%Z; [now apply dict_set_keys|exact Hf].
  - now apply dict_set_keys.
Qed.

Lemma fold_store_email_kept domain url emails found :
  Forall kept_email (map fst found) ->
  Forall kept_email (map fst (fold_left (store_email domain url) emails found)).
Proof.
  revert found. induction emails as [|e emails IH]; cbn; intros found Hf; [exact Hf|].
  apply IH. now apply store_email_kept.
Qed.

Lemma crawl_step_kept E d url rest st :
  Forall kept_email (map fst (found_emails st)) ->
  Forall kept_email (map fst (found_emails (fst (crawl_step E d url rest st)))).
Proof.
  intros Hf. unfold crawl_step.
  destruct (bool_decide _); [exact Hf|].
  destruct (existsb _ _); [exact Hf|].
  destruct (requests_get _ _ _) as [resp|]; [|exact Hf].
  destruct (negb _); [exact Hf|].
  destruct (soup resp) as [doc|]; [|exact Hf].
  destruct (queue_links _ _ _ _ _ _) as [q ok].
  assert (Hfold := fold_store_email_kept d url (doc_emails doc) _ Hf).
  destruct ok; [|exact Hfold].
  destruct (best_of _) as [[be bs]|]; [|exact Hfold].
  destruct (70 <=? bs)%Z; exact Hfold.
Qed.

Lemma crawl_reach_kept E d m start st :
  crawl_reach E d m start st -> Forall kept_email (map fst (found_emails st)).
Proof.
  induction 1 as [|st url rest _ IH _ _]; [constructor|].
  now apply crawl_step_kept.
Qed.

(** C10. Every address that [crawl_for_email] returns is in lower case
    and passes [is_valid_email]: it has exactly one [@], its domain part
    contains a dot, its length is between 5 and 254, and none of the
    rejection patterns matches it. *)
Theorem crawl_returns_valid_email E start max e :
  crawl_for_email E start max = CrawlReturn (Some e) ->
  lower e = e
  /\ is_valid_email e = true
  /\ count_char at_sign e = 1%nat
  /\ contains "." (nth 1 (split_char at_sign e) "") = true
  /\ (5 <= String.length e <= 254)%nat
  /\ Forall (fun p => re_match p e = false) INVALID_EMAIL_PATTERNS.
Proof.
  intros Hret.
  destruct (crawl_for_email_found _ _ _ _ Hret) as (domain & st & Hreach & Hin).
  pose proof (crawl_reach_kept _ _ _ _ _ Hreach) as Hkept.
  rewrite Forall_forall in Hkept. destruct (Hkept e Hin) as [Hfix Hvalid].
  split.
  { rewrite <- Hfix. apply lower_strip_lower. }
  split; [exact Hvalid|].
  unfold is_valid_email in Hvalid. rewrite Hfix in Hvalid.
  destruct (existsb _ INVALID_EMAIL_PATTERNS) eqn:Hpat; [discriminate|].
  destruct ((String.length e <? 5)%nat || (254 <? String.length e)%nat) eqn:Hlen;
    [discriminate|].
  destruct (count_char at_sign e =? 1)%nat eqn:Hcount; [|discriminate].
  destruct (contains "." (nth 1 (split_char at_sign e) "")) eqn:Hdot; [|discriminate].
  apply orb_false_iff in Hlen as [Hlo Hhi].
  apply Nat.ltb_ge in Hlo, Hhi. apply Nat.eqb_eq in Hcount.
  repeat split; try assumption.
  apply Forall_forall. intros p Hp.
  destruct (re_match p e) eqn:Hm; [|reflexivity].
  assert (existsb (fun p => re_match p e) INVALID_EMAIL_PATTERNS = true)
    by (apply existsb_exists; eauto).
  congruence.
Qed.

(** The crawl of the example site finds the address of the contact page. *)
Lemma example_crawl :
  crawl_for_email example_env "http://hotel.com/" 10 = CrawlReturn (Some "info@hotel.com").
Proof.
  unfold crawl_for_email, crawl_run.
  replace (urlparse_netloc example_env "http://hotel.com/") with (Some "hotel.com")
    by (vm_compute; reflexivity).
  erewrite (crawl_loop_fuel_sound 100) by (vm_compute; reflexivity).
  reflexivity.
Qed.

Lemma crawl_returns_valid_email_witness :
  crawl_for_email example_env "http://hotel.com/" 10 = CrawlReturn (Some "info@hotel.com")
  /\ is_valid_email "info@hotel.com" = true
  /\ count_char at_sign "info@hotel.com" = 1%nat.
Proof.
  pose proof (crawl_returns_valid_email example_env "http://hotel.com/" 10
                "info@hotel.com" example_crawl) as (_ & Hv & Hc & _).
  exact (conj example_crawl (conj Hv Hc)).
Defined.

(** ** The model of [urllib.parse] *)

Lemma split_char_head sep s :
  nth 0 (split_char sep s) "" = take_until (fun c => Ascii.eqb c sep) s.
Proof.
  induction s as [|c s IH]; cbn; [reflexivity|].
  destruct (Ascii.eqb c sep); cbn; [reflexivity|].
  rewrite <- IH. now destruct (split_char sep s).
Qed.

Lemma strip_fragment_take u : strip_fragment u = take_until is_sharp u.
Proof. apply split_char_head. Qed.

Lemma is_sharp_true c : is_sharp c = true -> c = sharp.
Proof. apply Ascii.eqb_eq. Qed.

Lemma after_colon_take s :
  after_colon (take_until is_sharp s) = option_map (take_until is_sharp) (after_colon s).
Proof.
  induction s as [|c s IH]; cbn; [reflexivity|].
  destruct (is_sharp c) eqn:Hc.
  - apply is_sharp_true in Hc. subst c. reflexivity.
  - cbn. destruct (Ascii.eqb c ":"); [reflexivity|].
    destruct (scheme_char c); [exact IH|reflexivity].
Qed.

Lemma after_scheme_take u :
  after_scheme (take_until is_sharp u) = take_until is_sharp (after_scheme u).
Proof.
  destruct u as [|c s]; [reflexivity|].
  unfold after_scheme at 2.
  destruct (is_alpha c) eqn:Ha.
  - assert (Hc : is_sharp c = false).
    { destruct (is_sharp c) eqn:Hc; [|reflexivity].
      apply is_sharp_true in Hc. subst c. discriminate. }
    pose proof (after_colon_take (String c s)) as Hcol.
    cbn [take_until] in *. rewrite Hc in *.
    unfold after_scheme. rewrite Ha, Hcol.
    destruct (after_colon (String c s)); cbn; [reflexivity|].
    now rewrite Hc.
  - cbn [take_until]. destruct (is_sharp c); [reflexivity|].
    unfold after_scheme. now rewrite Ha.
Qed.

Lemma startswith_slashes_take r :
  startswith "//" (take_until is_sharp r) = startswith "//" r.
Proof.
  assert (Hslash : forall c, is_sharp c = true -> Ascii.eqb "/" c = false).
  { intros c Hc. apply is_sharp_true in Hc. now subst c. }
  destruct r as [|a [|b r]]; cbn [startswith take_until]; try reflexivity.
  - destruct (is_sharp a) eqn:Ha; cbn [startswith]; [|reflexivity].
    now rewrite (Hslash a Ha).
  - destruct (is_sharp a) eqn:Ha; cbn [startswith take_until].
    + now rewrite (Hslash a Ha).
    + destruct (is_sharp b) eqn:Hb; cbn [startswith]; [|reflexivity].
      now rewrite (Hslash b Hb), !andb_false_r.
Qed.

Lemma sdrop_slashes_take r :
  startswith "//" r = true ->
  sdrop 2 (take_until is_sharp r) = take_until is_sharp (sdrop 2 r).
Proof.
  destruct r as [|a [|b r]]; cbn [startswith]; try discriminate.
  - now rewrite andb_false_r.
  - intros H. apply andb_true_iff in H as [Ha H]. apply andb_true_iff in H as [Hb _].
    apply Ascii.eqb_eq in Ha, Hb. subst a b. reflexivity.
Qed.

Lemma take_netloc_take x :
  take_until netloc_end (take_until is_sharp x) = take_until netloc_end x.
Proof.
  induction x as [|c x IH]; cbn; [reflexivity|].
  destruct (is_sharp c) eqn:Hc.
  - apply is_sharp_true in Hc. subst c. reflexivity.
  - cbn. destruct (netloc_end c); [reflexivity|]. now rewrite IH.
Qed.

(** The network location does not depend on the fragment. *)
Lemma py_netloc_defrag u : py_netloc (strip_fragment u) = py_netloc u.
Proof.
  rewrite strip_fragment_take. unfold py_netloc.
  rewrite after_scheme_take, startswith_slashes_take.
  destruct (startswith "//" (after_scheme u)) eqn:Hs; [|reflexivity].
  now rewrite sdrop_slashes_take, take_netloc_take.
Qed.

(** ** E-mail crawler: bounds and hosts *)

Lemma queue_links_hosts E domain url vis hrefs q :
  netloc_defrag E ->
  (forall u, In u q -> urlparse_netloc E u = Some domain) ->
  forall u, In u (fst (queue_links E domain url vis hrefs q)) ->
            urlparse_netloc E u = Some domain.
Proof.
  intros Hdefrag. revert q.
  induction hrefs as [|href hrefs IH]; cbn [queue_links]; intros q Hq; [exact Hq|].
  destruct (startswith "mailto:" href || startswith "javascript:" href); [now apply IH|].
  destruct (urljoin E url href) as [full_url|]; [|exact Hq].
  destruct (urlparse_netloc E full_url) as [netloc|] eqn:Hnet; [|exact Hq].
  destruct (String.eqb netloc domain && negb (bool_decide (full_url ∈ vis))) eqn:Hsame;
    [|now apply IH].
  apply andb_true_iff in Hsame as [Hsame _]. apply String.eqb_eq in Hsame. subst netloc.
  pose proof (Hdefrag _ _ Hnet) as Hfrag.
  destruct (bool_decide (strip_fragment full_url ∈ vis)); [now apply IH|].
  destruct (contains_any PRIORITY_KEYWORDS (lower (strip_fragment full_url))); apply IH.
  - intros u [<-|Hu]; [exact Hfrag|now apply Hq].
  - intros u Hu. apply in_app_or in Hu as [Hu|[<-|[]]]; [now apply Hq|exact Hfrag].
Qed.

Lemma crawl_step_inv E domain max url rest st :
  netloc_defrag E ->
  queue st = url :: rest ->
  (pages_crawled st < max)%Z ->
  crawl_inv E domain max st ->
  crawl_inv E domain max (fst (crawl_step E domain url rest st)).
Proof.
  intros Hdefrag Hq Hlt (Hcount & Hmax & Hhost).
  assert (Hrest : forall u, u ∈ visited st \/ In u rest -> urlparse_netloc E u = Some domain).
  { intros u [Hu|Hu]; apply Hhost; [now left|right; rewrite Hq; now right]. }
  assert (Hpop : forall f r,
    crawl_inv E domain max {| visited := visited st; queue := rest; found_emails := f;
                              pages_crawled := pages_crawled st; requests_made := r |}).
  { intros. split; [exact Hcount|]. split; [exact Hmax|exact Hrest]. }
  unfold crawl_step.
  destruct (bool_decide (url ∈ visited st)) eqn:Hvis; [apply Hpop|].
  apply bool_decide_eq_false in Hvis.
  destruct (existsb _ _); [apply Hpop|].
  destruct (requests_get _ _ _) as [resp|]; [|apply Hpop].
  destruct (negb _); [apply Hpop|].
  assert (Hsize : (pages_crawled st + 1)%Z = Z.of_nat (size ({[url]} ∪ visited st))).
  { rewrite size_union by set_solver. rewrite size_singleton. lia. }
  assert (Hurl : urlparse_netloc E url = Some domain).
  { apply Hhost. right. rewrite Hq. now left. }
  assert (Hpage : forall q f r,
    (forall u, In u q -> urlparse_netloc E u = Some domain) ->
    crawl_inv E domain max {| visited := {[url]} ∪ visited st; queue := q;
                              found_emails := f; pages_crawled := pages_crawled st + 1;
                              requests_made := r |}).
  { intros q f r Hqh. split; [exact Hsize|]. split; [cbn; lia|].
    cbn. intros u [Hu|Hu]; [|now apply Hqh].
    apply elem_of_union in Hu as [Hu|Hu]; [|apply Hhost; now left].
    apply elem_of_singleton in Hu. now subst u. }
  destruct (soup resp) as [doc|].
  2:{ apply Hpage. intros u Hu. apply Hrest. now right. }
  pose proof (queue_links_hosts E domain url ({[url]} ∪ visited st) (doc_hrefs doc) rest
                Hdefrag (fun u Hu => Hrest u (or_intror Hu))) as Hlinks.
  destruct (queue_links _ _ _ _ _ _) as [q ok]. cbn [fst] in Hlinks.
  destruct ok; [|now apply Hpage].
  destruct (best_of _) as [[be bs]|]; [|now apply Hpage].
  destruct (70 <=? bs)%Z; now apply Hpage.
Qed.

Lemma crawl_reach_inv E domain max start st :
  (0 <= max)%Z ->
  netloc_defrag E ->
  urlparse_netloc E start = Some domain ->
  crawl_reach E domain max start st ->
  crawl_inv E domain max st.
Proof.
  intros Hmax Hdefrag Hstart.
  induction 1 as [|st url rest _ IH Hq Hlt].
  - split; [reflexivity|]. split; [exact Hmax|].
    intros u [Hu|[<-|[]]]; [|exact Hstart]. now apply not_elem_of_empty in Hu.
  - now apply crawl_step_inv.
Qed.

(** C3. For every [start_url] and every [max_pages >= 0], in every state
    that [crawl_for_email] passes through, the state in which it stops
    included, at most [max_pages] distinct URLs have been marked visited
    and counted, and every URL that is visited or waits in the queue has
    the network location of [start_url]. *)
Theorem crawl_bounded_same_host E start max domain :
  (0 <= max)%Z ->
  netloc_defrag E ->
  urlparse_netloc E start = Some domain ->
  (forall st, crawl_reach E domain max start st ->
     (Z.of_nat (size (visited st)) <= max)%Z
     /\ pages_crawled st = Z.of_nat (size (visited st))
     /\ (forall u, u ∈ visited st \/ In u (queue st) ->
                   urlparse_netloc E u = urlparse_netloc E start))
  /\ (forall st r, crawl_run E start max = Some (st, r) ->
        crawl_reach E domain max start st).
Proof.
  intros Hmax Hdefrag Hstart. split.
  - intros st Hreach.
    destruct (crawl_reach_inv _ _ _ _ _ Hmax Hdefrag Hstart Hreach) as (Hc & Hm & Hh).
    split; [lia|]. split; [exact Hc|]. intros u Hu. rewrite Hstart. now apply Hh.
  - intros st r Hrun.
    destruct (crawl_run_reach _ _ _ _ _ Hrun) as (d & Hd & Hreach).
    rewrite Hstart in Hd. now injection Hd as <-.
Qed.

Lemma example_env_defrag : netloc_defrag example_env.
Proof.
  intros u d Hu. cbn in *. now rewrite py_netloc_defrag.
Qed.

(** The crawl of the example site with a budget of one page. *)
Lemma example_run :
  exists st, crawl_run example_env "http://hotel.com/" 1 = Some (st, None)
             /\ queue st = ["http://hotel.com/contact"; "http://hotel.com/rooms";
                            "http://hotel.com/brochure.pdf"]
             /\ elements (visited st) = ["http://hotel.com/"].
Proof.
  unfold crawl_run.
  replace (urlparse_netloc example_env "http://hotel.com/") with (Some "hotel.com")
    by (vm_compute; reflexivity).
  eexists. split; [|split].
  - erewrite (crawl_loop_fuel_sound 100) by (vm_compute; reflexivity). reflexivity.
  - reflexivity.
  - vm_compute. reflexivity.
Qed.

Lemma crawl_bounded_same_host_witness :
  exists st, crawl_run example_env "http://hotel.com/" 1 = Some (st, None)
    /\ (Z.of_nat (size (visited st)) <= 1)%Z
    /\ In "http://hotel.com/rooms" (queue st)
    /\ urlparse_netloc example_env "http://hotel.com/rooms"
       = urlparse_netloc example_env "http://hotel.com/".
Proof.
  destruct example_run as (st & Hrun & Hq & _).
  assert (Hmax : (0 <= 1)%Z) by lia.
  assert (Hstart : urlparse_netloc example_env "http://hotel.com/" = Some "hotel.com")
    by reflexivity.
  assert (Hin : In "http://hotel.com/rooms" (queue st))
    by (rewrite Hq; right; left; reflexivity).
  destruct (crawl_bounded_same_host example_env "http://hotel.com/" 1 "hotel.com"
              Hmax example_env_defrag Hstart) as [Hall Hlast].
  destruct (Hall st (Hlast st None Hrun)) as (Hsize & _ & Hhost).
  exists st.
  exact (conj Hrun (conj Hsize (conj Hin (Hhost _ (or_intror Hin))))).
Defined.

(** ** E-mail crawler: failures *)

(** A turn of the loop that does not return is followed by the loop on
    the state that the turn leaves. *)
Lemma crawl_loop_continues E domain max st url rest st' :
  queue st = url :: rest ->
  (pages_crawled st < max)%Z ->
  crawl_step E domain url rest st = (st', None) ->
  crawl_loop E domain max st = crawl_loop E domain max st'.
Proof.
  intros Hq Hlt Hstep. rewrite (crawl_loop_eq E domain max st), Hq, Hstep.
  apply Z.ltb_lt in Hlt. now rewrite Hlt.
Qed.

(** C8 (amended). For every [start_url] that [urlparse] accepts, every
    [max_pages] and every behaviour of the network, [crawl_for_email]
    returns an address or [None] and raises nothing.  A page whose
    request raises, or whose parsing raises, does not end the crawl: the
    loop goes on with the rest of the queue and with the addresses found
    so far. *)
Theorem crawl_never_raises E start max :
  urlparse_netloc E start <> None ->
  (exists r, crawl_for_email E start max = CrawlReturn r)
  /\ (forall domain st url rest,
        queue st = url :: rest ->
        (pages_crawled st < max)%Z ->
        (exists exn, requests_get E (requests_made st) url = Raised exn)
        \/ (exists resp exn, requests_get E (requests_made st) url = Returned resp
                             /\ soup resp = Raised exn) ->
        exists st',
          crawl_loop E domain max st = crawl_loop E domain max st'
          /\ queue st' = rest
          /\ found_emails st' = found_emails st).
Proof.
  intros Hstart. split.
  - unfold crawl_for_email, crawl_run.
    destruct (urlparse_netloc E start) as [domain|]; [|congruence].
    destruct (crawl_loop E domain max (initial_state start)) as [st [e|]]; [eauto|].
    destruct (best_of (found_emails st)) as [[be bs]|]; eauto.
  - intros domain st url rest Hq Hlt Hfail.
    exists (fst (crawl_step E domain url rest st)).
    assert (Hstep : snd (crawl_step E domain url rest st) = None
                    /\ queue (fst (crawl_step E domain url rest st)) = rest
                    /\ found_emails (fst (crawl_step E domain url rest st))
                       = found_emails st).
    { unfold crawl_step.
      destruct (bool_decide _); [now cbn|].
      destruct (existsb _ _); [now cbn|].
      destruct Hfail as [(exn & ->)|(resp & exn & -> & Hsoup)]; [now cbn|].
      destruct (negb _); [now cbn|]. now rewrite Hsoup. }
    destruct Hstep as (Hnone & Hrest & Hfound).
    split; [|split; assumption].
    apply (crawl_loop_continues E domain max st url rest); try assumption.
    destruct (crawl_step E domain url rest st) as [st' r]. cbn in *. now subst r.
Qed.

Lemma crawl_never_raises_witness :
  exists r, crawl_for_email example_env "http://hotel.com/" 10 = CrawlReturn r.
Proof.
  assert (Hstart : urlparse_netloc example_env "http://hotel.com/" <> None)
    by (vm_compute; discriminate).
  exact (proj1 (crawl_never_raises example_env "http://hotel.com/" 10 Hstart)).
Defined.

(** C8 as stated fails: [urlparse] rejects the start URL [http://[] and
    the exception reaches the caller. *)
Lemma crawl_raises_counterexample :
  crawl_for_email example_env "http://[" 10 = CrawlRaise "ValueError"
  /\ ~ (exists r, crawl_for_email example_env "http://[" 10 = CrawlReturn r).
Proof.
  assert (H : crawl_for_email example_env "http://[" 10 = CrawlRaise "ValueError")
    by (vm_compute; reflexivity).
  split; [exact H|]. intros [r Hr]. rewrite H in Hr. discriminate.
Qed.

(** ** The scoring of an address *)

Lemma startswith_prefix p s :
  startswith p s = true <-> exists q, s = (p ++ q)%string.
Proof.
  revert s. induction p as [|a p IH]; intros s; cbn.
  - split; [intros _; now exists s|reflexivity].
  - destruct s as [|b s]; cbn.
    + split; [discriminate|intros [q Hq]; discriminate].
    + rewrite andb_true_iff, Ascii.eqb_eq, IH. split.
      * intros [-> [q ->]]. now exists q.
      * intros [q [= -> ->]]. split; [reflexivity|now exists q].
Qed.

(** [sub in s] holds exactly when [sub] occurs in [s]. *)
Lemma contains_substring sub s : contains sub s = true <-> substring sub s.
Proof.
  induction s as [|c s IH]; cbn [contains]; rewrite orb_true_iff, startswith_prefix.
  - split.
    + intros [[q Hq]|H]; [|discriminate]. exists "", q. exact Hq.
    + intros (p & q & H). left. destruct p; [now exists q|discriminate].
  - rewrite IH. split.
    + intros [[q Hq]|(p & q & ->)]; [exists "", q; exact Hq|].
      exists (String c p), q. reflexivity.
    + intros (p & q & H). destruct p as [|c' p]; [left; now exists q|].
      right. injection H as -> ->. now exists p, q.
Qed.

Lemma contains_not_substring sub s : contains sub s = false <-> ~ substring sub s.
Proof.
  rewrite <- contains_substring. now destruct (contains sub s).
Qed.

Lemma mem_not_In (x : string) (l : list string) : mem x l = false <-> ~ In x l.
Proof. rewrite <- mem_In. now destruct (mem x l). Qed.

(** C7 (amended). For every address [e] that contains [@] and every host
    [d], [score_email(e, d)] is the sum of: 50 if the domain part of [e]
    equals [d] with every occurrence of [www.] removed, else 30 if one of
    the two occurs in the other; plus 40 if the local part of [e] in lower
    case is one of the preferred names, else 20 if one of them occurs in
    it; minus 20 if the domain part of [e] is one of the five consumer
    mail providers. *)
Theorem score_email_sum e d :
  contains "@" e = true ->
  exists a b c,
    score_email e d = (a + b - c)%Z
    /\ domain_points (domain_part e) (replace "www." "" d) a
    /\ local_points (local_part (lower e)) b
    /\ provider_penalty (domain_part e) c.
Proof.
  intros Hat. unfold score_email. rewrite Hat.
  fold (domain_part e) (local_part (lower e)).
  set (ed := domain_part e). set (wd := replace "www." "" d).
  set (lp := local_part (lower e)).
  assert (Ha : exists a,
    domain_points ed wd a
    /\ (if String.eqb ed wd then (0 + 50)%Z
        else if contains wd ed || contains ed wd then (0 + 30)%Z else 0%Z) = a).
  { destruct (String.eqb ed wd) eqn:Heq.
    - apply String.eqb_eq in Heq. exists 50%Z. split; [now constructor|reflexivity].
    - apply String.eqb_neq in Heq.
      destruct (contains wd ed || contains ed wd) eqn:Hsub.
      + exists 30%Z. split; [|reflexivity]. apply points_related; [exact Heq|].
        apply orb_true_iff in Hsub as [H|H]; apply contains_substring in H; tauto.
      + exists 0%Z. split; [|reflexivity].
        apply orb_false_iff in Hsub as [H1 H2].
        apply points_unrelated; [exact Heq| |]; now apply contains_not_substring. }
  destruct Ha as (a & Hdom & ->).
  assert (Hb : exists b,
    local_points lp b
    /\ forall x, (if mem lp preferred_prefixes then (x + 40)%Z
                  else if existsb (fun pref => contains pref lp) preferred_prefixes
                       then (x + 20)%Z else x) = (x + b)%Z).
  { destruct (mem lp preferred_prefixes) eqn:Hmem.
    - exists 40%Z. split; [|reflexivity]. apply points_exact. now apply mem_In.
    - apply mem_not_In in Hmem.
      destruct (existsb _ preferred_prefixes) eqn:Hex.
      + exists 20%Z. split; [|reflexivity]. apply points_contains; [exact Hmem|].
        apply existsb_exists in Hex as (pref & Hin & Hc).
        exists pref. split; [exact Hin|now apply contains_substring].
      + exists 0%Z. split; [|intros; lia]. apply points_none; [exact Hmem|].
        intros pref Hin. apply contains_not_substring.
        destruct (contains pref lp) eqn:Hc; [|reflexivity].
        assert (existsb (fun pref => contains pref lp) preferred_prefixes = true)
          by (apply existsb_exists; eauto).
        congruence. }
  destruct Hb as (b & Hloc & Hbeq). rewrite Hbeq.
  destruct (mem ed generic_domains) eqn:Hgen.
  - exists a, b, 20%Z. repeat split; try assumption.
    apply penalty_generic. now apply mem_In.
  - exists a, b, 0%Z. split; [lia|]. repeat split; try assumption.
    apply penalty_none. now apply mem_not_In.
Qed.

Lemma score_email_sum_witness :
  exists a b c,
    score_email "Rezervasyon@hotel.com" "www.hotel.com" = (a + b - c)%Z
    /\ domain_points "hotel.com" "hotel.com" a
    /\ local_points "rezervasyon" b
    /\ provider_penalty "hotel.com" c.
Proof.
  exact (score_email_sum "Rezervasyon@hotel.com" "www.hotel.com" eq_refl).
Defined.

(** C7 as stated fails: [replace] removes [www.] wherever it occurs, so
    the host [m.www.hotel.com] counts as [m.hotel.com]; the sum of the
    specification, which removes a leading [www.] only, is 40.  The local
    part is compared in lower case as well: [Info] counts as [info]. *)
Lemma score_email_counterexample :
  contains "@" "info@m.hotel.com" = true
  /\ score_email "info@m.hotel.com" "m.www.hotel.com" = 90%Z
  /\ score_email_as_stated "info@m.hotel.com" "m.www.hotel.com" = 40%Z
  /\ score_email "info@m.hotel.com" "m.www.hotel.com"
     <> score_email_as_stated "info@m.hotel.com" "m.www.hotel.com"
  /\ score_email "Info@hotel.com" "hotel.com" = 90%Z
  /\ score_email_as_stated "Info@hotel.com" "hotel.com" = 50%Z.
Proof.
  repeat split; try reflexivity. vm_compute. discriminate.
Qed.

(** ** Content validator *)

Lemma domain_analysis_range E url :
  (0 <= fst (domain_analysis E url) <= 40)%Z.
Proof.
  unfold domain_analysis.
  destruct (urlparse_netloc E url) as [netloc|]; cbn [fst]; [|lia].
  destruct (contains_any domain_keywords (lower netloc)); cbn [fst]; [lia|].
  destruct (contains_any brand_keywords (lower netloc)); cbn [fst]; lia.
Qed.

Lemma domain_analysis_keyword E url :
  (40 <=? fst (domain_analysis E url))%Z = host_has_hotel_keyword E url.
Proof.
  unfold domain_analysis, host_has_hotel_keyword.
  destruct (urlparse_netloc E url) as [netloc|]; [|reflexivity].
  destruct (contains_any domain_keywords (lower netloc)); [reflexivity|].
  destruct (contains_any brand_keywords (lower netloc)); reflexivity.
Qed.

(** After a miss of the cache the verdict depends on the URL, the city
    and the response only; it is cached or not, and its confidence is
    between 0 and 100. *)
Lemma validate_uncached_shape E fetch url city :
  exists (v : verdict) (cached : bool),
    (0 <= confidence v <= 100)%Z
    /\ forall t_write db,
         validate_uncached E t_write fetch db url city
         = (v, if cached
               then set_validation_cache t_write db url (is_hotel v) (confidence v)
                      (indicators v)
               else db).
Proof.
  unfold validate_uncached, content_error, cached_return.
  pose proof (domain_analysis_range E url) as Hrange.
  destruct (domain_analysis E url) as [score inds]. cbn [fst] in Hrange.
  destruct fetch as [resp|exn].
  2:{ destruct (Z.leb_spec 40 score).
      - eexists _, true. split; [|intros; reflexivity]. cbn [confidence]; lia.
      - eexists _, false. split; [|intros; reflexivity]. cbn [confidence]; lia. }
  destruct (negb (resp_status resp =? 200)%Z).
  { destruct (40 <=? score)%Z; eexists _, true; (split; [|intros; reflexivity]);
      cbn [confidence]; lia. }
  set (content := lower (resp_text resp)).
  set (city_matched := if truthy city then _ else false).
  assert (Hcity : exists score1 inds1,
    (if city_matched
     then ((score + 40)%Z, inds ++ ["✓ City matched: " +++ or_empty city])
     else (score, inds)) = (score1, inds1) /\ (0 <= score1)%Z).
  { destruct city_matched; eexists _, _; (split; [reflexivity|lia]). }
  destruct Hcity as (score1 & inds1 & -> & Hs1). clear Hrange.
  destruct (Z.leb_spec 70 score1).
  { eexists _, true. split; [|intros; reflexivity]. cbn [confidence]; lia. }
  destruct (soup resp) as [doc|exn].
  2:{ destruct (Z.leb_spec 40 score1).
      - eexists _, true. split; [|intros; reflexivity]. cbn [confidence]; lia.
      - eexists _, false. split; [|intros; reflexivity]. cbn [confidence]; lia. }
  set (title_text := lower (or_empty (doc_title doc))).
  set (title_ok := nonempty title_text && _).
  assert (Htitle : exists score2 inds2,
    (if title_ok then ((score1 + 20)%Z, inds1 ++ ["✓ Hotel keyword in title"])
     else (score1, inds1)) = (score2, inds2) /\ (0 <= score2)%Z).
  { destruct title_ok; eexists _, _; (split; [reflexivity|lia]). }
  destruct Htitle as (score2 & inds2 & -> & Hs2).
  set (english_kw := count_keywords HOTEL_KEYWORDS_english content).
  set (turkish_kw := count_keywords HOTEL_KEYWORDS_turkish content).
  assert (Hkw : exists score3 inds3,
    (if (2 <=? english_kw)%nat
     then ((score2 + 20)%Z, inds2 ++ ["✓ English keywords: " +++ str_of_nat english_kw])
     else if (2 <=? turkish_kw)%nat
          then ((score2 + 20)%Z,
                inds2 ++ ["✓ Turkish keywords: " +++ str_of_nat turkish_kw])
          else (score2, inds2)) = (score3, inds3) /\ (0 <= score3)%Z).
  { destruct (2 <=? english_kw)%nat; [|destruct (2 <=? turkish_kw)%nat];
      eexists _, _; (split; [reflexivity|lia]). }
  destruct Hkw as (score3 & inds3 & -> & Hs3).
  set (has_phone := existsb _ phone_patterns).
  assert (Hphone : exists score4 inds4,
    (if has_phone then ((score3 + 15)%Z, inds3 ++ ["✓ Phone number found"])
     else (score3, inds3)) = (score4, inds4) /\ (0 <= score4)%Z).
  { destruct has_phone; eexists _, _; (split; [reflexivity|lia]). }
  destruct Hphone as (score4 & inds4 & -> & Hs4).
  destruct (Z.leb_spec 50 score4); eexists _, true; (split; [|intros; reflexivity]);
    cbn [confidence]; lia.
Qed.

(** C2 (amended). When the page fetch inside [validate_hotel_content]
    raises and the host of the URL contains none of the hotel words, the
    call answers "not a hotel" with confidence 0 and leaves the validation
    cache as it was.  When the host contains a hotel word, the call
    answers "a hotel" with confidence 50 and caches this verdict. *)
Theorem validate_fetch_error E t_read t_write exn db url name city :
  get_validation_cache t_read db url = None ->
  (host_has_hotel_keyword E url = false ->
     is_hotel (fst (validate_hotel_content E t_read t_write (Raised exn) db url name city))
     = false
     /\ confidence (fst (validate_hotel_content E t_read t_write (Raised exn) db url
                           name city)) = 0%Z
     /\ snd (validate_hotel_content E t_read t_write (Raised exn) db url name city) = db)
  /\ (host_has_hotel_keyword E url = true ->
        exists inds,
          validate_hotel_content E t_read t_write (Raised exn) db url name city
          = ({| is_hotel := true; confidence := 50; indicators := inds |},
             set_validation_cache t_write db url true 50 inds)).
Proof.
  intros Hmiss. unfold validate_hotel_content. rewrite Hmiss.
  unfold validate_uncached, content_error.
  pose proof (domain_analysis_range E url) as Hrange.
  pose proof (domain_analysis_keyword E url) as Hkey.
  destruct (domain_analysis E url) as [score inds]. cbn [fst] in Hrange, Hkey.
  rewrite Hkey. split; intros Hhost; rewrite Hhost.
  - cbn. repeat split; reflexivity.
  - rewrite Hhost in Hkey. apply Z.leb_le in Hkey.
    assert (score = 40%Z) as -> by lia.
    eexists. reflexivity.
Qed.

Lemma validate_fetch_error_witness :
  let r := validate_hotel_content example_env 0%Q 1%Q (Raised "ConnectionError")
             empty_db "http://www.example.org/" (Some "ALEXIA") (Some "antalya") in
  is_hotel (fst r) = false /\ confidence (fst r) = 0%Z /\ snd r = empty_db.
Proof.
  intros r.
  assert (Hmiss : get_validation_cache 0%Q empty_db "http://www.example.org/" = None)
    by reflexivity.
  assert (Hhost : host_has_hotel_keyword example_env "http://www.example.org/" = false)
    by (vm_compute; reflexivity).
  exact (proj1 (validate_fetch_error example_env 0%Q 1%Q "ConnectionError" empty_db
                  "http://www.example.org/" (Some "ALEXIA") (Some "antalya") Hmiss) Hhost).
Defined.

(** C2 as stated fails: the host [www.alexiahotel.com] contains a hotel
    word, so the failed fetch is answered "a hotel" and written to the
    cache. *)
Lemma validate_fetch_error_counterexample :
  let r := validate_hotel_content example_env 0%Q 1%Q (Raised "ConnectionError")
             empty_db "http://www.alexiahotel.com/" (Some "ALEXIA") (Some "antalya") in
  get_validation_cache 0%Q empty_db "http://www.alexiahotel.com/" = None
  /\ is_hotel (fst r) = true
  /\ snd r <> empty_db
  /\ get_validation_cache 2%Q (snd r) "http://www.alexiahotel.com/" = Some (fst r).
Proof.
  intros r.
  assert (Hget : get_validation_cache 2%Q (snd r) "http://www.alexiahotel.com/"
                 = Some (fst r)) by (vm_compute; reflexivity).
  repeat split; try reflexivity; try exact Hget.
  intros Heq. rewrite Heq in Hget. discriminate.
Qed.

Lemma get_validation_cache_no_expiry t1 t2 db url :
  no_expiry t1 t2 db url ->
  get_validation_cache t2 db url = get_validation_cache t1 db url.
Proof.
  intros Hno. unfold get_validation_cache.
  destruct (validation_cache db !! lower url) as [row|] eqn:Hrow; [|reflexivity].
  now rewrite (Hno row Hrow).
Qed.

Lemma get_set_validation_cache t t' db url v :
  get_validation_cache t' (set_validation_cache t db url (is_hotel v) (confidence v)
                             (indicators v)) url
  = if is_cache_valid t' t CACHE_TTL_SECONDS then Some v else None.
Proof.
  unfold get_validation_cache, set_validation_cache; cbn.
  rewrite lookup_insert_eq; cbn.
  destruct (is_cache_valid _ _ _); [|reflexivity].
  rewrite bool_of_int_of_bool. now destruct v.
Qed.

(** C9. Two consecutive calls of [validate_hotel_content] with the same
    URL, name and city, the same response to the page fetch and no entry
    of the URL expiring between the two lookups of the cache return the
    same verdict. *)
Theorem validate_deterministic E fetch db url name city t1 t1' t2 t2' :
  no_expiry t1 t2 db url ->
  fst (validate_hotel_content E t2 t2' fetch
         (snd (validate_hotel_content E t1 t1' fetch db url name city)) url name city)
  = fst (validate_hotel_content E t1 t1' fetch db url name city).
Proof.
  intros Hno.
  pose proof (get_validation_cache_no_expiry _ _ _ _ Hno) as Hsame.
  destruct (validate_uncached_shape E fetch url city) as (v & cached & _ & Hshape).
  assert (Hfirst : validate_hotel_content E t1 t1' fetch db url name city
                   = match get_validation_cache t1 db url with
                     | Some c => (c, db)
                     | None =>
                         (v, if cached
                             then set_validation_cache t1' db url (is_hotel v)
                                    (confidence v) (indicators v)
                             else db)
                     end).
  { unfold validate_hotel_content.
    destruct (get_validation_cache t1 db url); [reflexivity|apply Hshape]. }
  rewrite Hfirst.
  destruct (get_validation_cache t1 db url) as [c|] eqn:Hget; cbn [fst snd];
    unfold validate_hotel_content.
  - now rewrite Hsame.
  - destruct cached.
    + rewrite get_set_validation_cache.
      destruct (is_cache_valid t2 t1' CACHE_TTL_SECONDS); [reflexivity|].
      now rewrite Hshape.
    + now rewrite Hsame, Hshape.
Qed.

Lemma validate_deterministic_witness :
  let fetch := Returned {| resp_status := 200; resp_content_type := "text/html";
                           resp_text := "Alexia Resort, Antalya. Rooms and booking.";
                           soup := Returned {| doc_title := Some "Alexia Resort";
                                               doc_emails := []; doc_hrefs := [] |} |} in
  let r1 := validate_hotel_content example_env 0%Q 1%Q fetch empty_db
              "http://www.alexiaresort.com/" (Some "ALEXIA") (Some "antalya") in
  let r2 := validate_hotel_content example_env 5%Q 6%Q fetch (snd r1)
              "http://www.alexiaresort.com/" (Some "ALEXIA") (Some "antalya") in
  fst r2 = fst r1 /\ is_hotel (fst r1) = true /\ confidence (fst r1) = 100%Z.
Proof.
  intros fetch r1 r2.
  assert (Hno : no_expiry 0%Q 5%Q empty_db "http://www.alexiaresort.com/").
  { intros row Hrow. cbn in Hrow. rewrite lookup_empty in Hrow. discriminate. }
  exact (conj (validate_deterministic example_env fetch empty_db
                 "http://www.alexiaresort.com/" (Some "ALEXIA") (Some "antalya")
                 0%Q 1%Q 5%Q 6%Q Hno)
              (conj eq_refl eq_refl)).
Defined.

(** ** Scores *)

Lemma Qsum_nonneg (l : list Q) : Forall (fun q => (0 <= q)%Q) l -> (0 <= Qsum l)%Q.
Proof.
  induction 1 as [|q l Hq _ IH]; cbn; [apply Qle_refl|].
  apply Qle_trans with (0 + 0)%Q; [apply Qle_refl|now apply Qplus_le_compat].
Qed.

Lemma token_match_nonneg dn dc t : (0 <= token_match dn dc t)%Q.
Proof.
  unfold token_match.
  repeat match goal with |- context [if ?c then _ else _] => destruct c end;
    discriminate.
Qed.

Lemma Qmin_100_range (q : Q) : (0 <= q)%Q -> (0 <= Qmin q 100)%Q /\ (Qmin q 100 <= 100)%Q.
Proof.
  intros Hq. split; [|apply Q.le_min_r].
  apply Q.min_glb; [exact Hq|discriminate].
Qed.

(** [calculate_score] stays between 0 and 100. *)
Lemma calculate_score_range E hotel_name url title q :
  calculate_score E hotel_name url title = Some q -> (0 <= q)%Q /\ (q <= 100)%Q.
Proof.
  unfold calculate_score.
  destruct (tldextract E url) as [[d suffix]|]; [|discriminate].
  set (all_tokens := dedup (split_ws (lower hotel_name))).
  set (name_tokens := match filter _ all_tokens with [] => all_tokens | _ => _ end).
  set (matches := Qsum _).
  assert (Hm : (0 <= matches)%Q).
  { apply Qsum_nonneg, Forall_forall. intros x Hx.
    apply in_map_iff in Hx as (t & <- & _). apply token_match_nonneg. }
  set (s1 := match name_tokens with [] => 0%Q | _ => _ end).
  assert (H1 : (0 <= s1)%Q).
  { subst s1. destruct name_tokens as [|t ts] eqn:Hn; [apply Qle_refl|].
    apply Qmult_le_0_compat; [|discriminate].
    apply Qle_shift_div_l; [reflexivity|]. now rewrite Qmult_0_l. }
  set (s2 := if contains_any score_hotel_keywords (lower d) then _ else s1).
  assert (H2 : (0 <= s2)%Q).
  { subst s2. destruct (contains_any _ _); [|exact H1].
    apply Qle_trans with (0 + 0)%Q; [apply Qle_refl|].
    apply Qplus_le_compat; [exact H1|discriminate]. }
  set (s3 := if nonempty title then _ else s2).
  assert (H3 : (0 <= s3)%Q).
  { subst s3. destruct (nonempty title); [|exact H2].
    destruct (contains _ _).
    - apply Qle_trans with (0 + 0)%Q; [apply Qle_refl|].
      apply Qplus_le_compat; [exact H2|discriminate].
    - destruct (0 <? _)%nat; [|exact H2].
      apply Qle_trans with (0 + 0)%Q; [apply Qle_refl|].
      apply Qplus_le_compat; [exact H2|].
      apply Q.min_glb; [|discriminate].
      apply Qmult_le_0_compat; [|discriminate].
      unfold Q_of_nat. change 0%Q with (inject_Z 0). rewrite <- Zle_Qle. lia. }
  set (s4 := if (8 <? _)%nat then _ else _).
  assert (H4 : (0 <= s4)%Q).
  { subst s4. destruct (8 <? _)%nat; [|destruct (5 <? _)%nat]; [| |exact H3];
      (apply Qle_trans with (0 + 0)%Q; [apply Qle_refl|]);
      (apply Qplus_le_compat; [exact H3|discriminate]). }
  intros [= <-]. now apply Qmin_100_range.
Qed.

Lemma half_nonneg (c : Z) : (0 <= c)%Z -> (0 <= half c)%Q.
Proof.
  intros Hc. unfold half. apply Qle_shift_div_l; [reflexivity|].
  rewrite Qmult_0_l. change 0%Q with (inject_Z 0). now rewrite <- Zle_Qle.
Qed.

Lemma boosted_range (score : Q) (conf : Z) :
  (0 <= score)%Q -> (0 <= conf)%Z ->
  (0 <= Qmin (score + half conf) 100)%Q /\ (Qmin (score + half conf) 100 <= 100)%Q.
Proof.
  intros Hs Hc. apply Qmin_100_range.
  apply Qle_trans with (0 + 0)%Q; [apply Qle_refl|].
  apply Qplus_le_compat; [exact Hs|now apply half_nonneg].
Qed.

(** ** The validation cache under [find_website] *)

Lemma cache_sound_empty : cache_sound empty_db.
Proof. intros k row H. cbn in H. rewrite lookup_empty in H. discriminate. Qed.

Lemma cache_sound_set t db url v :
  cache_sound db -> (0 <= confidence v <= 100)%Z ->
  cache_sound (set_validation_cache t db url (is_hotel v) (confidence v) (indicators v)).
Proof.
  intros Hdb Hv k row. unfold set_validation_cache; cbn.
  rewrite lookup_insert. case_decide.
  - intros [= <-]. exact Hv.
  - apply Hdb.
Qed.

Lemma cache_sound_same_table db db' :
  validation_cache db' = validation_cache db -> cache_sound db -> cache_sound db'.
Proof. intros Heq Hdb k row. rewrite Heq. apply Hdb. Qed.

(** A verdict of the validator has a confidence between 0 and 100, and the
    cache stays sound. *)
Lemma validate_hotel_content_sound E t_read t_write fetch db url name city :
  cache_sound db ->
  (0 <= confidence (fst (validate_hotel_content E t_read t_write fetch db url name city))
   <= 100)%Z
  /\ cache_sound (snd (validate_hotel_content E t_read t_write fetch db url name city)).
Proof.
  intros Hdb. unfold validate_hotel_content, get_validation_cache.
  destruct (validation_cache db !! lower url) as [row|] eqn:Hrow.
  - destruct (is_cache_valid _ _ _); cbn [fst snd].
    + split; [apply (Hdb _ _ Hrow)|exact Hdb].
    + destruct (validate_uncached_shape E fetch url city) as (v & cached & Hv & Hshape).
      rewrite Hshape. cbn [fst snd]. split; [exact Hv|].
      destruct cached; [now apply cache_sound_set|exact Hdb].
  - destruct (validate_uncached_shape E fetch url city) as (v & cached & Hv & Hshape).
    rewrite Hshape. cbn [fst snd]. split; [exact Hv|].
    destruct cached; [now apply cache_sound_set|exact Hdb].
Qed.

Lemma validate_in_sound E w url name city :
  cache_sound (db w) ->
  (0 <= confidence (fst (validate_in E w url name city)) <= 100)%Z
  /\ cache_sound (db (snd (validate_in E w url name city))).
Proof.
  intros Hdb. unfold validate_in.
  pose proof (validate_hotel_content_sound E (clock E (tick w)) (clock E (S (tick w)))
                (requests_get E (tick w) url) (db w) url name city Hdb) as H.
  destruct (validate_hotel_content _ _ _ _ _ _ _ _) as [v db']. exact H.
Qed.

Lemma check_domains_sound E domains w :
  cache_sound (db w) -> cache_sound (db (snd (check_domains E domains w))).
Proof.
  revert w. induction domains as [|d ds IH]; intros w Hdb; cbn; [exact Hdb|].
  destruct (check_domain_exists E (clock E (tick w)) (db w) d) as [ok db'] eqn:Hcheck.
  assert (Hdb' : cache_sound db').
  { apply (cache_sound_same_table (db w)); [|exact Hdb].
    unfold check_domain_exists in Hcheck.
    destruct (get_dns_cache _ _ _); [now injection Hcheck as _ <-|].
    destruct (gethostbyname E _); now injection Hcheck as _ <-. }
  specialize (IH {| tick := S (tick w); db := db'; ddg := ddg w |} Hdb').
  destruct (check_domains E ds _) as [existing w'']. exact IH.
Qed.

Lemma filter_existing_domains_sound E urls w :
  cache_sound (db w) -> cache_sound (db (snd (filter_existing_domains E urls w))).
Proof.
  intros Hdb. unfold filter_existing_domains.
  pose proof (check_domains_sound E (dedup (map bare_domain urls)) w Hdb) as H.
  destruct (check_domains E _ w) as [existing w']. exact H.
Qed.

Lemma search_attempts_db n E query w :
  db (snd (search_attempts n E query w)) = db w.
Proof.
  revert w. induction n as [|n IH]; intros w; cbn; [reflexivity|].
  destruct (call _ _ _ _) as [res cb].
  destruct res; cbn; try reflexivity. now rewrite IH.
Qed.

(** ** Loops that may return *)

Lemma for_each_inv {A S R : Type} (body : A -> S -> flow S R)
    (Q : A -> Prop) (I : S -> Prop) (P : R -> Prop) :
  (forall x s, Q x -> I s -> match body x s with Go s' => I s' | Stop r => P r end) ->
  forall l s, Forall Q l -> I s ->
    match for_each body l s with Go s' => I s' | Stop r => P r end.
Proof.
  intros Hbody. induction l as [|x l IH]; intros s Hl Hs; cbn; [exact Hs|].
  inversion Hl as [|? ? Hx Hl']; subst.
  specialize (Hbody x s Hx Hs).
  destruct (body x s) as [s'|r]; [now apply IH|exact Hbody].
Qed.

Lemma Forall_True {A : Type} (l : list A) : Forall (fun _ => True) l.
Proof. induction l; constructor; auto. Qed.

(** ** Strategy 1 *)

Lemma domain_quality_nonneg domain hotel_name : (0 <= domain_quality domain hotel_name)%Q.
Proof.
  unfold domain_quality.
  repeat match goal with |- context [if ?c then _ else _] => destruct c end;
    discriminate.
Qed.

Lemma found_dict url score source :
  (0 <= score)%Q -> (score <= 100)%Q -> In source Sources ->
  is_found [("url", PyStr url); ("score", PyFloat score); ("source", PyStr source)].
Proof. intros. exists url, score, source. auto. Qed.

Lemma guess_body_inv E hotel_name city domain s :
  guess_inv s ->
  match guess_body E hotel_name city domain s with
  | Go s' => guess_inv s'
  | Stop r => found_in r
  end.
Proof.
  intros (Hdb & Hbest & Hres). unfold guess_body.
  set (w1 := {| tick := S (tick (guess_world s)); db := db (guess_world s);
                ddg := ddg (guess_world s) |}).
  assert (Hkeep : forall relevant w', cache_sound (db w') ->
    guess_inv {| domain_any_checked := true;
                 domain_any_relevant := relevant || domain_any_relevant s;
                 domain_any_valid := domain_any_valid s;
                 best_result := best_result s; best_score := best_score s;
                 guess_world := w' |}).
  { intros relevant w' Hw'. split; [exact Hw'|]. split; [exact Hbest|exact Hres]. }
  destruct (requests_head E _ domain) as [[status location]|]; [|now apply Hkeep].
  destruct (Zmem status [200; 301; 302; 303; 307; 308]%Z); [|now apply Hkeep].
  set (final_url := if Zmem status _ then _ else domain).
  destruct (negb (_is_relevant_domain E hotel_name final_url)); [now apply Hkeep|].
  pose proof (validate_in_sound E w1 final_url (Some hotel_name) (Some city) Hdb)
    as [Hconf Hw2].
  destruct (validate_in E w1 final_url (Some hotel_name) (Some city)) as [validation w2].
  cbn [fst snd] in Hconf, Hw2.
  destruct (is_hotel validation); [|now apply Hkeep].
  destruct (calculate_score E hotel_name final_url hotel_name) as [cs|] eqn:Hcs;
    [|now apply Hkeep].
  apply calculate_score_range in Hcs as [Hcs0 _].
  set (score1 := Qmin (cs + half (confidence validation)) 100).
  set (score := Qmin (score1 + domain_quality domain hotel_name) 100).
  assert (Hscore : (0 <= score)%Q /\ (score <= 100)%Q).
  { apply Qmin_100_range.
    apply Qle_trans with (0 + 0)%Q; [apply Qle_refl|].
    apply Qplus_le_compat; [|apply domain_quality_nonneg].
    apply boosted_range; [exact Hcs0|lia]. }
  destruct Hscore as [Hs0 Hs100].
  assert (Hnew : is_found [("url", PyStr final_url); ("score", PyFloat score);
                           ("source", PyStr "domain_guess")]).
  { apply found_dict; [exact Hs0|exact Hs100|now left]. }
  destruct (Qltb (best_score s) score) eqn:Hbetter.
  - destruct (Qgeb score 85).
    + exists [("url", PyStr final_url); ("score", PyFloat score);
              ("source", PyStr "domain_guess")]. cbn. auto.
    + split; [exact Hw2|]. split; [exact Hs0|exact Hnew].
  - destruct (Qgeb score 85) eqn:Hhigh.
    + cbn [best_result]. destruct (best_result s) as [d|].
      * exists d. cbn. auto.
      * exfalso. rewrite Hres in Hbetter. apply Qltb_ge in Hbetter.
        apply Qgeb_ge in Hhigh.
        assert (H85 : (85 <= 0)%Q) by (eapply Qle_trans; eassumption).
        exact (H85 eq_refl).
    + split; [exact Hw2|]. split; [exact Hbest|exact Hres].
Qed.

Lemma guess_strategy_ok E hotel_name city parts w :
  cache_sound (db w) ->
  match guess_strategy E hotel_name city parts w with
  | Go (reason, w') => reason_ok reason /\ cache_sound (db w')
  | Stop r => found_in r
  end.
Proof.
  intros Hdb. unfold guess_strategy.
  destruct (String.length (clean_name parts) <? 3)%nat; [split; [exact I|exact Hdb]|].
  pose proof (filter_existing_domains_sound E
                (url_variants (prioritize (domain_variants_before_priority parts))) w Hdb)
    as Hw1.
  destruct (filter_existing_domains E _ w) as [urls w1]. cbn [snd] in Hw1.
  set (s0 := {| domain_any_checked := false; domain_any_relevant := false;
                domain_any_valid := false; best_result := None; best_score := 0%Q;
                guess_world := w1 |}).
  assert (H0 : guess_inv s0).
  { split; [exact Hw1|]. split; [apply Qle_refl|reflexivity]. }
  pose proof (for_each_inv (guess_body E hotel_name city) (fun _ => True) guess_inv found_in
                (fun x s _ Hs => guess_body_inv E hotel_name city x s Hs)
                urls s0 (Forall_True urls) H0) as Hloop.
  destruct (for_each (guess_body E hotel_name city) urls s0) as [s|r]; [|exact Hloop].
  destruct Hloop as (Hs & _ & Hres).
  destruct (best_result s) as [d|].
  - exists d. cbn. auto.
  - split; [|exact Hs].
    destruct (domain_any_checked s && negb (domain_any_valid s)); [|exact I].
    destruct (domain_any_relevant s); cbn; auto.
Qed.

(** ** Strategy 2 *)

Lemma build_candidates_scores E hotel_name links cands :
  build_candidates E hotel_name links = Some cands ->
  Forall (fun c => (0 <= snd c)%Q) cands.
Proof.
  revert cands. induction links as [|[href text] links IH]; cbn [build_candidates];
    intros cands; [intros [= <-]; constructor|].
  repeat match goal with
         | |- context [if ?c then _ else _] => destruct c
         | |- context [match query_param ?e ?k ?h with _ => _ end] =>
             destruct (query_param e k h) as [[?|]|]
         | |- context [match tldextract ?e ?h with _ => _ end] =>
             destruct (tldextract e h) as [[? ?]|]
         end;
    try (apply IH);
    match goal with
    | |- context [calculate_score ?e ?n ?h ?t] =>
        destruct (calculate_score e n h t) as [score|] eqn:Hcs; [|discriminate];
        apply calculate_score_range in Hcs as [Hcs _];
        destruct (build_candidates E hotel_name links) as [rest|]; [|discriminate];
        specialize (IH rest eq_refl);
        destruct (Qltb 10 score); intros [= <-]; [constructor|]; assumption
    end.
Qed.

Lemma insert_by_score_Forall (P : string * Q -> Prop) x l :
  P x -> Forall P l -> Forall P (insert_by_score x l).
Proof.
  intros Hx. induction 1 as [|y l Hy Hl IH]; cbn; [now repeat constructor|].
  destruct (Qltb (snd x) (snd y)); repeat constructor; assumption.
Qed.

Lemma sort_by_score_desc_Forall (P : string * Q -> Prop) l :
  Forall P l -> Forall P (sort_by_score_desc l).
Proof.
  induction 1 as [|x l Hx _ IH]; cbn; [constructor|].
  now apply insert_by_score_Forall.
Qed.

Lemma candidate_body_inv E hotel_name city candidate s :
  (0 <= snd candidate)%Q ->
  cache_sound (db (search_world s)) ->
  match candidate_body E hotel_name city candidate s with
  | Go s' => cache_sound (db (search_world s'))
  | Stop r => search_exit_ok r
  end.
Proof.
  intros Hscore Hdb. unfold candidate_body. destruct candidate as [url score].
  cbn [snd] in Hscore.
  destruct (negb (_is_relevant_domain E hotel_name url)); [exact Hdb|].
  pose proof (validate_in_sound E (search_world s) url (Some hotel_name) (Some city) Hdb)
    as [Hconf Hw'].
  destruct (validate_in E (search_world s) url (Some hotel_name) (Some city))
    as [validation w'].
  cbn [fst snd] in Hconf, Hw'.
  destruct (is_hotel validation); [|exact Hw'].
  split; [|exact Hw'].
  destruct (boosted_range score (confidence validation) Hscore) as [H0 H100]; [lia|].
  apply found_dict; [exact H0|exact H100|right; now left].
Qed.

Lemma query_body_inv E hotel_name city search_query s :
  cache_sound (db (search_world s)) ->
  match query_body E hotel_name city search_query s with
  | Go s' => cache_sound (db (search_world s'))
  | Stop r => search_exit_ok r
  end.
Proof.
  intros Hdb. unfold query_body, search_ddg_html.
  pose proof (search_attempts_db 3 E search_query (search_world s)) as Hsame.
  destruct (search_attempts 3 E search_query (search_world s)) as [res w1].
  cbn [snd] in Hsame.
  assert (Hw1 : cache_sound (db w1)) by now rewrite Hsame.
  destruct res as [html|exn]; [|exact Hw1].
  destruct (search_links E html) as [links|]; [|exact Hw1].
  destruct (build_candidates E hotel_name (firstn 50 links)) as [cands|] eqn:Hc;
    [|exact Hw1].
  apply build_candidates_scores in Hc.
  destruct cands as [|c cands]; [exact Hw1|].
  apply (for_each_inv (candidate_body E hotel_name city) (fun c => (0 <= snd c)%Q)
           (fun s => cache_sound (db (search_world s))) search_exit_ok).
  - intros x s' Hx Hs'. now apply candidate_body_inv.
  - now apply sort_by_score_desc_Forall.
  - exact Hw1.
Qed.

Lemma search_strategy_ok E hotel_name city w :
  cache_sound (db w) -> search_exit_ok (search_strategy E hotel_name city w).
Proof.
  intros Hdb. unfold search_strategy.
  set (queries := match state (ddg w) with OPEN => [] | _ => _ end).
  pose proof (for_each_inv (query_body E hotel_name city) (fun _ => True)
                (fun s => cache_sound (db (search_world s))) search_exit_ok
                (fun x s _ Hs => query_body_inv E hotel_name city x s Hs)
                queries
                {| ddg_any_candidates := false; ddg_any_relevant := false;
                   search_world := w |} (Forall_True queries) Hdb) as Hloop.
  destruct (for_each _ queries _) as [s|r]; exact Hloop.
Qed.

(** ** Strategy 3 *)

Lemma alt_body_inv E hotel_name city alt_name tld s :
  cache_sound (db (alt_world s)) ->
  match alt_body E hotel_name city alt_name tld s with
  | Go s' => cache_sound (db (alt_world s'))
  | Stop r => found_in r
  end.
Proof.
  intros Hdb. unfold alt_body.
  set (domain := "http://" +++ alt_name +++ tld).
  set (w1 := {| tick := S (tick (alt_world s)); db := db (alt_world s);
                ddg := ddg (alt_world s) |}).
  destruct (requests_head E _ domain) as [[status location]|]; [|exact Hdb].
  destruct (Zmem status [200; 301; 302; 307; 308]%Z); [|exact Hdb].
  set (final_url := if negb (status =? 200)%Z then _ else domain).
  destruct (negb (_is_relevant_domain E hotel_name final_url)); [exact Hdb|].
  pose proof (validate_in_sound E w1 final_url (Some hotel_name) (Some city) Hdb)
    as [Hconf Hw2].
  destruct (validate_in E w1 final_url (Some hotel_name) (Some city)) as [validation w2].
  cbn [fst snd] in Hconf, Hw2.
  destruct (is_hotel validation); [|exact Hw2].
  destruct (calculate_score E hotel_name final_url hotel_name) as [cs|] eqn:Hcs;
    [|exact Hw2].
  apply calculate_score_range in Hcs as [Hcs0 _].
  destruct (boosted_range cs (confidence validation) Hcs0) as [H0 H100]; [lia|].
  eexists. cbn [fst snd]. split; [reflexivity|]. split; [|exact Hw2].
  apply found_dict; [exact H0|exact H100|right; right; now left].
Qed.

Lemma alt_strategy_ok E hotel_name city cleaned w :
  cache_sound (db w) ->
  match alt_strategy E hotel_name city cleaned w with
  | Go a => cache_sound (db (alt_world a))
  | Stop r => found_in r
  end.
Proof.
  intros Hdb. unfold alt_strategy.
  destruct (String.length (strip cleaned) <? 2)%nat; [exact Hdb|].
  apply (for_each_inv (alt_body E hotel_name city (strip cleaned)) (fun _ => True)
           (fun s => cache_sound (db (alt_world s))) found_in).
  - intros x s _ Hs. now apply alt_body_inv.
  - apply Forall_True.
  - exact Hdb.
Qed.

(** ** [find_website] *)

(** Membership in a list of literals. *)
Ltac in_literals := cbn; repeat (try (left; reflexivity); right).

(** The reasons that the end of [find_website] can produce. *)
Lemma final_reason_ok (reason : option string) :
  reason_ok reason ->
  In (match reason with Some r => r | None => "no_match" end) ReasonCode.
Proof.
  destruct reason as [r|]; cbn [reason_ok]; [auto|].
  intros _. in_literals.
Qed.

Lemma found_not_not_found d : is_found d -> ~ is_not_found d.
Proof.
  intros (url & score & source & -> & _) (reason & Heq & _). discriminate.
Qed.

Lemma found_no_reason d : is_found d -> py_get "reason" d = None.
Proof. intros (url & score & source & -> & _). reflexivity. Qed.

Lemma not_found_no_url d : is_not_found d -> py_get "url" d = Some PyNone.
Proof. intros (reason & -> & _). reflexivity. Qed.

(** C1 (amended). For every name that is not blank, every city, every
    behaviour of the network and every validation cache whose confidences
    lie between 0 and 100, [find_website] returns a dict of exactly one of
    two shapes: a found result with a URL, a score between 0 and 100, a
    source among [domain_guess], [ddg_search], [alternative_tld] and no
    reason; or a not-found result whose URL is [None] and whose reason is
    of the closed set.  The cache that it leaves has again confidences
    between 0 and 100.  (For a blank name it returns [None].) *)
Theorem find_website_shape E w name city :
  cache_sound (db w) ->
  is_empty (strip (or_empty name)) = false ->
  exists d,
    fst (find_website E w name city) = Some d
    /\ ((is_found d /\ py_get "reason" d = None)
        \/ (is_not_found d /\ py_get "url" d = Some PyNone))
    /\ ~ (is_found d /\ is_not_found d)
    /\ cache_sound (db (snd (find_website E w name city))).
Proof.
  intros Hdb Hname.
  assert (Hfound : forall r : option pydict * world, found_in r ->
    exists d, fst r = Some d
      /\ ((is_found d /\ py_get "reason" d = None)
          \/ (is_not_found d /\ py_get "url" d = Some PyNone))
      /\ ~ (is_found d /\ is_not_found d)
      /\ cache_sound (db (snd r))).
  { intros r (d & Hr & Hd & Hs). exists d. split; [exact Hr|].
    split; [left; split; [exact Hd|now apply found_no_reason]|].
    split; [|exact Hs]. intros [_ Hn]. now apply (found_not_not_found d). }
  unfold find_website. rewrite Hname.
  set (hotel_name := strip (or_empty name)).
  set (city' := lower (strip (or_empty city))).
  pose proof (guess_strategy_ok E hotel_name city' (clean_hotel_name hotel_name) w Hdb)
    as H1.
  destruct (guess_strategy E hotel_name city' (clean_hotel_name hotel_name) w)
    as [[reason w1]|r]; [|now apply Hfound].
  destruct H1 as [Hreason Hw1].
  pose proof (search_strategy_ok E hotel_name city' w1 Hw1) as H2.
  destruct (search_strategy E hotel_name city' w1) as [d w2|s].
  { destruct H2 as [Hd Hw2]. apply (Hfound (Some d, w2)). exists d. auto. }
  cbn [search_exit_ok] in H2.
  pose proof (alt_strategy_ok E hotel_name city'
                (clean_name (clean_hotel_name hotel_name)) (search_world s) H2) as H3.
  destruct (alt_strategy E hotel_name city' _ (search_world s)) as [a|r];
    [|now apply Hfound].
  set (reason2 := match reason with Some r => Some r | None => _ end).
  set (reason3 := match reason2 with Some r => Some r | None => _ end).
  assert (Hr3 : reason_ok reason3).
  { subst reason3 reason2. destruct reason as [r|]; [exact Hreason|].
    cbn [negb andb].
    destruct (ddg_any_candidates s); cbn [negb andb].
    - destruct (ddg_any_relevant s); in_literals.
    - in_literals. }
  assert (Hnf : is_not_found
                  [("url", PyNone);
                   ("reason", PyStr match reason3 with Some r => r | None => "no_match" end)]).
  { eexists. split; [reflexivity|]. now apply final_reason_ok. }
  eexists. cbn [fst snd]. split; [reflexivity|].
  split; [right; split; [exact Hnf|reflexivity]|].
  split; [|exact H3]. intros [Hf _]. now apply (found_not_not_found _ Hf).
Qed.


Lemma find_website_shape_witness :
  exists d,
    fst (find_website resort_env example_world (Some "ALEXIA RESORT & SPA HOTEL")
           (Some "ANTALYA")) = Some d
    /\ ((is_found d /\ py_get "reason" d = None)
        \/ (is_not_found d /\ py_get "url" d = Some PyNone)).
Proof.
  destruct (find_website_shape resort_env example_world (Some "ALEXIA RESORT & SPA HOTEL")
              (Some "ANTALYA") cache_sound_empty eq_refl) as (d & Hd & Hshape & _).
  exact (ex_intro _ d (conj Hd Hshape)).
Defined.

(** C1 as stated fails: for a blank name [find_website] returns [None],
    which is of neither shape. *)
Lemma find_website_blank_counterexample :
  fst (find_website example_env example_world (Some "   ") (Some "Izmir")) = None
  /\ ~ (exists d,
          fst (find_website example_env example_world (Some "   ") (Some "Izmir")) = Some d
          /\ (is_found d \/ is_not_found d)).
Proof.
  split; [reflexivity|]. intros (d & Hd & _). discriminate.
Qed.

(** ** Domain variants *)

Lemma insert_by_len_sorted x l :
  Sorted (fun a b => String.length b <= String.length a)%nat l ->
  Sorted (fun a b => String.length b <= String.length a)%nat (insert_by_len x l).
Proof.
  induction 1 as [|y l Hl IH Hhd]; cbn [insert_by_len]; [repeat constructor|].
  destruct (String.length x <? String.length y)%nat eqn:Hlt.
  - apply Nat.ltb_lt in Hlt. constructor; [exact IH|].
    destruct l as [|z l]; cbn [insert_by_len].
    + constructor. lia.
    + inversion Hhd; subst.
      destruct (String.length x <? String.length z)%nat; constructor; lia.
  - apply Nat.ltb_ge in Hlt. constructor; [now constructor|]. now constructor.
Qed.

(** Every bucket of the priority sort is in order of falling length. *)
Lemma sort_by_len_desc_sorted l :
  Sorted (fun a b => String.length b <= String.length a)%nat (sort_by_len_desc l).
Proof.
  induction l as [|x l IH]; cbn [sort_by_len_desc fold_right]; [constructor|].
  now apply insert_by_len_sorted.
Qed.

(** C6 (the code at the input of the claim). For the name
    [ALEXIA RESORT & SPA HOTEL] the list of variants contains both
    [alexiaresort] and [alexiahotel], but after the priority sort
    [alexiahotel] stands before [alexiaresort]: a variant that ends in
    [hotel] ends in [otel] and is put into the second bucket, ahead of the
    variants without [hotel]. *)
Theorem alexia_variants_order :
  domain_variants "ALEXIA RESORT & SPA HOTEL"
  = ["alexia-hotel"; "alexiahotel"; "alexia-resort-spa"; "alexiaresortspa";
     "alexia-resort"; "alexiaresort"; "hotel-alexia"; "hotelalexia"]
  /\ has_otel_not_oteli
       (domain_variants_before_priority (clean_hotel_name "ALEXIA RESORT & SPA HOTEL"))
     = ["alexiahotel"; "alexia-hotel"]
  /\ no_hotel_keyword
       (domain_variants_before_priority (clean_hotel_name "ALEXIA RESORT & SPA HOTEL"))
     = ["alexiaresort"; "alexia-resort"; "alexiaresortspa"; "alexia-resort-spa"].
Proof. repeat split; vm_compute; reflexivity. Qed.

(** ** Examples *)

(** A call through an open breaker whose recovery time has passed runs
    the function; its failure opens the breaker again. *)
Example call_probe_fails :
  let cb := fold_left cb_apply
              [EvFailure 96; EvFailure 97; EvFailure 98; EvFailure 99; EvFailure 100]%Q
              ddg_circuit in
  fst (call 130%Q 131%Q (Returned "page") cb) = CircuitOpenError
  /\ fst (call 160%Q 161%Q (Returned "page") cb) = CallOk "page"
  /\ fst (call 160%Q 161%Q (@Raised string "Timeout") cb) = CallFailed "Timeout"
  /\ state (snd (call 160%Q 161%Q (@Raised string "Timeout") cb)) = OPEN
  /\ last_failure_time (snd (call 160%Q 161%Q (@Raised string "Timeout") cb)) = 161%Q.
Proof. repeat split; reflexivity. Qed.

Example is_valid_email_examples :
  map is_valid_email
      ["info@hotel.com"; " Info@Hotel.COM "; "logo@2x.png"; "noreply@hotel.com";
       "1234@hotel.com"; "a@b"; "a@b@c.com"; "x@example.com"]
  = [true; true; false; false; false; false; false; false].
Proof. vm_compute. reflexivity. Qed.

(** The scores of the addresses in the scenarios of the specification. *)
Example score_email_examples :
  score_email "info@foo.com" "www.foo.com" = 90%Z
  /\ score_email "reservations@acme.com" "acme.com" = 70%Z
  /\ score_email "owner@gmail.com" "hotel.com" = (-20)%Z.
Proof. repeat split; reflexivity. Qed.

(** The boundary cases of the specification for the name normalizer. *)
Example residence_variants :
  In "hotel1207" (domain_variants "1207 RESIDENCE OTEL")
  /\ In "residenceotel" (domain_variants "1207 RESIDENCE OTEL").
Proof. split; vm_compute; tauto. Qed.

Example pearl_variants :
  In "pearlhotelistanbul" (firstn 10 (domain_variants "PEARL ISTANBUL HOUSE")).
Proof. vm_compute. tauto. Qed.

(** Without a reachable site the discovery ends with a reason. *)
Example find_website_nothing :
  fst (find_website example_env example_world (Some "HOTEL THAT DOES NOT EXIST XYZ")
         (Some "IZMIR"))
  = Some [("url", PyNone); ("reason", PyStr "ddg_no_candidates")].
Proof. vm_compute. reflexivity. Qed.

(** ** Circuit breaker: thresholds *)

Lemma cb_counts_step (cb : CircuitBreaker) (e : cb_event) :
  (0 < failure_threshold (config cb))%Z ->
  (0 < success_threshold (config cb))%Z ->
  (0 <= failure_count cb)%Z
  /\ (state cb = CLOSED -> (failure_count cb < failure_threshold (config cb))%Z)
  /\ (state cb = HALF_OPEN ->
        (0 <= success_count cb < success_threshold (config cb))%Z) ->
  (0 <= failure_count (cb_apply cb e))%Z
  /\ (state (cb_apply cb e) = CLOSED ->
        (failure_count (cb_apply cb e) < failure_threshold (config cb))%Z)
  /\ (state (cb_apply cb e) = HALF_OPEN ->
        (0 <= success_count (cb_apply cb e) < success_threshold (config cb))%Z).
Proof.
  intros Hf Hs (Hfc & Hclosed & Hhalf).
  destruct e as [now| |now|]; cbn [cb_apply].
  - unfold _should_allow_request.
    destruct (state cb) eqn:Hst; cbn [snd]; [rewrite Hst; auto..| |rewrite Hst; auto].
    destruct (Qgeb _ _); cbn [snd state failure_count success_count].
    + repeat split; try lia; discriminate.
    + rewrite Hst. repeat split; auto; discriminate.
  - unfold record_success.
    destruct (state cb) eqn:Hst; cbn [state failure_count success_count].
    + repeat split; try lia; discriminate.
    + repeat split; try lia; discriminate.
    + specialize (Hhalf eq_refl).
      destruct (success_threshold (config cb) <=? success_count cb + 1)%Z eqn:Hle.
      * repeat split; try lia; discriminate.
      * apply Z.leb_gt in Hle. repeat split; try lia.
  - unfold record_failure; cbn [state failure_count success_count].
    destruct (state cb) eqn:Hst.
    + destruct (failure_threshold (config cb) <=? failure_count cb + 1)%Z eqn:Hle.
      * repeat split; try lia; discriminate.
      * apply Z.leb_gt in Hle. repeat split; try lia; discriminate.
    + repeat split; try lia; discriminate.
    + repeat split; try lia; discriminate.
  - unfold reset; cbn [state failure_count success_count].
    repeat split; try lia; discriminate.
Qed.

(** X1.  While a breaker is closed it has counted fewer consecutive
    failures than [failure_threshold], and while it is half-open fewer
    successes than [success_threshold]: no sequence of calls, results and
    resets leaves it closed at or above the failure threshold. *)
Theorem breaker_counts_below_thresholds n c cb :
  (0 < failure_threshold c)%Z ->
  (0 < success_threshold c)%Z ->
  cb_reachable n c cb ->
  (0 <= failure_count cb)%Z
  /\ (state cb = CLOSED -> (failure_count cb < failure_threshold c)%Z)
  /\ (state cb = HALF_OPEN -> (0 <= success_count cb < success_threshold c)%Z).
Proof.
  intros Hf Hs Hreach.
  induction Hreach as [|cb e Hreach IH].
  - cbn. repeat split; try lia; discriminate.
  - destruct (cb_reachable_config _ _ _ Hreach) as [Hc _].
    pose proof (cb_counts_step cb e) as Hstep.
    rewrite Hc in Hstep. apply Hstep; assumption.
Qed.

Lemma breaker_counts_below_thresholds_witness :
  let cb := fold_left cb_apply [EvFailure 1; EvFailure 2; EvSuccess; EvFailure 3]%Q
              ddg_circuit in
  state cb = CLOSED /\ (failure_count cb < 5)%Z.
Proof.
  assert (Hreach : cb_reachable "duckduckgo" (config ddg_circuit)
            (fold_left cb_apply [EvFailure 1; EvFailure 2; EvSuccess; EvFailure 3]%Q
               ddg_circuit)).
  { cbn [fold_left]. repeat apply reach_step. apply reach_init. }
  assert (Hf : (0 < failure_threshold (config ddg_circuit))%Z) by (cbn; lia).
  assert (Hs : (0 < success_threshold (config ddg_circuit))%Z) by (cbn; lia).
  pose proof (breaker_counts_below_thresholds _ _ _ Hf Hs Hreach) as (_ & Hclosed & _).
  split; [reflexivity|]. exact (Hclosed eq_refl).
Defined.

Lemma record_failure_config now cb : config (record_failure now cb) = config cb.
Proof. reflexivity. Qed.

Lemma failures_open cb ts :
  state cb = OPEN -> state (fold_left cb_apply (map EvFailure ts) cb) = OPEN.
Proof.
  revert cb. induction ts as [|t ts IH]; intros cb Hst; cbn; [assumption|].
  apply IH. unfold record_failure; cbn. now rewrite Hst.
Qed.

(** X2.  A closed breaker opens at the failure that brings the count of
    consecutive failures to [failure_threshold], and not before: after
    the failures [ts] it is closed exactly when the count is still below
    the threshold. *)
Theorem consecutive_failures_open cb ts :
  state cb = CLOSED ->
  (failure_count cb < failure_threshold (config cb))%Z ->
  state (fold_left cb_apply (map EvFailure ts) cb)
  = if (failure_count cb + Z.of_nat (List.length ts) <? failure_threshold (config cb))%Z
    then CLOSED else OPEN.
Proof.
  revert cb. induction ts as [|t ts IH]; intros cb Hst Hlt.
  - cbn [List.length map fold_left]. rewrite Z.add_0_r.
    apply Z.ltb_lt in Hlt. now rewrite Hlt.
  - cbn [map fold_left cb_apply].
    destruct (failure_threshold (config cb) <=? failure_count cb + 1)%Z eqn:Hle.
    + rewrite failures_open.
      * apply Z.leb_le in Hle.
        destruct (Z.ltb_spec (failure_count cb + Z.of_nat (List.length (t :: ts)))
                    (failure_threshold (config cb))) as [H|H]; [|reflexivity].
        cbn [List.length] in H. lia.
      * unfold record_failure; cbn. now rewrite Hst, Hle.
    + apply Z.leb_gt in Hle.
      rewrite IH.
      * rewrite record_failure_config.
        replace (failure_count (record_failure t cb) + Z.of_nat (List.length ts))%Z
          with (failure_count cb + Z.of_nat (List.length (t :: ts)))%Z; [reflexivity|].
        unfold record_failure; cbn [failure_count List.length]. lia.
      * unfold record_failure; cbn. rewrite Hst.
        apply Z.leb_gt in Hle. now rewrite Hle.
      * rewrite record_failure_config. unfold record_failure; cbn. lia.
Qed.

Lemma consecutive_failures_open_witness :
  state (fold_left cb_apply (map EvFailure [1; 2; 3; 4]%Q) ddg_circuit) = CLOSED
  /\ state (fold_left cb_apply (map EvFailure [1; 2; 3; 4; 5]%Q) ddg_circuit) = OPEN.
Proof.
  split.
  - assert (Hlt : (failure_count ddg_circuit
                     < failure_threshold (config ddg_circuit))%Z) by (cbn; lia).
    exact (consecutive_failures_open ddg_circuit [1; 2; 3; 4]%Q eq_refl Hlt).
  - assert (Hlt : (failure_count ddg_circuit
                     < failure_threshold (config ddg_circuit))%Z) by (cbn; lia).
    exact (consecutive_failures_open ddg_circuit [1; 2; 3; 4; 5]%Q eq_refl Hlt).
Defined.

Lemma record_success_config cb : config (record_success cb) = config cb.
Proof. unfold record_success. now destruct (state cb). Qed.

Lemma successes_closed cb k :
  state cb = CLOSED -> state (fold_left cb_apply (repeat EvSuccess k) cb) = CLOSED.
Proof.
  revert cb. induction k as [|k IH]; intros cb Hst; cbn; [assumption|].
  apply IH. unfold record_success. now rewrite Hst.
Qed.

(** X3.  A half-open breaker closes at the success that brings the count
    of successes to [success_threshold], and not before; every success
    clears the count of failures. *)
Theorem half_open_recovery cb k :
  state cb = HALF_OPEN ->
  (success_count cb < success_threshold (config cb))%Z ->
  state (fold_left cb_apply (repeat EvSuccess k) cb)
  = (if (success_count cb + Z.of_nat k <? success_threshold (config cb))%Z
     then HALF_OPEN else CLOSED)
  /\ ((0 < k)%nat -> failure_count (fold_left cb_apply (repeat EvSuccess k) cb) = 0%Z).
Proof.
  intros Hst Hlt. split.
  - revert cb Hst Hlt. induction k as [|k IH]; intros cb Hst Hlt.
    + cbn [repeat fold_left]. rewrite Z.add_0_r.
      apply Z.ltb_lt in Hlt. now rewrite Hlt.
    + cbn [repeat fold_left cb_apply].
      destruct (success_threshold (config cb) <=? success_count cb + 1)%Z eqn:Hle.
      * rewrite successes_closed.
        -- apply Z.leb_le in Hle.
           destruct (Z.ltb_spec (success_count cb + Z.of_nat (S k))
                       (success_threshold (config cb))) as [H|H]; [lia|reflexivity].
        -- unfold record_success. rewrite Hst. cbn. now rewrite Hle.
      * assert (Hst' : state (record_success cb) = HALF_OPEN).
        { unfold record_success. rewrite Hst. cbn. now rewrite Hle. }
        assert (Hsc : success_count (record_success cb) = (success_count cb + 1)%Z).
        { unfold record_success. now rewrite Hst. }
        apply Z.leb_gt in Hle.
        rewrite IH; [|assumption|rewrite record_success_config, Hsc; lia].
        rewrite record_success_config, Hsc.
        replace (success_count cb + 1 + Z.of_nat k)%Z
          with (success_count cb + Z.of_nat (S k))%Z by lia.
        reflexivity.
  - intros Hk. clear Hlt Hst.
    assert (Hlast : forall j c0, failure_count
              (fold_left cb_apply (repeat EvSuccess (S j)) c0) = 0%Z).
    { induction j as [|j IH]; intros c0.
      - cbn. unfold record_success. now destruct (state c0).
      - change (repeat EvSuccess (S (S j))) with (EvSuccess :: repeat EvSuccess (S j)).
        cbn [fold_left]. apply IH. }
    destruct k as [|k]; [lia|]. apply Hlast.
Qed.

Lemma half_open_recovery_witness :
  let cb := snd (_should_allow_request 160%Q
                   (fold_left cb_apply (map EvFailure [1; 2; 3; 4; 5]%Q) ddg_circuit)) in
  state cb = HALF_OPEN
  /\ state (fold_left cb_apply (repeat EvSuccess 1) cb) = HALF_OPEN
  /\ state (fold_left cb_apply (repeat EvSuccess 2) cb) = CLOSED.
Proof.
  cbv zeta.
  set (cb := snd (_should_allow_request 160%Q
                    (fold_left cb_apply (map EvFailure [1; 2; 3; 4; 5]%Q) ddg_circuit))).
  assert (Hst : state cb = HALF_OPEN) by reflexivity.
  assert (Hlt : (success_count cb < success_threshold (config cb))%Z) by reflexivity.
  exact (conj Hst (conj (proj1 (half_open_recovery cb 1 Hst Hlt))
                        (proj1 (half_open_recovery cb 2 Hst Hlt)))).
Defined.

(** ** The search request *)

Lemma call_failed {A : Type} ta tf (f : outcome A) cb e cb' :
  call ta tf f cb = (CallFailed e, cb') ->
  f = Raised e /\ failure_count cb' = (failure_count cb + 1)%Z.
Proof.
  unfold call, _should_allow_request.
  destruct (state cb); [|destruct (Qgeb _ _)|];
    destruct f as [a|x]; intros H; inversion H; subst; split; reflexivity.
Qed.

(** X4.  [search_ddg_html] raises nothing but the [RetryError] of the
    retry decorator, and only after three requests that all failed; each
    of the three failures is counted by the breaker. *)
Theorem search_ddg_html_raises E query w exn :
  fst (search_ddg_html E query w) = Raised exn ->
  exn = "RetryError"
  /\ (forall i, (i < 3)%nat ->
        exists e, requests_post E (tick w + 2 * i) query = Raised e)
  /\ failure_count (ddg (snd (search_ddg_html E query w))) = (failure_count (ddg w) + 3)%Z
  /\ tick (snd (search_ddg_html E query w)) = (tick w + 6)%nat.
Proof.
  unfold search_ddg_html. cbn [search_attempts].
  destruct (call _ _ (requests_post E (tick w) query) (ddg w)) as [r1 cb1] eqn:H1.
  destruct r1 as [html|e1|]; cbn [fst]; try discriminate.
  cbn [tick ddg db].
  destruct (call _ _ (requests_post E (S (S (tick w))) query) cb1) as [r2 cb2] eqn:H2.
  destruct r2 as [html|e2|]; cbn [fst]; try discriminate.
  cbn [tick ddg db].
  destruct (call _ _ (requests_post E (S (S (S (S (tick w))))) query) cb2)
    as [r3 cb3] eqn:H3.
  destruct r3 as [html|e3|]; cbn [fst snd tick ddg]; try discriminate.
  intros Hexn. inversion Hexn; subst exn.
  apply call_failed in H1 as [Hp1 Hc1].
  apply call_failed in H2 as [Hp2 Hc2].
  apply call_failed in H3 as [Hp3 Hc3].
  split; [reflexivity|]. split; [|split; lia].
  intros i Hi.
  destruct i as [|[|[|i]]]; [| | |lia].
  - exists e1. now rewrite Nat.add_0_r.
  - exists e2. now replace (tick w + 2 * 1)%nat with (S (S (tick w))) by lia.
  - exists e3. now replace (tick w + 2 * 2)%nat with (S (S (S (S (tick w))))) by lia.
Qed.

Lemma search_ddg_html_raises_witness :
  fst (search_ddg_html example_env "alexia otel" example_world) = Raised "RetryError"
  /\ failure_count (ddg (snd (search_ddg_html example_env "alexia otel" example_world)))
     = 3%Z.
Proof.
  assert (H : fst (search_ddg_html example_env "alexia otel" example_world)
              = Raised "RetryError") by reflexivity.
  destruct (search_ddg_html_raises _ _ _ _ H) as (_ & _ & Hcount & _).
  exact (conj H Hcount).
Defined.

(** ** Cache store: keys, sweeps and counts *)



Lemma cache_put_key md5 t db k k' p :
  cache_key md5 (ns_of p) k = cache_key md5 (ns_of p) k' ->
  cache_put md5 t db k p = cache_put md5 t db k' p.
Proof.
  destruct p; cbn; intros Hk; unfold set_dns_cache, set_domain_cache,
    set_validation_cache, set_search_cache; now rewrite Hk.
Qed.


(** X5.  A write touches one entry: the lookup of any other namespace, or
    of a key with another primary key, answers after the write what it
    answered before. *)
Theorem cache_put_frame md5 db k p t t' ns k' :
  ns <> ns_of p \/ cache_key md5 ns k' <> cache_key md5 ns k ->
  cache_get md5 t' (cache_put md5 t db k p) ns k' = cache_get md5 t' db ns k'.
Proof.
  intros H.
  destruct p, ns; cbn in H |- *; try reflexivity;
    (destruct H as [H|H]; [congruence|]);
    unfold get_dns_cache, get_domain_cache, get_validation_cache, get_search_cache,
      set_dns_cache, set_domain_cache, set_validation_cache, set_search_cache;
    cbn [dns_cache domain_cache validation_cache search_cache];
    rewrite lookup_insert_ne by congruence; reflexivity.
Qed.

Lemma cache_put_frame_witness :
  let db := cache_put (fun q => q) 10%Q empty_db "hotel.com" (PDns true) in
  cache_get (fun q => q) 20%Q (cache_put (fun q => q) 15%Q db "motel.com" (PDns false))
    NsDns "hotel.com" = Some (PDns true).
Proof.
  cbv zeta.
  rewrite (cache_put_frame (fun q => q)
             (cache_put (fun q => q) 10%Q empty_db "hotel.com" (PDns true))
             "motel.com" (PDns false) 15%Q 20%Q NsDns "hotel.com").
  - reflexivity.
  - right. cbn. discriminate.
Defined.



Lemma delete_before_lookup {A : Type} (at_ : A -> Q) cutoff (t : gmap string A) key :
  delete_before at_ cutoff t !! key
  = match t !! key with
    | Some row => if Qltb (at_ row) cutoff then None else Some row
    | None => None
    end.
Proof.
  unfold delete_before.
  destruct (t !! key) as [row|] eqn:Hrow.
  - destruct (Qltb (at_ row) cutoff) eqn:Hlt.
    + apply map_lookup_filter_None. right. intros x Hx. cbn.
      rewrite Hrow in Hx. inversion Hx; subst. rewrite Hlt. discriminate.
    + apply map_lookup_filter_Some. split; [assumption|]. exact Hlt.
  - apply map_lookup_filter_None. now left.
Qed.

Lemma swept_row_is_stale now t at_ ttl0 cutoff :
  (t <= now)%Q -> (cutoff == t - ttl0)%Q ->
  Qltb at_ cutoff = true -> is_cache_valid now at_ ttl0 = false.
Proof.
  intros Hle Hcut Hlt. apply Qltb_lt in Hlt. apply is_cache_valid_ge.
  rewrite Hcut in Hlt. lra.
Qed.

Lemma delete_before_size {A : Type} (at_ : A -> Q) cutoff (t : gmap string A) :
  size (delete_before at_ cutoff t) <= size t.
Proof.
  unfold delete_before. apply map_size_filter.
Qed.

(** X7.  The sweep of [clear_expired_cache] cannot be seen through the
    lookups: every lookup made at the time of the sweep or later answers
    what it would have answered without the sweep, in all four
    namespaces; and the sweep adds no row to any table. *)
Theorem clear_expired_cache_unobservable md5 t1 t2 now db ns k :
  (t1 <= now)%Q -> (t2 <= now)%Q ->
  cache_get md5 now (clear_expired_cache t1 t2 db) ns k = cache_get md5 now db ns k
  /\ Forall2 (fun a b => fst a = fst b /\ snd a <= snd b)
       (get_cache_stats (clear_expired_cache t1 t2 db)) (get_cache_stats db).
Proof.
  intros H1 H2. split.
  - destruct ns; cbn [cache_get]; f_equal;
      unfold get_dns_cache, get_domain_cache, get_validation_cache, get_search_cache,
        clear_expired_cache;
      cbn [dns_cache domain_cache validation_cache search_cache];
      rewrite delete_before_lookup;
      match goal with
      | |- context [?m !! ?key] => destruct (m !! key) as [row|]; [|reflexivity]
      end;
      match goal with
      | |- context [Qltb ?a ?c] => destruct (Qltb a c) eqn:Hlt; [|reflexivity]
      end.
    + rewrite (swept_row_is_stale now t1 _ CACHE_TTL_SECONDS _ H1 (Qeq_refl _) Hlt).
      reflexivity.
    + rewrite (swept_row_is_stale now t1 _ CACHE_TTL_SECONDS _ H1 (Qeq_refl _) Hlt).
      reflexivity.
    + rewrite (swept_row_is_stale now t1 _ CACHE_TTL_SECONDS _ H1 (Qeq_refl _) Hlt).
      reflexivity.
    + rewrite (swept_row_is_stale now t2 _ SEARCH_TTL_SECONDS _ H2 (Qeq_refl _) Hlt).
      reflexivity.
  - unfold get_cache_stats, rows, clear_expired_cache;
      cbn [dns_cache domain_cache validation_cache search_cache].
    repeat (constructor; [split; [reflexivity|apply delete_before_size]|]).
    constructor.
Qed.

Lemma clear_expired_cache_unobservable_witness :
  let db := cache_put (fun q => q) 700000%Q
              (cache_put (fun q => q) 10%Q empty_db "old.com" (PDns true))
              "new.com" (PDns true) in
  cache_get (fun q => q) 700002%Q (clear_expired_cache 700001 700001 db) NsDns "new.com"
  = Some (PDns true)
  /\ get_cache_stats (clear_expired_cache 700001 700001 db)
     = [("dns_cache", 1); ("domain_cache", 0); ("validation_cache", 0); ("search_cache", 0)].
Proof.
  cbv zeta. split.
  - assert (H : (700001 <= 700002)%Q) by (apply Qle_bool_iff; reflexivity).
    rewrite (proj1 (clear_expired_cache_unobservable (fun q => q) 700001 700001 700002
                      _ NsDns "new.com" H H)).
    reflexivity.
  - vm_compute. reflexivity.
Defined.

Lemma insert_size {A : Type} (m : gmap string A) key (x : A) :
  size (<[key := x]> m) = if bool_decide (is_Some (m !! key)) then size m else S (size m).
Proof.
  case_bool_decide as Hk.
  - now apply map_size_insert_Some.
  - apply map_size_insert_None. now apply eq_None_not_Some.
Qed.

(** X8.  The tables hold one row per primary key: a write adds a row to
    the table of its namespace when the key had none and replaces the row
    when it had one, and it changes the count that [get_cache_stats]
    reports for no other table. *)
Theorem cache_put_rows md5 t db k p :
  rows (cache_put md5 t db k p) (ns_of p)
  = (if has_row db (ns_of p) (cache_key md5 (ns_of p) k)
     then rows db (ns_of p) else S (rows db (ns_of p)))
  /\ (forall ns, ns <> ns_of p -> rows (cache_put md5 t db k p) ns = rows db ns).
Proof.
  split.
  - destruct p; cbn [ns_of cache_put rows has_row cache_key];
      unfold set_dns_cache, set_domain_cache, set_validation_cache, set_search_cache;
      cbn [dns_cache domain_cache validation_cache search_cache];
      apply insert_size.
  - intros ns Hns. destruct p, ns; cbn in Hns |- *; congruence.
Qed.

(** ** DNS pre-check *)

Lemma get_set_dns_cache t t' db d b :
  get_dns_cache t' (set_dns_cache t db d b) d
  = if is_cache_valid t' t CACHE_TTL_SECONDS then Some b else None.
Proof.
  unfold get_dns_cache, set_dns_cache; cbn [dns_cache].
  rewrite lookup_insert_eq; cbn [dns_checked_at domain_exists].
  now rewrite bool_of_int_of_bool.
Qed.

(** X9.  A definite answer of the resolver, that the name exists or that
    it does not, is cached: for seven days the check of the same bare
    domain gives the same answer and leaves the cache as it is, whatever
    the resolver would say then. *)
Theorem dns_answer_is_cached E E' t1 t2 db d :
  bare_domain d = d ->
  get_dns_cache t1 db d = None ->
  gethostbyname E d = Resolved \/ gethostbyname E d = NoSuchHost ->
  (t2 - t1 < CACHE_TTL_SECONDS)%Q ->
  check_domain_exists E' t2 (snd (check_domain_exists E t1 db d)) d
  = check_domain_exists E t1 db d.
Proof.
  intros Hbare Hmiss Hans Hfresh. apply is_cache_valid_lt in Hfresh.
  unfold check_domain_exists at 2 3. rewrite Hmiss, Hbare.
  destruct Hans as [Hans|Hans]; rewrite Hans; cbn [snd];
    unfold check_domain_exists; now rewrite get_set_dns_cache, Hfresh.
Qed.

Lemma dns_answer_is_cached_witness :
  let E' := {| clock := clock resort_env; requests_get := requests_get resort_env;
               requests_head := requests_head resort_env;
               requests_post := requests_post resort_env;
               gethostbyname := fun _ => TimedOut;
               urlparse_netloc := py_netloc; urljoin := py_urljoin;
               tldextract := py_tldextract; query_param := query_param resort_env;
               search_links := search_links resort_env |} in
  fst (check_domain_exists E' 100%Q
         (snd (check_domain_exists resort_env 0%Q empty_db "alexiaresort.com"))
         "alexiaresort.com") = true.
Proof.
  cbv zeta.
  rewrite (dns_answer_is_cached resort_env _ 0%Q 100%Q empty_db "alexiaresort.com").
  - reflexivity.
  - reflexivity.
  - reflexivity.
  - left. reflexivity.
  - reflexivity.
Defined.

Lemma dedup_from_In seen l x :
  In x (dedup_from seen l) <-> In x l /\ ~ In x seen.
Proof.
  revert seen. induction l as [|y l IH]; intros seen; cbn.
  - tauto.
  - destruct (mem y seen) eqn:Hmem.
    + apply mem_In in Hmem. rewrite IH. split.
      * tauto.
      * intros [[->|H] Hn]; tauto.
    + apply mem_not_In in Hmem. cbn. rewrite IH. cbn. split.
      * intros [->|[H Hn]]; [tauto|]. split; [tauto|]. intros Hs. apply Hn. now right.
      * intros [[->|H] Hn]; [now left|].
        destruct (String.eqb_spec y x) as [->|Hne]; [now left|].
        right. split; [assumption|]. intros [Heq|Hs]; [now apply Hne|now apply Hn].
Qed.

Lemma dedup_from_NoDup seen l : List.NoDup (dedup_from seen l).
Proof.
  revert seen. induction l as [|y l IH]; intros seen; cbn.
  - constructor.
  - destruct (mem y seen); [apply IH|].
    constructor; [|apply IH].
    rewrite dedup_from_In. intros [_ Hn]. apply Hn. now left.
Qed.

Lemma dedup_In l x : In x (dedup l) <-> In x l.
Proof. unfold dedup. rewrite dedup_from_In. cbn. tauto. Qed.

Lemma dedup_NoDup l : List.NoDup (dedup l).
Proof. apply dedup_from_NoDup. Qed.

Lemma filter_filter_other {A : Type} (p q : A -> bool) l :
  (forall x, q x = true -> p x = false) ->
  filter q (filter (fun x => negb (p x)) l) = filter q l.
Proof.
  intros H. induction l as [|x l IH]; [reflexivity|].
  cbn. destruct (p x) eqn:Hp; cbn.
  - destruct (q x) eqn:Hq; [|assumption].
    apply H in Hq. congruence.
  - now rewrite IH.
Qed.

Lemma filter_split_perm {A : Type} (p : A -> bool) l :
  Permutation l (filter p l ++ filter (fun x => negb (p x)) l).
Proof.
  induction l as [|x l IH]; [constructor|].
  cbn. destruct (p x); cbn.
  - now constructor.
  - rewrite IH at 1. apply Permutation_middle.
Qed.

Lemma filter_perm {A : Type} (p : A -> bool) l l' :
  Permutation l l' -> Permutation (filter p l) (filter p l').
Proof.
  induction 1 as [|x l l' _ IH|x y l|l l' l'' _ IH1 _ IH2]; cbn.
  - constructor.
  - destruct (p x); [now constructor|assumption].
  - destruct (p x), (p y); try reflexivity. apply perm_swap.
  - now rewrite IH1.
Qed.

Lemma flat_map_ext_In {A B : Type} (f g : A -> list B) l :
  (forall a, In a l -> f a = g a) -> flat_map f l = flat_map g l.
Proof.
  induction l as [|a l IH]; intros H; [reflexivity|].
  cbn. rewrite (H a) by now left. f_equal. apply IH. intros b Hb. apply H. now right.
Qed.

(** The URLs grouped by their key, for the keys selected by [g], are the
    URLs whose key is selected. *)
Lemma group_by_key_perm (f : string -> string) (g : string -> bool) keys urls :
  List.NoDup keys ->
  (forall u, In u urls -> In (f u) keys) ->
  Permutation
    (flat_map (fun d => if g d then filter (fun u => String.eqb (f u) d) urls else []) keys)
    (filter (fun u => g (f u)) urls).
Proof.
  intros Hnd. revert urls. induction Hnd as [|d keys Hnotin Hnd IH]; intros urls Hin.
  - destruct urls as [|u urls]; [constructor|]. destruct (Hin u); now left.
  - cbn [flat_map].
    set (here := fun u => String.eqb (f u) d).
    set (rest := filter (fun u => negb (here u)) urls).
    assert (Hrest : forall u, In u rest -> In (f u) keys).
    { intros u Hu. apply filter_In in Hu as [Hu Hne].
      destruct (Hin u Hu) as [Heq|Hk]; [|assumption].
      unfold here in Hne. rewrite <- Heq, String.eqb_refl in Hne. discriminate. }
    assert (Hsame :
      flat_map (fun d0 => if g d0 then filter (fun u => String.eqb (f u) d0) urls else [])
               keys
      = flat_map (fun d0 => if g d0 then filter (fun u => String.eqb (f u) d0) rest else [])
                 keys).
    { apply flat_map_ext_In. intros d0 Hd0. destruct (g d0); [|reflexivity].
      unfold rest. symmetry. apply filter_filter_other.
      intros u Hu. unfold here. apply String.eqb_eq in Hu.
      destruct (String.eqb_spec (f u) d) as [Heq|]; [|reflexivity].
      exfalso. apply Hnotin. congruence. }
    rewrite Hsame, (IH rest Hrest).
    rewrite (filter_perm (fun u => g (f u)) _ _ (filter_split_perm here urls)).
    rewrite filter_app. apply Permutation_app; [|reflexivity].
    assert (Hhere : filter (fun u => g (f u)) (filter here urls)
                    = if g d then filter here urls else []).
    { clear. induction urls as [|u urls IH]; [now destruct (g d)|].
      cbn. destruct (here u) eqn:Hu; [|assumption].
      cbn. unfold here in Hu. apply String.eqb_eq in Hu. rewrite Hu.
      destruct (g d); [now rewrite IH|assumption]. }
    now rewrite Hhere.
Qed.

(** X10.  [filter_existing_domains] neither invents, loses nor repeats a
    URL: its result is, up to order, the list of the given URLs whose
    host is among the hosts that the batch check found to exist, each as
    often as it was given.  The URLs that the domain guessing probes,
    which are given without duplicates, are therefore probed once. *)
Theorem filter_existing_domains_permutation E urls w :
  Permutation
    (fst (filter_existing_domains E urls w))
    (filter (fun u => mem (bare_domain u)
                        (fst (check_domains E (dedup (map bare_domain urls)) w)))
            urls)
  /\ (List.NoDup urls -> List.NoDup (fst (filter_existing_domains E urls w))).
Proof.
  assert (Hperm : Permutation
    (fst (filter_existing_domains E urls w))
    (filter (fun u => mem (bare_domain u)
                        (fst (check_domains E (dedup (map bare_domain urls)) w)))
            urls)).
  { unfold filter_existing_domains.
    destruct (check_domains E (dedup (map bare_domain urls)) w) as [found w'] eqn:Hcheck.
    cbn [fst].
    apply (group_by_key_perm bare_domain (fun d => mem d found)).
    - apply dedup_NoDup.
    - intros u Hu. apply dedup_In, in_map, Hu. }
  split; [exact Hperm|].
  intros Hurls.
  eapply Permutation_NoDup; [symmetry; exact Hperm|].
  now apply List.NoDup_filter.
Qed.

Lemma filter_existing_domains_permutation_witness :
  List.NoDup (fst (filter_existing_domains resort_env
                     (url_variants (domain_variants "ALEXIA RESORT & SPA HOTEL"))
                     example_world)).
Proof.
  exact (proj2 (filter_existing_domains_permutation resort_env
                  (url_variants (domain_variants "ALEXIA RESORT & SPA HOTEL"))
                  example_world)
               (dedup_NoDup _)).
Defined.

Lemma no_positive_answer E now db d :
  (forall n, gethostbyname E n <> Resolved) ->
  (forall k row, dns_cache db !! k = Some row -> domain_exists row = 0%Z) ->
  fst (check_domain_exists E now db d) = false
  /\ (forall k row, dns_cache (snd (check_domain_exists E now db d)) !! k = Some row ->
        domain_exists row = 0%Z).
Proof.
  intros Hdown Hneg. unfold check_domain_exists, get_dns_cache.
  destruct (dns_cache db !! lower d) as [row|] eqn:Hrow.
  - destruct (is_cache_valid _ _ _); cbn [fst snd].
    + rewrite (Hneg _ _ Hrow). split; [reflexivity|assumption].
    + destruct (gethostbyname E (bare_domain d)) eqn:Hans; cbn [fst snd];
        try (split; [reflexivity|assumption]).
      * now destruct (Hdown (bare_domain d)).
      * split; [reflexivity|]. intros k r. cbn [set_dns_cache dns_cache].
        destruct (decide (lower (bare_domain d) = k)) as [<-|Hne].
        -- rewrite lookup_insert_eq. intros Hr. now inversion Hr.
        -- rewrite lookup_insert_ne by assumption. apply Hneg.
  - destruct (gethostbyname E (bare_domain d)) eqn:Hans; cbn [fst snd];
      try (split; [reflexivity|assumption]).
    + now destruct (Hdown (bare_domain d)).
    + split; [reflexivity|]. intros k r. cbn [set_dns_cache dns_cache].
      destruct (decide (lower (bare_domain d) = k)) as [<-|Hne].
      * rewrite lookup_insert_eq. intros Hr. now inversion Hr.
      * rewrite lookup_insert_ne by assumption. apply Hneg.
Qed.

Lemma check_domains_none E domains w :
  (forall n, gethostbyname E n <> Resolved) ->
  (forall k row, dns_cache (db w) !! k = Some row -> domain_exists row = 0%Z) ->
  fst (check_domains E domains w) = [].
Proof.
  intros Hdown. revert w. induction domains as [|d ds IH]; intros w Hneg; [reflexivity|].
  cbn [check_domains].
  destruct (no_positive_answer E (clock E (tick w)) (db w) d Hdown Hneg) as [Hno Hneg'].
  destruct (check_domain_exists E (clock E (tick w)) (db w) d) as [ok db'].
  cbn [fst snd] in Hno, Hneg'. subst ok.
  specialize (IH {| tick := S (tick w); db := db'; ddg := ddg w |} Hneg').
  destruct (check_domains E ds _) as [found w'']. exact IH.
Qed.

(** X11.  When the resolver resolves no name and the cache holds no
    positive DNS answer, [filter_existing_domains] returns no URL at all:
    the domain guessing then probes nothing over HTTP. *)
Theorem filter_existing_domains_dns_down E urls w :
  (forall n, gethostbyname E n <> Resolved) ->
  (forall k row, dns_cache (db w) !! k = Some row -> domain_exists row = 0%Z) ->
  fst (filter_existing_domains E urls w) = [].
Proof.
  intros Hdown Hneg. unfold filter_existing_domains.
  pose proof (check_domains_none E (dedup (map bare_domain urls)) w Hdown Hneg) as Hnone.
  destruct (check_domains E _ w) as [found w']. cbn [fst] in Hnone |- *. subst found.
  induction (dedup (map bare_domain urls)) as [|d ds IH]; [reflexivity|].
  cbn [flat_map mem existsb]. exact IH.
Qed.

Lemma filter_existing_domains_dns_down_witness :
  fst (filter_existing_domains example_env
         (url_variants (domain_variants "ALEXIA RESORT & SPA HOTEL")) example_world) = [].
Proof.
  apply filter_existing_domains_dns_down.
  - intros n. cbn. discriminate.
  - intros k row. cbn. rewrite lookup_empty. discriminate.
Defined.

Lemma check_domains_length E domains w :
  List.length (fst (check_domains E domains w)) <= List.length domains.
Proof.
  revert w. induction domains as [|d ds IH]; intros w; [reflexivity|].
  cbn [check_domains].
  destruct (check_domain_exists E _ _ d) as [ok db'].
  specialize (IH {| tick := S (tick w); db := db'; ddg := ddg w |}).
  destruct (check_domains E ds _) as [found w''].
  cbn [fst] in IH |- *. destruct ok; cbn [List.length]; lia.
Qed.

(** X12.  The numbers of [get_dns_stats] add up: the existing and the
    missing domains are counted without overlap, neither count is
    negative, and the success rate is a percentage. *)
Theorem get_dns_stats_consistent E domains w :
  let s := fst (get_dns_stats E domains w) in
  total s = Z.of_nat (List.length domains)
  /\ (existing s + not_found s = total s)%Z
  /\ (0 <= existing s <= total s)%Z
  /\ (0 <= not_found s)%Z
  /\ (0 <= success_rate s)%Q /\ (success_rate s <= 100)%Q.
Proof.
  cbv zeta. unfold get_dns_stats.
  pose proof (check_domains_length E domains w) as Hlen.
  destruct (check_domains E domains w) as [found w'].
  cbn [fst] in Hlen |- *. cbn [total existing not_found success_rate].
  repeat (split; [lia|]).
  destruct domains as [|d ds]; [split; [apply Qle_refl|discriminate]|].
  set (n := Z.of_nat (List.length (d :: ds))) in *.
  set (m := Z.of_nat (List.length found)) in *.
  assert (Hn : (0 < n)%Z) by (unfold n; cbn [List.length]; lia).
  assert (Hm : (0 <= m <= n)%Z) by (unfold m, n; lia).
  assert (Hnq : (0 < inject_Z n)%Q) by (unfold Qlt; cbn; lia).
  assert (Hmq : (0 <= inject_Z m)%Q) by (unfold Qle; cbn; lia).
  assert (Hmn : (inject_Z m <= inject_Z n)%Q) by (unfold Qle; cbn; lia).
  assert (Hdiv : (0 <= inject_Z m / inject_Z n)%Q /\ (inject_Z m / inject_Z n <= 1)%Q).
  { split.
    - apply Qle_shift_div_l; [assumption|]. lra.
    - apply Qle_shift_div_r; [assumption|]. lra. }
  split; lra.
Qed.

(** ** E-mail crawler: the choice of the address *)

Lemma best_of_max d k v :
  best_of d = Some (k, v) -> In (k, v) d /\ Forall (fun p => (snd p <= v)%Z) d.
Proof.
  revert k v. induction d as [|[k0 v0] d IH]; intros k v; cbn; [discriminate|].
  destruct (best_of d) as [[k' v']|] eqn:Hbest.
  - destruct (IH k' v' eq_refl) as [Hin Hall].
    destruct (v0 <? v')%Z eqn:Hlt; intros [= <- <-].
    + apply Z.ltb_lt in Hlt. split; [now right|].
      constructor; [cbn; lia|exact Hall].
    + apply Z.ltb_ge in Hlt. split; [now left|].
      constructor; [cbn; lia|].
      eapply Forall_impl; [|exact Hall]. cbn. intros p Hp. lia.
  - intros [= <- <-]. split; [now left|].
    destruct d as [|[k1 v1] d]; [constructor; [cbn; lia|constructor]|].
    cbn in Hbest. destruct (best_of d) as [[k' v']|]; [destruct (v1 <? v')%Z|];
      discriminate.
Qed.

Lemma best_of_none d : best_of d = None <-> d = [].
Proof.
  split; [|now intros ->].
  destruct d as [|[k v] d]; [reflexivity|].
  cbn. destruct (best_of d) as [[k' v']|]; [destruct (v <? v')%Z|]; discriminate.
Qed.

(** X13.  The score of an address lies between -20 and 90, so that with
    the bonus of a priority page no address is kept with more than 105. *)
Theorem score_email_range e d : (-20 <= score_email e d <= 90)%Z.
Proof.
  unfold score_email. cbv zeta.
  destruct (String.eqb _ _); [|destruct (_ || _)];
    (destruct (mem _ preferred_prefixes); [|destruct (existsb _ preferred_prefixes)]);
    destruct (mem _ generic_domains); lia.
Qed.

Lemma crawl_loop_early_score E d m st e :
  snd (crawl_loop E d m st) = Some e ->
  exists k, best_of (found_emails (fst (crawl_loop E d m st))) = Some (e, k)
            /\ (70 <= k)%Z.
Proof.
  funelim (crawl_loop E d m st); cbn; try discriminate.
  - intros [= ->]. exact (crawl_step_early _ _ _ _ _ _ _ e).
  - apply H.
Qed.

Lemma dict_set_Forall (P : string * Z -> Prop) k v d :
  P (k, v) -> Forall P d -> Forall P (dict_set k v d).
Proof.
  intros Hk. induction d as [|[k' v'] d IH]; cbn; intros Hd.
  - now constructor.
  - inversion Hd; subst. destruct (String.eqb k k'); constructor; auto.
Qed.

Lemma store_email_scored domain url found email :
  scored domain found -> scored domain (store_email domain url found email).
Proof.
  intros Hf. unfold store_email.
  destruct (is_valid_email _); [|exact Hf].
  set (s := if contains_any PRIORITY_KEYWORDS (lower url)
            then (score_email (strip (lower email)) domain + 15)%Z
            else score_email (strip (lower email)) domain).
  assert (Hs : (score_email (strip (lower email)) domain <= s
                <= score_email (strip (lower email)) domain + 15)%Z).
  { unfold s. destruct (contains_any _ _); lia. }
  destruct (dict_get _ found) as [old|].
  - destruct (old <? s)%Z; [|exact Hf]. now apply dict_set_Forall.
  - now apply dict_set_Forall.
Qed.

Lemma crawl_step_found E d url rest st :
  found_emails (fst (crawl_step E d url rest st)) = found_emails st
  \/ exists resp doc,
       requests_get E (requests_made st) url = Returned resp
       /\ soup resp = Returned doc
       /\ found_emails (fst (crawl_step E d url rest st))
          = fold_left (store_email d url) (doc_emails doc) (found_emails st).
Proof.
  unfold crawl_step.
  destruct (bool_decide _); [now left|].
  destruct (existsb _ _); [now left|].
  destruct (requests_get _ _ _) as [resp|]; [|now left].
  destruct (negb _); [now left|].
  destruct (soup resp) as [doc|] eqn:Hsoup; [|now left].
  right. exists resp, doc. split; [reflexivity|]. split; [exact Hsoup|].
  destruct (queue_links _ _ _ _ _ _) as [q ok].
  destruct ok; [|reflexivity].
  destruct (best_of _) as [[be bs]|]; [|reflexivity].
  destruct (70 <=? bs)%Z; reflexivity.
Qed.

Lemma crawl_step_scored E d url rest st :
  scored d (found_emails st) -> scored d (found_emails (fst (crawl_step E d url rest st))).
Proof.
  intros Hf.
  destruct (crawl_step_found E d url rest st) as [->|(resp & doc & _ & _ & ->)];
    [exact Hf|].
  revert Hf. generalize (found_emails st).
  induction (doc_emails doc) as [|e es IH]; cbn; intros found Hf; [exact Hf|].
  apply IH. now apply store_email_scored.
Qed.

Lemma crawl_reach_scored E d m start st :
  crawl_reach E d m start st -> scored d (found_emails st).
Proof.
  induction 1 as [|st url rest _ IH _ _]; [constructor|].
  now apply crawl_step_scored.
Qed.

Lemma email_domain_part e :
  (if contains "@" e then nth 1 (split_char at_sign e) "" else "") = domain_part e.
Proof.
  unfold domain_part.
  destruct (contains "@" e) eqn:Hat; [reflexivity|].
  symmetry. induction e as [|c e IH]; [reflexivity|].
  cbn [contains startswith] in Hat. apply orb_false_iff in Hat as [Hc Hrest].
  rewrite andb_true_r in Hc.
  cbn [split_char]. rewrite Ascii.eqb_sym. unfold at_sign. rewrite Hc.
  specialize (IH Hrest). unfold at_sign in IH.
  destruct (split_char "@"%char e) as [|h t]; [reflexivity|exact IH].
Qed.

Lemma high_score_related e d :
  (55 <= score_email e d)%Z ->
  (domain_part e = replace "www." "" d
   \/ substring (replace "www." "" d) (domain_part e)
   \/ substring (domain_part e) (replace "www." "" d))
  /\ exists pref, In pref preferred_prefixes /\ substring pref (local_part (lower e)).
Proof.
  unfold score_email. cbv zeta. rewrite email_domain_part.
  fold (local_part (lower e)).
  intros Hscore. split.
  - destruct (String.eqb_spec (domain_part e) (replace "www." "" d)) as [Heq|_];
      [now left|].
    destruct (contains (replace "www." "" d) (domain_part e)) eqn:H1.
    + right; left. now apply contains_substring.
    + destruct (contains (domain_part e) (replace "www." "" d)) eqn:H2.
      * right; right. now apply contains_substring.
      * exfalso. cbn [orb] in Hscore.
        destruct (mem _ preferred_prefixes); [|destruct (existsb _ preferred_prefixes)];
          destruct (mem _ generic_domains); lia.
  - destruct (mem (local_part (lower e)) preferred_prefixes) eqn:Hmem.
    + apply mem_In in Hmem. exists (local_part (lower e)). split; [exact Hmem|].
      apply contains_substring.
      cbn in Hmem.
      repeat (destruct Hmem as [<-|Hmem]; [reflexivity|]). destruct Hmem.
    + destruct (existsb (fun pref => contains pref (local_part (lower e)))
                  preferred_prefixes) eqn:Hex.
      * apply existsb_exists in Hex as (pref & Hin & Hc).
        exists pref. split; [exact Hin|now apply contains_substring].
      * exfalso.
        destruct (String.eqb _ _); [|destruct (_ || _)];
          destruct (mem _ generic_domains); lia.
Qed.

(** X14.  The crawl stops early only for an address of the site: an
    address returned before the pages are exhausted scores at least 55 on
    the host, so its domain is, contains or is contained in the host
    without [www.], and its local part contains one of the preferred
    prefixes. *)
Theorem early_return_is_site_address E start max st e :
  crawl_run E start max = Some (st, Some e) ->
  exists domain,
    urlparse_netloc E start = Some domain
    /\ (55 <= score_email e domain)%Z
    /\ (domain_part e = replace "www." "" domain
        \/ substring (replace "www." "" domain) (domain_part e)
        \/ substring (domain_part e) (replace "www." "" domain))
    /\ exists pref, In pref preferred_prefixes /\ substring pref (local_part e).
Proof.
  intros Hrun.
  destruct (crawl_run_reach _ _ _ _ _ Hrun) as (domain & Hd & Hreach).
  exists domain. split; [exact Hd|].
  unfold crawl_run in Hrun. rewrite Hd in Hrun. injection Hrun as Hrun.
  pose proof (crawl_loop_early_score E domain max (initial_state start) e) as He.
  rewrite Hrun in He. destruct (He eq_refl) as (k & Hbest & Hk).
  apply best_of_max in Hbest as [Hin _].
  pose proof (crawl_reach_scored _ _ _ _ _ Hreach) as Hscored.
  unfold scored in Hscored. rewrite Forall_forall in Hscored.
  specialize (Hscored _ Hin). cbn [fst snd] in Hscored.
  assert (Hscore : (55 <= score_email e domain)%Z) by lia.
  split; [exact Hscore|].
  pose proof (crawl_reach_kept _ _ _ _ _ Hreach) as Hkept.
  rewrite Forall_forall in Hkept.
  destruct (Hkept e) as [Hfix _]; [apply in_map_iff; now exists (e, k)|].
  assert (Hlow : lower e = e) by (rewrite <- Hfix; apply lower_strip_lower).
  destruct (high_score_related e domain Hscore) as [Hrel Hpref].
  rewrite Hlow in Hpref. split; assumption.
Qed.

(** The crawl of the example site stops at the contact page. *)
Lemma example_early_return :
  exists st, crawl_run example_env "http://hotel.com/" 10 = Some (st, Some "info@hotel.com").
Proof.
  unfold crawl_run.
  replace (urlparse_netloc example_env "http://hotel.com/") with (Some "hotel.com")
    by (vm_compute; reflexivity).
  eexists.
  erewrite (crawl_loop_fuel_sound 100) by (vm_compute; reflexivity). reflexivity.
Qed.

Lemma early_return_is_site_address_witness :
  exists domain,
    urlparse_netloc example_env "http://hotel.com/" = Some domain
    /\ (55 <= score_email "info@hotel.com" domain)%Z.
Proof.
  destruct example_early_return as (st & Hrun).
  destruct (early_return_is_site_address _ _ _ _ _ Hrun) as (domain & Hd & Hs & _).
  exists domain. exact (conj Hd Hs).
Defined.

(** X15.  What [crawl_for_email] returns is an address of the highest
    score among all that the crawl has kept, and it returns [None] only
    when the crawl has kept none. *)
Theorem crawl_returns_top_score E start max st r :
  crawl_run E start max = Some (st, r) ->
  (forall e, crawl_for_email E start max = CrawlReturn (Some e) ->
     exists s, In (e, s) (found_emails st)
               /\ Forall (fun p => (snd p <= s)%Z) (found_emails st))
  /\ (crawl_for_email E start max = CrawlReturn None <-> found_emails st = []).
Proof.
  intros Hrun.
  assert (Hearly : forall e, r = Some e -> exists k, best_of (found_emails st) = Some (e, k)).
  { intros e ->. unfold crawl_run in Hrun.
    destruct (urlparse_netloc E start) as [domain|]; [|discriminate].
    injection Hrun as Hrun.
    pose proof (crawl_loop_early E domain max (initial_state start) e) as He.
    rewrite Hrun in He. exact (He eq_refl). }
  unfold crawl_for_email. rewrite Hrun. split.
  - intros e Hret. destruct r as [e'|].
    + injection Hret as ->. destruct (Hearly e eq_refl) as (k & Hk).
      exists k. now apply best_of_max.
    + destruct (best_of (found_emails st)) as [[be bs]|] eqn:Hb; [|discriminate].
      injection Hret as ->. exists bs. now apply best_of_max.
  - destruct r as [e'|].
    + destruct (Hearly e' eq_refl) as (k & Hk). split; [discriminate|].
      intros Hnil. rewrite Hnil in Hk. discriminate.
    + destruct (best_of (found_emails st)) as [[be bs]|] eqn:Hb.
      * split; [discriminate|]. intros Hnil. rewrite Hnil in Hb. discriminate.
      * apply best_of_none in Hb. split; [intros _; exact Hb|reflexivity].
Qed.

Lemma crawl_returns_top_score_witness :
  exists st s, In ("info@hotel.com", s) (found_emails st)
               /\ Forall (fun p => (snd p <= s)%Z) (found_emails st).
Proof.
  destruct example_early_return as (st & Hrun).
  destruct (proj1 (crawl_returns_top_score _ _ _ _ _ Hrun) _ example_crawl) as (s & Hs).
  exists st, s. exact Hs.
Defined.

(** X16.  With a page budget of zero or less the crawl asks for no page
    and returns [None]. *)
Theorem crawl_without_budget E start max :
  (max <= 0)%Z ->
  urlparse_netloc E start <> None ->
  crawl_for_email E start max = CrawlReturn None
  /\ exists st, crawl_run E start max = Some (st, None) /\ requests_made st = 0.
Proof.
  intros Hmax Hparse. unfold crawl_for_email, crawl_run.
  destruct (urlparse_netloc E start) as [domain|]; [|congruence].
  rewrite crawl_loop_eq. cbn [initial_state queue pages_crawled].
  destruct (Z.ltb_spec 0 max) as [H|_]; [lia|].
  split; [reflexivity|]. eexists. split; reflexivity.
Qed.

Lemma crawl_without_budget_witness :
  crawl_for_email example_env "http://hotel.com/" 0 = CrawlReturn None.
Proof.
  assert (Hmax : (0 <= 0)%Z) by lia.
  assert (Hparse : urlparse_netloc example_env "http://hotel.com/" <> None)
    by (cbn; discriminate).
  exact (proj1 (crawl_without_budget example_env "http://hotel.com/" 0 Hmax Hparse)).
Defined.

Lemma dict_get_set k v d k' :
  dict_get k' (dict_set k v d) = if String.eqb k' k then Some v else dict_get k' d.
Proof.
  induction d as [|[k0 v0] d IH]; cbn.
  - reflexivity.
  - destruct (String.eqb_spec k k0) as [->|Hne]; cbn.
    + now destruct (String.eqb k' k0).
    + destruct (String.eqb_spec k' k0) as [->|Hne'].
      * destruct (String.eqb_spec k0 k) as [Heq|_]; [congruence|reflexivity].
      * exact IH.
Qed.

Lemma store_email_monotone domain url found email e s :
  dict_get e found = Some s ->
  exists s', dict_get e (store_email domain url found email) = Some s' /\ (s <= s')%Z.
Proof.
  intros Hget. unfold store_email.
  destruct (is_valid_email _); [|exists s; split; [exact Hget|lia]].
  set (new := if contains_any PRIORITY_KEYWORDS (lower url)
              then _ else _).
  destruct (dict_get (strip (lower email)) found) as [old|] eqn:Hold.
  - destruct (old <? new)%Z eqn:Hlt; [|exists s; split; [exact Hget|lia]].
    rewrite dict_get_set.
    destruct (String.eqb_spec e (strip (lower email))) as [->|_].
    + exists new. split; [reflexivity|].
      apply Z.ltb_lt in Hlt. rewrite Hold in Hget. injection Hget as <-. lia.
    + exists s. split; [exact Hget|lia].
  - rewrite dict_get_set.
    destruct (String.eqb_spec e (strip (lower email))) as [->|_].
    + congruence.
    + exists s. split; [exact Hget|lia].
Qed.

Lemma crawl_step_monotone E d url rest st e s :
  dict_get e (found_emails st) = Some s ->
  exists s', dict_get e (found_emails (fst (crawl_step E d url rest st))) = Some s'
             /\ (s <= s')%Z.
Proof.
  intros Hget.
  destruct (crawl_step_found E d url rest st) as [->|(resp & doc & _ & _ & ->)];
    [exists s; split; [exact Hget|lia]|].
  revert s Hget. generalize (found_emails st).
  induction (doc_emails doc) as [|x xs IH]; cbn; intros found s Hget.
  - exists s. split; [exact Hget|lia].
  - destruct (store_email_monotone d url found x e s Hget) as (s1 & H1 & Hle1).
    destruct (IH _ _ H1) as (s2 & H2 & Hle2).
    exists s2. split; [exact H2|lia].
Qed.

(** X17.  The crawl forgets no address and lowers no score: an address
    kept at some turn of the loop is still kept when the loop stops, with
    a score that is at least as high. *)
Theorem found_emails_only_improve E d m st addr s :
  dict_get addr (found_emails st) = Some s ->
  exists s', dict_get addr (found_emails (fst (crawl_loop E d m st))) = Some s'
             /\ (s <= s')%Z.
Proof.
  revert s. funelim (crawl_loop E d m st); intros s Hget; cbn [fst].
  - exists s. split; [exact Hget|lia].
  - exists s. split; [exact Hget|lia].
  - pose proof (crawl_step_monotone E domain url rest st addr s Hget) as Hturn.
    match goal with
    | Heq : crawl_step _ _ _ _ _ = _ |- _ => rewrite Heq in Hturn
    end.
    exact Hturn.
  - pose proof (crawl_step_monotone E domain url rest st addr s Hget) as (s1 & Hs1 & Hle1).
    rewrite Hstep in Hs1. cbn [fst] in Hs1.
    match goal with
    | IH : forall a s0, dict_get a (found_emails st') = Some s0 -> _ |- _ =>
        destruct (IH _ _ Hs1) as (s2 & Hs2 & Hle2)
    end.
    exists s2. split; [exact Hs2|lia].
Qed.

Lemma found_emails_only_improve_witness :
  exists s', dict_get "owner@gmail.com"
               (found_emails
                  (fst (crawl_loop example_env "hotel.com" 10
                          {| visited := ∅; queue := ["http://hotel.com/contact"];
                             found_emails := [("owner@gmail.com", (-20)%Z)];
                             pages_crawled := 1; requests_made := 1 |}))) = Some s'
             /\ (-20 <= s')%Z.
Proof.
  apply (found_emails_only_improve example_env "hotel.com" 10
           {| visited := ∅; queue := ["http://hotel.com/contact"];
              found_emails := [("owner@gmail.com", (-20)%Z)];
              pages_crawled := 1; requests_made := 1 |} "owner@gmail.com" (-20)%Z).
  reflexivity.
Defined.

(** ** The shape of a valid address *)

Lemma split_char_none c s :
  count_char c s = 0%nat -> split_char c s = [s].
Proof.
  induction s as [|d s IH]; [reflexivity|].
  cbn [count_char split_char]. rewrite (Ascii.eqb_sym d c).
  destruct (Ascii.eqb c d); [discriminate|].
  cbn [Nat.add]. intros H. now rewrite IH.
Qed.

Lemma split_char_once c s :
  count_char c s = 1%nat ->
  exists a b, split_char c s = [a; b] /\ s = a +++ String c b
              /\ count_char c a = 0%nat /\ count_char c b = 0%nat.
Proof.
  induction s as [|d s IH]; [discriminate|].
  cbn [count_char split_char]. rewrite (Ascii.eqb_sym d c).
  destruct (Ascii.eqb_spec c d) as [<-|Hne]; cbn [Nat.add]; intros H.
  - injection H as H. exists "", s. rewrite (split_char_none _ _ H).
    split; [reflexivity|]. split; [reflexivity|]. split; [reflexivity|assumption].
  - destruct (IH H) as (a & b & Hsplit & Hs & Ha & Hb).
    exists (String d a), b. rewrite Hsplit. cbn [cons_head].
    split; [reflexivity|]. split; [now rewrite Hs|]. split; [|assumption].
    cbn [count_char]. destruct (Ascii.eqb_spec c d); [contradiction|]. exact Ha.
Qed.

(** X18.  An address that passes [is_valid_email] round-trips through its
    two parts: in the normal form in which it is tested it is its local
    part, one [@] and its domain part, neither part holds another [@],
    the domain part holds a dot, and the normal form passes again. *)
Theorem valid_email_round_trip e :
  is_valid_email e = true ->
  strip (lower e)
  = local_part (strip (lower e)) +++ "@" +++ domain_part (strip (lower e))
  /\ count_char at_sign (local_part (strip (lower e))) = 0%nat
  /\ count_char at_sign (domain_part (strip (lower e))) = 0%nat
  /\ contains "." (domain_part (strip (lower e))) = true
  /\ is_valid_email (strip (lower e)) = true.
Proof.
  intros Hvalid.
  assert (Hagain : is_valid_email (strip (lower e)) = true).
  { unfold is_valid_email in *. now rewrite strip_lower_fixed. }
  unfold is_valid_email in Hvalid.
  destruct (existsb _ INVALID_EMAIL_PATTERNS); [discriminate|].
  destruct (_ || _); [discriminate|].
  destruct (count_char at_sign (strip (lower e)) =? 1)%nat eqn:Hcount; [|discriminate].
  apply Nat.eqb_eq in Hcount.
  destruct (split_char_once _ _ Hcount) as (a & b & Hsplit & Hs & Ha & Hb).
  unfold local_part, domain_part. rewrite Hsplit in *. cbn [nth] in *.
  destruct (contains "." b) eqn:Hdot; [|discriminate].
  repeat split; assumption.
Qed.

Lemma valid_email_round_trip_witness :
  strip (lower " Info@Hotel.COM ") = "info" +++ "@" +++ "hotel.com"
  /\ is_valid_email "info@hotel.com" = true.
Proof.
  assert (H : is_valid_email " Info@Hotel.COM " = true) by (vm_compute; reflexivity).
  destruct (valid_email_round_trip " Info@Hotel.COM " H) as (Hs & _ & _ & _ & Hv).
  exact (conj Hs Hv).
Defined.

(** ** Content validator: the verdict *)

Ltac verdict_case b :=
  eexists _, b; split; [|split]; cycle 2;
  [intros; reflexivity|cbn [is_hotel confidence]|].

(** After a miss of the cache: the flag of the verdict says that the
    confidence has reached 50, and a verdict reached without an exception
    is cached. *)
Lemma validate_uncached_verdict E fetch url city :
  exists (v : verdict) (cached : bool),
    is_hotel v = (50 <=? confidence v)%Z
    /\ (forall resp doc, fetch = Returned resp -> soup resp = Returned doc -> cached = true)
    /\ forall t_write db,
         validate_uncached E t_write fetch db url city
         = (v, if cached
               then set_validation_cache t_write db url (is_hotel v) (confidence v)
                      (indicators v)
               else db).
Proof.
  unfold validate_uncached, content_error, cached_return.
  pose proof (domain_analysis_range E url) as Hrange.
  destruct (domain_analysis E url) as [score inds]. cbn [fst] in Hrange.
  destruct fetch as [resp|exn].
  2:{ destruct (Z.leb_spec 40 score).
      - verdict_case true; [symmetry; apply Z.leb_le; lia|reflexivity].
      - verdict_case false; [reflexivity|discriminate]. }
  destruct (negb (resp_status resp =? 200)%Z).
  { destruct (40 <=? score)%Z; verdict_case true; reflexivity. }
  set (content := lower (resp_text resp)).
  set (city_matched := if truthy city then _ else false).
  assert (Hcity : exists score1 inds1,
    (if city_matched
     then ((score + 40)%Z, inds ++ ["✓ City matched: " +++ or_empty city])
     else (score, inds)) = (score1, inds1)).
  { destruct city_matched; eexists _, _; reflexivity. }
  destruct Hcity as (score1 & inds1 & ->). clear Hrange.
  destruct (Z.leb_spec 70 score1).
  { verdict_case true; [symmetry; apply Z.leb_le; lia|reflexivity]. }
  destruct (soup resp) as [doc|exn] eqn:Hsoup.
  2:{ destruct (Z.leb_spec 40 score1).
      - verdict_case true; [symmetry; apply Z.leb_le; lia|reflexivity].
      - verdict_case false; [reflexivity|].
        intros resp0 doc0 [= <-] Hdoc. congruence. }
  set (title_text := lower (or_empty (doc_title doc))).
  set (title_ok := nonempty title_text && _).
  assert (Htitle : exists score2 inds2,
    (if title_ok then ((score1 + 20)%Z, inds1 ++ ["✓ Hotel keyword in title"])
     else (score1, inds1)) = (score2, inds2)).
  { destruct title_ok; eexists _, _; reflexivity. }
  destruct Htitle as (score2 & inds2 & ->).
  set (english_kw := count_keywords HOTEL_KEYWORDS_english content).
  set (turkish_kw := count_keywords HOTEL_KEYWORDS_turkish content).
  assert (Hkw : exists score3 inds3,
    (if (2 <=? english_kw)%nat
     then ((score2 + 20)%Z, inds2 ++ ["✓ English keywords: " +++ str_of_nat english_kw])
     else if (2 <=? turkish_kw)%nat
          then ((score2 + 20)%Z,
                inds2 ++ ["✓ Turkish keywords: " +++ str_of_nat turkish_kw])
          else (score2, inds2)) = (score3, inds3)).
  { destruct (2 <=? english_kw)%nat; [|destruct (2 <=? turkish_kw)%nat];
      eexists _, _; reflexivity. }
  destruct Hkw as (score3 & inds3 & ->).
  set (has_phone := existsb _ phone_patterns).
  assert (Hphone : exists score4 inds4,
    (if has_phone then ((score3 + 15)%Z, inds3 ++ ["✓ Phone number found"])
     else (score3, inds3)) = (score4, inds4)).
  { destruct has_phone; eexists _, _; reflexivity. }
  destruct Hphone as (score4 & inds4 & ->).
  destruct (Z.leb_spec 50 score4); verdict_case true; try reflexivity;
    symmetry; [apply Z.leb_le|apply Z.leb_gt]; lia.
Qed.

Lemma cache_consistent_set t db url v :
  cache_consistent db ->
  is_hotel v = (50 <=? confidence v)%Z ->
  cache_consistent (set_validation_cache t db url (is_hotel v) (confidence v)
                      (indicators v)).
Proof.
  intros Hdb Hv k row. cbn [set_validation_cache validation_cache].
  destruct (decide (lower url = k)) as [<-|Hne].
  - rewrite lookup_insert_eq. intros [= <-]. cbn. now rewrite bool_of_int_of_bool.
  - rewrite lookup_insert_ne by assumption. apply Hdb.
Qed.

(** X19.  The two fields of a verdict never disagree: as long as the
    validation cache is written by [validate_hotel_content] only, every
    verdict, computed or read from the cache, says "a hotel" exactly when
    its confidence is at least 50. *)
Theorem verdict_threshold E t_read t_write fetch db url name city :
  cache_consistent db ->
  is_hotel (fst (validate_hotel_content E t_read t_write fetch db url name city))
  = (50 <=? confidence (fst (validate_hotel_content E t_read t_write fetch db url
                               name city)))%Z
  /\ cache_consistent (snd (validate_hotel_content E t_read t_write fetch db url
                              name city)).
Proof.
  intros Hdb. unfold validate_hotel_content.
  destruct (get_validation_cache t_read db url) as [c|] eqn:Hget; cbn [fst snd].
  - split; [|exact Hdb].
    unfold get_validation_cache in Hget.
    destruct (validation_cache db !! lower url) as [row|] eqn:Hrow; [|discriminate].
    destruct (is_cache_valid _ _ _); [|discriminate].
    injection Hget as <-. cbn [is_hotel confidence]. exact (Hdb _ _ Hrow).
  - destruct (validate_uncached_verdict E fetch url city) as (v & cached & Hv & _ & Hshape).
    rewrite Hshape. cbn [fst snd]. split; [exact Hv|].
    destruct cached; [now apply cache_consistent_set|exact Hdb].
Qed.

Lemma verdict_threshold_witness :
  let r := validate_hotel_content example_env 0%Q 1%Q (Raised "ConnectionError")
             empty_db "http://www.alexiahotel.com/" (Some "ALEXIA") (Some "antalya") in
  is_hotel (fst r) = (50 <=? confidence (fst r))%Z /\ confidence (fst r) = 50%Z.
Proof.
  intros r.
  assert (Hdb : cache_consistent empty_db).
  { intros k row Hrow. cbn in Hrow. rewrite lookup_empty in Hrow. discriminate. }
  exact (conj (proj1 (verdict_threshold example_env 0%Q 1%Q (Raised "ConnectionError")
                        empty_db "http://www.alexiahotel.com/" (Some "ALEXIA")
                        (Some "antalya") Hdb))
              eq_refl).
Defined.

(** X20.  A verdict computed from a response is keyed by the URL alone
    and sticks for seven days: until then every call for the same URL
    returns it and leaves the cache alone, whatever the site answers by
    then and whatever hotel name and city the call is made for. *)
Theorem verdict_is_sticky E E' t1 t1' t2 t2' resp doc fetch' db url name city name' city' :
  get_validation_cache t1 db url = None ->
  soup resp = Returned doc ->
  (t2 - t1' < CACHE_TTL_SECONDS)%Q ->
  validate_hotel_content E' t2 t2' fetch'
    (snd (validate_hotel_content E t1 t1' (Returned resp) db url name city))
    url name' city'
  = validate_hotel_content E t1 t1' (Returned resp) db url name city.
Proof.
  intros Hmiss Hsoup Hfresh. apply is_cache_valid_lt in Hfresh.
  unfold validate_hotel_content at 2 3. rewrite Hmiss.
  destruct (validate_uncached_verdict E (Returned resp) url city)
    as (v & cached & _ & Hcached & Hshape).
  rewrite (Hcached resp doc eq_refl Hsoup) in Hshape.
  rewrite Hshape. cbn [snd].
  unfold validate_hotel_content. now rewrite get_set_validation_cache, Hfresh.
Qed.

Lemma verdict_is_sticky_witness :
  let page := {| resp_status := 503; resp_content_type := "text/html"; resp_text := "";
                 soup := Returned {| doc_title := None; doc_emails := [];
                                     doc_hrefs := [] |} |} in
  let r1 := validate_hotel_content example_env 0%Q 1%Q (Returned page) empty_db
              "http://www.alexia.com/" (Some "ALEXIA") (Some "antalya") in
  let r2 := validate_hotel_content resort_env 600000%Q 600001%Q
              (requests_get resort_env 0 "http://www.alexia.com/") (snd r1)
              "http://www.alexia.com/" (Some "ALEXIA RESORT") (Some "antalya") in
  r2 = r1 /\ is_hotel (fst r1) = false.
Proof.
  intros page r1 r2.
  assert (Hmiss : get_validation_cache 0%Q empty_db "http://www.alexia.com/" = None)
    by reflexivity.
  assert (Hsoup : soup page = Returned {| doc_title := None; doc_emails := [];
                                          doc_hrefs := [] |}) by reflexivity.
  assert (Hfresh : (600000 - 1 < CACHE_TTL_SECONDS)%Q) by reflexivity.
  exact (conj (verdict_is_sticky example_env resort_env 0%Q 1%Q 600000%Q 600001%Q page _
                 (requests_get resort_env 0 "http://www.alexia.com/") empty_db
                 "http://www.alexia.com/" (Some "ALEXIA") (Some "antalya")
                 (Some "ALEXIA RESORT") (Some "antalya") Hmiss Hsoup Hfresh)
              eq_refl).
Defined.

(** ** Domain variants: the priority sort *)

Lemma insert_by_len_perm x l : Permutation (insert_by_len x l) (x :: l).
Proof.
  induction l as [|y l IH]; [reflexivity|].
  cbn [insert_by_len]. destruct (_ <? _)%nat; [|reflexivity].
  rewrite IH. apply perm_swap.
Qed.

Lemma sort_by_len_desc_perm l : Permutation (sort_by_len_desc l) l.
Proof.
  induction l as [|x l IH]; [reflexivity|].
  cbn. rewrite insert_by_len_perm. now constructor.
Qed.

Lemma four_way_split {A : Type} (p1 p2 p3 p4 : A -> bool) l :
  (forall x, (p1 x, p2 x, p3 x, p4 x) = (true, false, false, false)
             \/ (p1 x, p2 x, p3 x, p4 x) = (false, true, false, false)
             \/ (p1 x, p2 x, p3 x, p4 x) = (false, false, true, false)
             \/ (p1 x, p2 x, p3 x, p4 x) = (false, false, false, true)) ->
  Permutation (filter p1 l ++ filter p2 l ++ filter p3 l ++ filter p4 l) l.
Proof.
  intros Hone. induction l as [|x l IH]; [reflexivity|].
  cbn [filter].
  destruct (Hone x) as [H|[H|[H|H]]]; injection H as -> -> -> ->.
  - cbn [app]. now constructor.
  - cbn [app]. rewrite <- Permutation_middle. now constructor.
  - cbn [app]. rewrite app_assoc, <- Permutation_middle, <- app_assoc. now constructor.
  - cbn [app]. rewrite !app_assoc, <- Permutation_middle, <- !app_assoc.
    now constructor.
Qed.

(** X21.  The priority sort of the domain variants only reorders them:
    the four groups that it sorts and concatenates hold every variant
    exactly once. *)
Theorem prioritize_permutation l : Permutation (prioritize l) l.
Proof.
  unfold prioritize.
  rewrite !sort_by_len_desc_perm.
  unfold has_oteli, has_otel_not_oteli, no_hotel_keyword, has_hotel_keyword.
  apply four_way_split. intros v. unfold ends_otel.
  destruct (endswith "oteli" v), (endswith "otel" v), (contains "hotel" v); cbn; tauto.
Qed.

(** ** The normal form of a hotel name *)

Lemma single_spaced_weaken s :
  single_spaced_from true s = true -> single_spaced_from false s = true.
Proof.
  destruct s as [|c s]; [reflexivity|].
  cbn [single_spaced_from]. destruct (is_space c); [|auto].
  cbn [negb]. rewrite andb_false_r. discriminate.
Qed.

Lemma single_spaced_tail b c s :
  single_spaced_from b (String c s) = true -> single_spaced_from false s = true.
Proof.
  cbn [single_spaced_from]. destruct (is_space c); [|auto].
  intros H. apply andb_true_iff in H as [_ H]. now apply single_spaced_weaken.
Qed.

Lemma collapse_ws_single_spaced b s :
  single_spaced_from b (collapse_ws_from b s) = true.
Proof.
  revert b. induction s as [|c s IH]; intros b; [reflexivity|].
  cbn [collapse_ws_from]. destruct (is_space c) eqn:Hc.
  - destruct b; [apply IH|].
    cbn [single_spaced_from]. change (is_space " "%char) with true.
    cbn. apply IH.
  - cbn [single_spaced_from]. rewrite Hc. apply IH.
Qed.

Lemma lstrip_single_spaced b s :
  single_spaced_from b s = true -> single_spaced_from false (lstrip s) = true.
Proof.
  revert b. induction s as [|c s IH]; intros b H; [reflexivity|].
  cbn [lstrip]. destruct (is_space c) eqn:Hc.
  - apply (IH false). eapply single_spaced_tail, H.
  - cbn [single_spaced_from] in H |- *. now rewrite Hc in *.
Qed.

Lemma rstrip_single_spaced b s :
  single_spaced_from b s = true -> single_spaced_from b (rstrip s) = true.
Proof.
  revert b. induction s as [|c s IH]; intros b H; [reflexivity|].
  cbn [rstrip]. cbn [single_spaced_from] in H.
  destruct (is_space c) eqn:Hc; cbn [andb].
  - destruct (is_empty (rstrip s)); [reflexivity|].
    cbn [single_spaced_from]. rewrite Hc.
    apply andb_true_iff in H as [H1 H2]. rewrite H1. now apply IH.
  - cbn [single_spaced_from]. rewrite Hc. now apply IH.
Qed.

Lemma count_char_lstrip c s : count_char c (lstrip s) <= count_char c s.
Proof.
  induction s as [|d s IH]; [reflexivity|].
  cbn [lstrip]. destruct (is_space d); [|reflexivity]. cbn [count_char]. lia.
Qed.

Lemma count_char_rstrip c s : count_char c (rstrip s) <= count_char c s.
Proof.
  induction s as [|d s IH]; [reflexivity|].
  cbn [rstrip]. destruct (is_space d && is_empty (rstrip s)); cbn [count_char]; lia.
Qed.

Lemma count_char_strip c s : count_char c (strip s) <= count_char c s.
Proof.
  unfold strip. etransitivity; [apply count_char_lstrip|apply count_char_rstrip].
Qed.

Lemma count_char_remove_bracketed c k s :
  count_char c (remove_bracketed_from k s) <= count_char c s.
Proof.
  revert k. induction s as [|d s IH]; intros k; [reflexivity|].
  cbn [remove_bracketed_from count_char].
  destruct k as [|k]; [|specialize (IH k); lia].
  destruct (if Ascii.eqb d "("%char then find_close ")"%char s
            else if Ascii.eqb d "["%char then find_close "]"%char s else None) as [n|].
  - specialize (IH n). lia.
  - cbn [count_char]. specialize (IH 0). lia.
Qed.

Lemma count_hyphen_collapse_ws b s :
  count_char "-"%char (collapse_ws_from b s) = count_char "-"%char s.
Proof.
  revert b. induction s as [|d s IH]; intros b; [reflexivity|].
  cbn [collapse_ws_from count_char].
  destruct (is_space d) eqn:Hd.
  - assert (Hne : Ascii.eqb "-"%char d = false).
    { destruct (Ascii.eqb_spec "-"%char d) as [<-|]; [discriminate|reflexivity]. }
    rewrite Hne. destruct b; [apply IH|].
    cbn [count_char]. change (Ascii.eqb "-"%char " "%char) with false. apply IH.
  - cbn [count_char]. now rewrite IH.
Qed.

Lemma count_char_take_until c s :
  count_char c (take_until (fun d => Ascii.eqb d c) s) = 0%nat.
Proof.
  induction s as [|d s IH]; [reflexivity|].
  cbn [take_until]. destruct (Ascii.eqb_spec d c) as [->|Hne]; [reflexivity|].
  cbn [count_char]. destruct (Ascii.eqb_spec c d); [congruence|exact IH].
Qed.

Lemma contains_char_count c s :
  contains (String c EmptyString) s = negb (count_char c s =? 0)%nat.
Proof.
  induction s as [|d s IH]; [reflexivity|].
  cbn [contains startswith count_char]. rewrite andb_true_r, IH.
  destruct (Ascii.eqb c d); [reflexivity|]. reflexivity.
Qed.

(** X22.  [_normalize_name_for_search] yields a normal form: no white
    space at either end, no white space but single blanks between the
    words, and no hyphen. *)
Theorem normalized_name_form name :
  strip (_normalize_name_for_search name) = _normalize_name_for_search name
  /\ single_spaced (_normalize_name_for_search name) = true
  /\ count_char "-"%char (_normalize_name_for_search name) = 0%nat.
Proof.
  unfold _normalize_name_for_search. cbv zeta.
  set (base := if contains "-" name then _ else name).
  split; [apply strip_idem|]. split.
  - unfold single_spaced, strip.
    eapply lstrip_single_spaced, rstrip_single_spaced, collapse_ws_single_spaced.
  - assert (Hbase : count_char "-"%char base = 0%nat).
    { unfold base. destruct (contains "-" name) eqn:Hc.
      - rewrite split_char_head.
        pose proof (count_char_strip "-"%char
                      (take_until (fun c => Ascii.eqb c "-"%char) name)) as H.
        rewrite count_char_take_until in H. lia.
      - change "-" with (String "-"%char EmptyString) in Hc.
        rewrite contains_char_count in Hc.
        apply negb_false_iff, Nat.eqb_eq in Hc. exact Hc. }
    pose proof (count_char_strip "-"%char (collapse_ws (remove_bracketed base))) as H1.
    unfold collapse_ws in H1 at 2. rewrite count_hyphen_collapse_ws in H1.
    pose proof (count_char_remove_bracketed "-"%char 0 base) as H2.
    unfold remove_bracketed in H1 |- *. lia.
Qed.

Lemma split_char_prefix c a b :
  count_char c a = 0%nat ->
  nth 0 (split_char c (a +++ String c b)) "" = a.
Proof.
  intros Ha. rewrite split_char_head.
  induction a as [|d a IH].
  - change ("" +++ String c b) with (String c b). cbn [take_until].
    now rewrite Ascii.eqb_refl.
  - change (String d a +++ String c b) with (String d (a +++ String c b)).
    cbn [take_until]. cbn [count_char] in Ha.
    destruct (Ascii.eqb_spec c d) as [->|Hne]; [discriminate|].
    destruct (Ascii.eqb_spec d c); [congruence|]. f_equal. now apply IH.
Qed.

Lemma count_char_app c a b :
  count_char c (a +++ b) = count_char c a + count_char c b.
Proof.
  induction a as [|d a IH]; [reflexivity|].
  change (String d a +++ b) with (String d (a +++ b)).
  cbn [count_char]. rewrite IH. lia.
Qed.

(** X23.  Of a name with a hyphen the normal form keeps the part before
    the first hyphen only: whatever follows the hyphen has no influence
    on the domain variants that are guessed. *)
Theorem normalized_name_cut_at_hyphen a b :
  count_char "-"%char a = 0%nat ->
  _normalize_name_for_search (a +++ "-" +++ b) = _normalize_name_for_search (strip a).
Proof.
  intros Ha. unfold _normalize_name_for_search. cbv zeta.
  change ("-" +++ b) with (String "-"%char b).
  change "-" with (String "-"%char EmptyString).
  rewrite !contains_char_count.
  rewrite count_char_app. cbn [count_char]. rewrite Ascii.eqb_refl.
  replace (count_char "-"%char a + (1 + count_char "-"%char b) =? 0)%nat with false
    by (symmetry; apply Nat.eqb_neq; lia).
  cbn [negb]. rewrite split_char_prefix by assumption.
  pose proof (count_char_strip "-"%char a) as Hs.
  replace (count_char "-"%char (strip a) =? 0)%nat with true
    by (symmetry; apply Nat.eqb_eq; lia).
  reflexivity.
Qed.

Lemma normalized_name_cut_at_hyphen_witness :
  _normalize_name_for_search "ALEXIA RESORT (5 STAR) - SIDE"
  = _normalize_name_for_search "ALEXIA RESORT (5 STAR)"
  /\ _normalize_name_for_search "ALEXIA RESORT (5 STAR) - SIDE" = "ALEXIA RESORT".
Proof.
  assert (Ha : count_char "-"%char "ALEXIA RESORT (5 STAR) " = 0%nat) by reflexivity.
  exact (conj (normalized_name_cut_at_hyphen "ALEXIA RESORT (5 STAR) " " SIDE" Ha)
              eq_refl).
Defined.

(** ** Scores and relevance of a domain *)

Lemma Qmin_100_lower (lo q : Q) : (lo <= q)%Q -> (lo <= 100)%Q -> (lo <= Qmin q 100)%Q.
Proof. intros Hq Hlo. now apply Q.min_glb. Qed.

(** X24.  [calculate_score] fails only where [tldextract] fails; its
    score lies between 0 and 100, and it is at least 20 for every URL
    whose registered domain contains a hotel word, whatever the name of
    the hotel: such a link of a result page is always above the
    threshold of 10 for a candidate. *)
Theorem calculate_score_bounds E hotel_name url title d suffix :
  tldextract E url = Some (d, suffix) ->
  exists q, calculate_score E hotel_name url title = Some q
            /\ (0 <= q)%Q /\ (q <= 100)%Q
            /\ (contains_any score_hotel_keywords (lower d) = true ->
                (20 <= q)%Q /\ Qltb 10 q = true).
Proof.
  intros Hext. unfold calculate_score. rewrite Hext.
  set (all_tokens := dedup (split_ws (lower hotel_name))).
  set (name_tokens := match filter _ all_tokens with [] => all_tokens | _ => _ end).
  set (matches := Qsum _).
  assert (Hm : (0 <= matches)%Q).
  { apply Qsum_nonneg, Forall_forall. intros x Hx.
    apply in_map_iff in Hx as (t & <- & _). apply token_match_nonneg. }
  set (s1 := match name_tokens with [] => 0%Q | _ => _ end).
  assert (H1 : (0 <= s1)%Q).
  { subst s1. destruct name_tokens as [|t ts] eqn:Hn; [apply Qle_refl|].
    apply Qmult_le_0_compat; [|discriminate].
    apply Qle_shift_div_l; [reflexivity|]. now rewrite Qmult_0_l. }
  set (lo := if contains_any score_hotel_keywords (lower d) then 20%Q else 0%Q).
  assert (Hlo : (0 <= lo)%Q /\ (lo <= 100)%Q).
  { subst lo. destruct (contains_any _ _); split; discriminate. }
  set (s2 := if contains_any score_hotel_keywords (lower d) then _ else s1).
  assert (H2 : (lo <= s2)%Q).
  { subst s2 lo. destruct (contains_any _ _); [|exact H1]. lra. }
  set (s3 := if nonempty title then _ else s2).
  assert (H3 : (lo <= s3)%Q).
  { subst s3. destruct (nonempty title); [|exact H2].
    destruct (contains _ _); [lra|].
    destruct (0 <? _)%nat; [|exact H2].
    set (m := Q_of_nat _).
    assert (Hmin : (0 <= Qmin (m * 10) 25)%Q).
    { apply Q.min_glb; [|discriminate].
      apply Qmult_le_0_compat; [|discriminate].
      unfold m, Q_of_nat. change 0%Q with (inject_Z 0). rewrite <- Zle_Qle. lia. }
    lra. }
  set (s4 := if (8 <? _)%nat then _ else _).
  assert (H4 : (lo <= s4)%Q).
  { subst s4. destruct (8 <? _)%nat; [|destruct (5 <? _)%nat]; lra. }
  exists (Qmin s4 100). split; [reflexivity|].
  assert (Hq : (lo <= Qmin s4 100)%Q) by (apply Qmin_100_lower; tauto).
  split; [lra|]. split; [apply Q.le_min_r|].
  intros Hkw. unfold lo in Hq. rewrite Hkw in Hq.
  split; [exact Hq|]. apply Qltb_lt. lra.
Qed.

Lemma calculate_score_bounds_witness :
  exists q, calculate_score resort_env "ALEXIA" "http://www.grandhotel.com/" "" = Some q
            /\ (20 <= q)%Q.
Proof.
  assert (Hext : tldextract resort_env "http://www.grandhotel.com/"
                 = Some ("grandhotel", "com")) by (vm_compute; reflexivity).
  destruct (calculate_score_bounds resort_env "ALEXIA" "http://www.grandhotel.com/" ""
              "grandhotel" "com" Hext) as (q & Hq & _ & _ & Hkw).
  exists q. split; [exact Hq|].
  apply Hkw. vm_compute. reflexivity.
Defined.

Lemma length_lower s : String.length (lower s) = String.length s.
Proof.
  unfold lower. induction s as [|c s IH]; [reflexivity|].
  cbn [smap String.length]. now rewrite IH.
Qed.

(** X25.  The relevance filter lets every long domain pass: a URL whose
    registered domain has six characters or more is relevant for every
    hotel name, so that the filter can only reject domains of up to five
    characters. *)
Theorem long_domain_is_relevant E hotel_name url d suffix :
  tldextract E url = Some (d, suffix) ->
  (6 <= String.length d)%nat ->
  _is_relevant_domain E hotel_name url = true.
Proof.
  intros Hext Hlen. unfold _is_relevant_domain. rewrite Hext.
  rewrite length_lower.
  destruct (Nat.ltb_spec (String.length d) 6) as [H|_]; [lia|].
  rewrite andb_false_r.
  destruct (contains_any _ _); [reflexivity|].
  destruct (existsb _ _); [reflexivity|].
  destruct (Nat.leb_spec 6 (String.length d)) as [_|H]; [reflexivity|lia].
Qed.

Lemma long_domain_is_relevant_witness :
  _is_relevant_domain resort_env "ALEXIA RESORT" "http://www.wikipedia.org/" = true.
Proof.
  assert (Hext : tldextract resort_env "http://www.wikipedia.org/"
                 = Some ("wikipedia", "org")) by (vm_compute; reflexivity).
  assert (Hlen : (6 <= String.length "wikipedia")%nat) by (cbn; lia).
  exact (long_domain_is_relevant resort_env "ALEXIA RESORT" "http://www.wikipedia.org/"
           "wikipedia" "org" Hext Hlen).
Defined.

(** ** [find_website]: what a result has gone through *)

Lemma guess_body_vetted E hotel_name city domain s :
  guess_vetted E hotel_name city s ->
  match guess_body E hotel_name city domain s with
  | Go s' => guess_vetted E hotel_name city s'
  | Stop r => returns_vetted E hotel_name city r
  end.
Proof.
  intros Hres. unfold guess_body.
  set (w1 := {| tick := S (tick (guess_world s)); db := db (guess_world s);
                ddg := ddg (guess_world s) |}).
  destruct (requests_head E _ domain) as [[status location]|]; [|exact Hres].
  destruct (Zmem status [200; 301; 302; 303; 307; 308]%Z); [|exact Hres].
  set (final_url := if Zmem status _ then _ else domain).
  destruct (_is_relevant_domain E hotel_name final_url) eqn:Hrel; cbn [negb];
    [|exact Hres].
  destruct (validate_in E w1 final_url (Some hotel_name) (Some city))
    as [validation w2] eqn:Hval.
  destruct (is_hotel validation) eqn:Hhotel; [|exact Hres].
  destruct (calculate_score E hotel_name final_url hotel_name) as [cs|]; [|exact Hres].
  set (score := Qmin (Qmin (cs + half (confidence validation)) 100
                      + domain_quality domain hotel_name) 100).
  assert (Hnew : vetted E hotel_name city
                   [("url", PyStr final_url); ("score", PyFloat score);
                    ("source", PyStr "domain_guess")]).
  { exists final_url, score, "domain_guess". split; [reflexivity|].
    split; [now left|]. split; [exact Hrel|]. split; [|discriminate].
    exists w1. now rewrite Hval. }
  unfold guess_vetted in *.
  destruct (Qltb (best_score s) score) eqn:Hbetter.
  - destruct (Qgeb score 85); cbn [best_result]; [|exact Hnew].
    eexists. split; [reflexivity|exact Hnew].
  - destruct (Qgeb score 85) eqn:Hhigh; cbn [best_result best_score]; [|exact Hres].
    destruct (best_result s) as [d|].
    + exists d. split; [reflexivity|exact Hres].
    + exfalso. rewrite Hres in Hbetter. apply Qltb_ge in Hbetter.
      apply Qgeb_ge in Hhigh.
      assert (H85 : (85 <= 0)%Q) by (eapply Qle_trans; eassumption).
      exact (H85 eq_refl).
Qed.

Lemma guess_strategy_vetted E hotel_name city parts w :
  match guess_strategy E hotel_name city parts w with
  | Go (reason, _) =>
      reason = None \/ reason = Some "domain_not_hotel"
      \/ reason = Some "domain_not_relevant"
  | Stop r => returns_vetted E hotel_name city r
  end.
Proof.
  unfold guess_strategy.
  destruct (String.length (clean_name parts) <? 3)%nat; [now left|].
  destruct (filter_existing_domains E _ w) as [urls w1].
  set (s0 := {| domain_any_checked := false; domain_any_relevant := false;
                domain_any_valid := false; best_result := None; best_score := 0%Q;
                guess_world := w1 |}).
  pose proof (for_each_inv (guess_body E hotel_name city) (fun _ => True)
                (guess_vetted E hotel_name city) (returns_vetted E hotel_name city)
                (fun x s _ Hs => guess_body_vetted E hotel_name city x s Hs)
                urls s0 (Forall_True urls) eq_refl) as Hloop.
  destruct (for_each (guess_body E hotel_name city) urls s0) as [s|r]; [|exact Hloop].
  unfold guess_vetted in Hloop.
  destruct (best_result s) as [d|].
  - exists d. split; [reflexivity|exact Hloop].
  - destruct (domain_any_checked s && negb (domain_any_valid s)); [|now left].
    destruct (domain_any_relevant s); auto.
Qed.

Lemma build_candidates_off_blacklist E hotel_name links cands :
  build_candidates E hotel_name links = Some cands ->
  Forall (fun c => off_blacklist E (fst c)) cands.
Proof.
  revert cands. induction links as [|[href text] links IH]; cbn [build_candidates];
    intros cands; [intros [= <-]; constructor|].
  repeat match goal with
         | |- context [if ?c then _ else _] => destruct c eqn:?
         | |- context [match query_param ?e ?k ?h with _ => _ end] =>
             destruct (query_param e k h) as [[?|]|]
         | |- context [match tldextract ?e ?h with _ => _ end] =>
             destruct (tldextract e h) as [[? ?]|] eqn:?
         end;
    try (apply IH);
    match goal with
    | Hb : (mem ?d BLACKLIST_DOMAINS || mem _ BLACKLIST_DOMAINS) = false,
      Ht : tldextract E ?h = Some (?d, ?sfx)
      |- context [calculate_score ?e ?n ?h ?t] =>
        apply orb_false_iff in Hb as [Hb1 Hb2];
        destruct (calculate_score e n h t) as [score|]; [|discriminate];
        destruct (build_candidates E hotel_name links) as [rest|]; [|discriminate];
        specialize (IH rest eq_refl);
        destruct (Qltb 10 score); intros [= <-]; [constructor|]; try assumption;
        exists d, sfx; auto
    end.
Qed.

Lemma candidate_body_vetted E hotel_name city candidate s :
  off_blacklist E (fst candidate) ->
  match candidate_body E hotel_name city candidate s with
  | Go _ => True
  | Stop r => search_vetted E hotel_name city r
  end.
Proof.
  intros Hoff. unfold candidate_body. destruct candidate as [url score].
  cbn [fst] in Hoff.
  destruct (_is_relevant_domain E hotel_name url) eqn:Hrel; cbn [negb]; [|exact I].
  destruct (validate_in E (search_world s) url (Some hotel_name) (Some city))
    as [validation w'] eqn:Hval.
  destruct (is_hotel validation) eqn:Hhotel; [|exact I].
  eexists url, _, "ddg_search". split; [reflexivity|].
  split; [right; now left|]. split; [exact Hrel|]. split; [|intros _; exact Hoff].
  exists (search_world s). now rewrite Hval.
Qed.

Lemma query_body_vetted E hotel_name city search_query s :
  match query_body E hotel_name city search_query s with
  | Go _ => True
  | Stop r => search_vetted E hotel_name city r
  end.
Proof.
  unfold query_body.
  destruct (search_ddg_html E search_query (search_world s)) as [res w1].
  destruct res as [html|exn]; [|exact I].
  destruct (search_links E html) as [links|]; [|exact I].
  destruct (build_candidates E hotel_name (firstn 50 links)) as [cands|] eqn:Hc;
    [|exact I].
  apply build_candidates_off_blacklist in Hc.
  destruct cands as [|c cands]; [exact I|].
  apply (for_each_inv (candidate_body E hotel_name city)
           (fun c => off_blacklist E (fst c)) (fun _ => True)
           (search_vetted E hotel_name city)).
  - intros x s' Hx _. now apply candidate_body_vetted.
  - now apply sort_by_score_desc_Forall.
  - exact I.
Qed.

Lemma search_strategy_vetted E hotel_name city w :
  search_vetted E hotel_name city (search_strategy E hotel_name city w).
Proof.
  unfold search_strategy.
  set (queries := match state (ddg w) with OPEN => [] | _ => _ end).
  pose proof (for_each_inv (query_body E hotel_name city) (fun _ => True)
                (fun _ => True) (search_vetted E hotel_name city)
                (fun x s _ _ => query_body_vetted E hotel_name city x s)
                queries
                {| ddg_any_candidates := false; ddg_any_relevant := false;
                   search_world := w |} (Forall_True queries) I) as Hloop.
  destruct (for_each _ queries _) as [s|r]; [exact I|exact Hloop].
Qed.

Lemma alt_body_vetted E hotel_name city alt_name tld s :
  match alt_body E hotel_name city alt_name tld s with
  | Go _ => True
  | Stop r => returns_vetted E hotel_name city r
  end.
Proof.
  unfold alt_body.
  set (domain := "http://" +++ alt_name +++ tld).
  set (w1 := {| tick := S (tick (alt_world s)); db := db (alt_world s);
                ddg := ddg (alt_world s) |}).
  destruct (requests_head E _ domain) as [[status location]|]; [|exact I].
  destruct (Zmem status [200; 301; 302; 307; 308]%Z); [|exact I].
  set (final_url := if negb (status =? 200)%Z then _ else domain).
  destruct (_is_relevant_domain E hotel_name final_url) eqn:Hrel; cbn [negb]; [|exact I].
  destruct (validate_in E w1 final_url (Some hotel_name) (Some city))
    as [validation w2] eqn:Hval.
  destruct (is_hotel validation) eqn:Hhotel; [|exact I].
  destruct (calculate_score E hotel_name final_url hotel_name) as [cs|]; [|exact I].
  eexists. cbn [fst]. split; [reflexivity|].
  eexists final_url, _, "alternative_tld". split; [reflexivity|].
  split; [right; right; now left|]. split; [exact Hrel|]. split; [|discriminate].
  exists w1. now rewrite Hval.
Qed.

Lemma alt_strategy_vetted E hotel_name city cleaned w :
  match alt_strategy E hotel_name city cleaned w with
  | Go _ => True
  | Stop r => returns_vetted E hotel_name city r
  end.
Proof.
  unfold alt_strategy.
  destruct (String.length (strip cleaned) <? 2)%nat; [exact I|].
  apply (for_each_inv (alt_body E hotel_name city (strip cleaned)) (fun _ => True)
           (fun _ => True) (returns_vetted E hotel_name city)).
  - intros x s _ _. apply alt_body_vetted.
  - apply Forall_True.
  - exact I.
Qed.

(** The three ways in which [find_website] ends. *)
Lemma find_website_cases E w name city :
  fst (find_website E w name city) = None
  \/ (exists d, fst (find_website E w name city) = Some d
                /\ vetted E (strip (or_empty name)) (lower (strip (or_empty city))) d)
  \/ (exists reason,
        fst (find_website E w name city)
        = Some [("url", PyNone); ("reason", PyStr reason)]
        /\ In reason GivenReasons).
Proof.
  unfold find_website.
  set (hotel_name := strip (or_empty name)).
  set (city' := lower (strip (or_empty city))).
  destruct (is_empty hotel_name); [now left|]. right.
  pose proof (guess_strategy_vetted E hotel_name city' (clean_hotel_name hotel_name) w)
    as H1.
  destruct (guess_strategy E hotel_name city' (clean_hotel_name hotel_name) w)
    as [[reason w1]|r]; [|left; exact H1].
  pose proof (search_strategy_vetted E hotel_name city' w1) as H2.
  destruct (search_strategy E hotel_name city' w1) as [d w2|s].
  { left. exists d. split; [reflexivity|exact H2]. }
  pose proof (alt_strategy_vetted E hotel_name city'
                (clean_name (clean_hotel_name hotel_name)) (search_world s)) as H3.
  destruct (alt_strategy E hotel_name city' _ (search_world s)) as [a|r];
    [|left; exact H3].
  right. cbn [fst negb andb].
  destruct H1 as [->|[->| ->]].
  - destruct (ddg_any_candidates s); cbn [negb andb].
    + destruct (ddg_any_relevant s); eexists; (split; [reflexivity|in_literals]).
    + eexists. split; [reflexivity|in_literals].
  - eexists. split; [reflexivity|in_literals].
  - eexists. split; [reflexivity|in_literals].
Qed.

(** X26.  A not-found result never carries the reasons [no_match],
    [alternative_not_hotel] or [alternative_not_relevant]: when the search
    ends without a result a reason is always set, so the reason that
    [find_website] returns is one of [domain_not_relevant],
    [domain_not_hotel], [ddg_not_relevant], [ddg_no_candidates] and
    [ddg_no_valid]. *)
Theorem find_website_reasons E w name city d v :
  fst (find_website E w name city) = Some d ->
  py_get "reason" d = Some v ->
  exists reason, v = PyStr reason /\ In reason GivenReasons
                 /\ reason <> "no_match" /\ reason <> "alternative_not_hotel"
                 /\ reason <> "alternative_not_relevant".
Proof.
  intros Hd Hv.
  destruct (find_website_cases E w name city) as [H|[(d' & H & Hvet)|(reason & H & Hin)]];
    rewrite Hd in H; [discriminate| |].
  - injection H as <-. destruct Hvet as (url & score & source & -> & _). discriminate.
  - injection H as ->. cbn in Hv. injection Hv as <-.
    exists reason. split; [reflexivity|]. split; [exact Hin|].
    cbn in Hin.
    repeat (destruct Hin as [<-|Hin]; [repeat split; discriminate|]). destruct Hin.
Qed.

Lemma find_website_reasons_witness :
  exists reason, PyStr "ddg_no_candidates" = PyStr reason /\ In reason GivenReasons.
Proof.
  assert (Hd : fst (find_website example_env example_world
                      (Some "HOTEL THAT DOES NOT EXIST XYZ") (Some "IZMIR"))
               = Some [("url", PyNone); ("reason", PyStr "ddg_no_candidates")])
    by (vm_compute; reflexivity).
  destruct (find_website_reasons _ _ _ _ _ (PyStr "ddg_no_candidates") Hd eq_refl)
    as (reason & Hv & Hin & _).
  exists reason. exact (conj Hv Hin).
Defined.



(** X28.  A result of the search is never of a blacklisted domain:
    neither the registered name nor the name with its suffix of a URL
    returned with the source [ddg_search] is in [BLACKLIST_DOMAINS]. *)
Theorem search_result_off_blacklist E w name city d url :
  fst (find_website E w name city) = Some d ->
  py_get "url" d = Some (PyStr url) ->
  py_get "source" d = Some (PyStr "ddg_search") ->
  off_blacklist E url.
Proof.
  intros Hd Hurl Hsrc.
  destruct (find_website_cases E w name city) as [H|[(d' & H & Hvet)|(reason & H & Hin)]];
    rewrite Hd in H; [discriminate| |].
  - injection H as <-.
    destruct Hvet as (url' & score & source & -> & _ & _ & _ & Hoff).
    cbn in Hurl, Hsrc. injection Hurl as <-. injection Hsrc as ->.
    now apply Hoff.
  - injection H as ->. discriminate.
Qed.

(** The search of the example finds the site of the hotel and skips the
    link of the booking site. *)
Lemma find_website_search_example :
  fst (find_website search_env example_world (Some "ALEXIA RESORT & SPA HOTEL")
         (Some "ANTALYA"))
  = Some [("url", PyStr "http://www.alexiaresort.com/"); ("score", PyFloat 100);
          ("source", PyStr "ddg_search")].
Proof. vm_compute. reflexivity. Qed.

Lemma search_result_off_blacklist_witness :
  off_blacklist search_env "http://www.alexiaresort.com/".
Proof.
  exact (search_result_off_blacklist search_env example_world
           (Some "ALEXIA RESORT & SPA HOTEL") (Some "ANTALYA") _
           "http://www.alexiaresort.com/" find_website_search_example eq_refl eq_refl).
Defined.

(** ** The tasks *)

(** X29.  [process_facility] never ends in its exception handler on
    account of the result of [find_website]: it marks the facility as
    found, with a website that is a non-empty string that has passed the
    relevance filter, or as not found, with the website left as it was. *)
Theorem process_facility_outcome E w f :
  exists f' l,
    fst (Main.process_facility E w f) = Main.Done f' l
    /\ ((l = Main.SUCCESS
         /\ Main.website_status f' = "found"
         /\ exists url, Main.website f' = PyStr url /\ url <> ""
              /\ _is_relevant_domain E (strip (or_empty (Main.name f))) url = true)
        \/ (l = Main.WARNING
            /\ Main.website_status f' = "not_found"
            /\ Main.website f' = Main.website f)).
Proof.
  unfold Main.process_facility.
  pose proof (find_website_cases E w (Main.name f) (Main.sehir f)) as Hcases.
  destruct (find_website E w (Main.name f) (Main.sehir f)) as [result w'].
  cbn [fst] in Hcases |- *.
  destruct Hcases as [->|[(d & -> & Hvet)|(reason & -> & _)]].
  - eexists _, _. split; [reflexivity|]. right. repeat split.
  - destruct Hvet as (url & score & source & -> & _ & Hrel & _).
    unfold Main.record_website. cbn [py_get String.eqb Ascii.eqb Bool.eqb].
    change (py_get "url" [("url", PyStr url); ("score", PyFloat score);
                          ("source", PyStr source)]) with (Some (PyStr url)).
    change (py_get "score" [("url", PyStr url); ("score", PyFloat score);
                            ("source", PyStr source)]) with (Some (PyFloat score)).
    cbn [Main.py_truthy].
    destruct (nonempty url) eqn:Hne.
    + eexists _, _. split; [reflexivity|]. left.
      split; [reflexivity|]. split; [reflexivity|].
      exists url. split; [reflexivity|]. split; [|exact Hrel].
      intros ->. discriminate.
    + eexists _, _. split; [reflexivity|]. right. repeat split.
  - eexists _, _. split; [reflexivity|]. right. repeat split.
Qed.

Lemma crawl_for_email_kept E start max e :
  crawl_for_email E start max = CrawlReturn (Some e) -> kept_email e.
Proof.
  intros Hret.
  destruct (crawl_for_email_found _ _ _ _ Hret) as (domain & st & Hreach & Hin).
  pose proof (crawl_reach_kept _ _ _ _ _ Hreach) as Hkept.
  rewrite Forall_forall in Hkept. now apply Hkept.
Qed.

(** X30.  A turn of the e-mail task counts the facility once, as
    processed or as an error, and the only address that it ever writes to
    a facility is one that the crawl returned: a lower-case address that
    passes [is_valid_email], stored with the status [found]. *)
Theorem email_step_outcome E max_pages f job :
  (Main.processed_items (snd (Main.email_step E max_pages f job))
   + Main.error_count (snd (Main.email_step E max_pages f job))
   = Main.processed_items job + Main.error_count job + 1)%Z
  /\ (Main.email (fst (Main.email_step E max_pages f job)) = Main.email f
      \/ exists e,
           Main.email (fst (Main.email_step E max_pages f job)) = Some e
           /\ Main.email_status (fst (Main.email_step E max_pages f job)) = "found"
           /\ lower e = e /\ is_valid_email e = true).
Proof.
  unfold Main.email_step. cbv zeta.
  destruct (negb (Main.py_truthy (Main.website f))); cbn [fst snd].
  { split; [cbn; lia|now left]. }
  destruct (Main.website f) as [|url|q]; cbn [fst snd];
    try (split; [cbn; lia|now left]).
  destruct (crawl_for_email E url max_pages) as [[e|]|exn] eqn:Hcrawl; cbn [fst snd];
    try (split; [cbn; lia|now left]).
  destruct (nonempty e); cbn [fst snd]; (split; [cbn; lia|]); [|now left].
  right. exists e. cbn.
  destruct (crawl_for_email_kept _ _ _ _ Hcrawl) as [Hfix Hvalid].
  repeat split; try assumption.
  rewrite <- Hfix. apply lower_strip_lower.
Qed.
